(** * VEO video generation agent: the streaming task core

    A shallow embedding of
    [samples/python/agents/veo_video_gen_google_adk/agent.py]
    (class [VideoGenerationAgent]): the async generator [stream], the
    finalisation helpers [_upload_bytes_to_gcs] and [_generate_signed_url],
    and the Python string operations they rely on.  Further down come the
    constructor of the class, the entry points [main] of the VEO agent
    ([veo_video_gen_google_adk/main.py]) and of the Cloud Run agent
    ([cloud-run-agent/__main__.py]), and the DEV.to client
    ([devto-agent/services/devto_service.py]).

    Conventions of the embedding.
    - A Python [str] is a list of characters, [bytes] a list of bytes.
    - A Python [float] is an IEEE 754 binary64 number.  A finite float is
      given by its value, a rational; every float operation is the exact
      operation followed by rounding to the nearest float, ties to even, with
      gradual underflow and overflow to infinity.  The two zeros are not told
      apart.  [time.monotonic()] returns the float nearest to the reading of
      the clock.
    - [storage_client.bucket(name)] validates the bucket name and may raise;
      [bucket.blob(name)] only records the name of the object.
    - An attribute of a backend object is [Missing] when [hasattr] is false
      and [Has v] otherwise; a present attribute may hold [None].
    - Log calls are not recorded, but the attribute reads inside their
      f-strings are, since such a read can raise [AttributeError].
    - Only subclasses of [Exception] are modelled: task cancellation
      ([BaseException]) is outside the embedding.
    - The texts of attribute errors on the objects nested in a response use
      the class names of the SDK. *)

From Stdlib Require Import List Ascii String ZArith QArith Qround Qabs Qpower Lia Bool.
From stdpp Require Import gmap strings.
Import ListNotations.

#[local] Open Scope list_scope.
#[local] Open Scope Z_scope.

(** ** Python strings *)

Module Py.

Definition str := list ascii.
Definition bytes := list Byte.byte.

Definition lit (s : string) : str := list_ascii_of_string s.
Arguments lit : simpl never.

Definition slash : ascii := "/"%char.

Definition is_slash (c : ascii) : bool := Ascii.eqb c slash.

(** ['/' in s] *)
Definition has_slash (s : str) : bool := existsb is_slash s.

(** [s.startswith(p)] *)
Fixpoint startswith (p s : str) : bool :=
  match p, s with
  | [], _ => true
  | _ :: _, [] => false
  | a :: p', b :: s' => Ascii.eqb a b && startswith p' s'
  end.


(** [s.endswith('/')] *)
Definition endswith_slash (s : str) : bool :=
  match rev s with
  | c :: _ => is_slash c
  | [] => false
  end.

(** [s.split(sep)] for a one-character separator: never empty. *)
Fixpoint split (sep : ascii) (s : str) : list str :=
  match s with
  | [] => [[]]
  | c :: s' =>
      if Ascii.eqb c sep then [] :: split sep s'
      else match split sep s' with
           | seg :: rest => (c :: seg) :: rest
           | [] => [[c]]
           end
  end.

(** [s.split('/')[-1]] *)
Definition last_segment (s : str) : str := List.last (split slash s) [].

(** [old] non-empty: scan left to right, replacing each non-overlapping
    occurrence; [skip] counts the characters of a matched occurrence that are
    still to be dropped. *)
Fixpoint replace_go (old new : str) (skip : nat) (s : str) : str :=
  match s with
  | [] => []
  | c :: s' =>
      match skip with
      | S k => replace_go old new k s'
      | O =>
          if startswith old s
          then new ++ replace_go old new (Nat.pred (length old)) s'
          else c :: replace_go old new O s'
      end
  end.

(** [s.replace(old, new)]; with an empty [old] Python inserts [new] before
    every character and at the end. *)
Definition replace (old new s : str) : str :=
  match old with
  | [] => new ++ flat_map (fun c => c :: new) s
  | _ :: _ => replace_go old new O s
  end.

(** [sep.join(parts)] *)
Fixpoint join (sep : str) (parts : list str) : str :=
  match parts with
  | [] => []
  | [p] => p
  | p :: rest => p ++ sep ++ join sep rest
  end.

(** [s[:n]] *)
Definition take (n : nat) (s : str) : str := firstn n s.

(** [posixpath.join(a, b)] *)
Definition path_join (a b : str) : str :=
  if startswith [slash] b then b
  else if (match a with [] => true | _ => endswith_slash a end) then a ++ b
  else a ++ slash :: b.

(** [int(x)] on a finite float: truncation toward zero. *)
Definition int_of (x : Q) : Z := Z.quot (Qnum x) (Zpos (Qden x)).

(** [str(n)] for an integer, in decimal. *)
Definition digit (n : Z) : ascii := ascii_of_nat (48 + Z.to_nat n).

Fixpoint decimal_go (fuel : nat) (n : Z) (acc : str) : str :=
  match fuel with
  | O => acc
  | S f =>
      let acc' := digit (n mod 10) :: acc in
      if n <? 10 then acc' else decimal_go f (n / 10) acc'
  end.

Definition str_of_Z (n : Z) : str :=
  if n <? 0 then "-"%char :: decimal_go (S (Z.to_nat (Z.log2 (- n)))) (- n) []
  else decimal_go (S (Z.to_nat (Z.log2 n))) n [].

End Py.

(** ** Exceptions and attributes *)

(** An instance of a subclass of [Exception]: its class name and [str(e)]. *)
Record Exn := mkExn { exn_class : Py.str; exn_text : Py.str }.

(** The state of an attribute [x.a]: [Missing] when [hasattr(x, 'a')] is
    false, [Has v] when reading it gives [v]. *)
Inductive attr (A : Type) : Type :=
| Missing
| Has (a : A).
Arguments Missing {A}.
Arguments Has {A} a.

Definition hasattr {A} (a : attr A) : bool :=
  match a with Missing => false | Has _ => true end.

(** [k] runs when [r] has not raised. *)
Definition then_ {A B} (r : Exn + A) (k : A -> Exn + B) : Exn + B :=
  match r with
  | inl e => inl e
  | inr a => k a
  end.

(** ** Python floats *)

Module PyFloat.

Inductive float :=
| Finite (x : Q)
| Inf (negative : bool)
| NaN.

(** The format: 53 bits of significand, [2^-1022] the least normal number,
    [2^1024] the first power of two out of range. *)
Definition prec : Z := 53.
Definition emin : Z := -1022.
Definition emax : Z := 1024.

Definition pow2 (e : Z) : Q := (2 ^ e)%Q.

(** The integer nearest to [x], the even one when two are as near. *)
Definition rne (x : Q) : Z :=
  let n := Qnum x in
  let d := Zpos (Qden x) in
  let q := n / d in
  match 2 * (n mod d) ?= d with
  | Lt => q
  | Gt => q + 1
  | Eq => if Z.even q then q else q + 1
  end.

(** [floor(log2 |x|)] for [x] other than zero. *)
Definition exponent (x : Q) : Z :=
  let e := Z.log2 (Z.abs (Qnum x)) - Z.log2 (Zpos (Qden x)) in
  if Qle_bool (pow2 e) (Qabs x) then e else e - 1.

(** The exponent of the last place of the floats around [x]: 52 below the
    exponent of [x], and that of the subnormal numbers below [2^-1022]. *)
Definition last_place (x : Q) : Z := Z.max (exponent x) emin - (prec - 1).

(** The multiple of [2^E] nearest to [x], ties to even. *)
Definition on_grid (E : Z) (x : Q) : Q :=
  (inject_Z (rne (x / pow2 E)) * pow2 E)%Q.

(** The float nearest to [x], were the exponent unbounded above. *)
Definition nearest (x : Q) : Q :=
  if Qeq_bool x 0 then 0%Q else on_grid (last_place x) x.

Definition is_zero (x : Q) : bool := Qeq_bool x 0.

Definition negative (x : Q) : bool := Qnum x <? 0.

(** Rounding of the exact result of an operation. *)
Definition round (x : Q) : float :=
  let y := nearest x in
  if Qle_bool (pow2 emax) (Qabs y) then Inf (negative x) else Finite y.

(** [a - b] *)
Definition sub (a b : float) : float :=
  match a, b with
  | Finite x, Finite y => round (x - y)
  | Finite _, Inf s => Inf (negb s)
  | Inf s, Finite _ => Inf s
  | Inf s, Inf t => if Bool.eqb s t then NaN else Inf s
  | _, _ => NaN
  end.

(** [a * b] *)
Definition mul (a b : float) : float :=
  match a, b with
  | Finite x, Finite y => round (x * y)
  | Finite x, Inf s | Inf s, Finite x =>
      if is_zero x then NaN else Inf (xorb s (negative x))
  | Inf s, Inf t => Inf (xorb s t)
  | _, _ => NaN
  end.

(** [a / b] for [b] other than zero. *)
Definition div (a b : float) : float :=
  match a, b with
  | Finite x, Finite y => round (x / y)
  | Finite _, Inf _ => Finite 0
  | Inf s, Finite y => Inf (xorb s (negative y))
  | _, _ => NaN
  end.

(** The conversion of an [int] operand of a float operation. *)
Definition of_int (n : Z) : Exn + Q :=
  match round (inject_Z n) with
  | Finite x => inr x
  | _ => inl (mkExn (Py.lit "OverflowError")
                (Py.lit "int too large to convert to float"))
  end.

(** [a / n] for a float [a] and an [int] [n]. *)
Definition truediv (a : float) (n : Z) : Exn + float :=
  then_ (of_int n) (fun b =>
    if is_zero b
    then inl (mkExn (Py.lit "ZeroDivisionError") (Py.lit "float division by zero"))
    else inr (div a (Finite b))).

(** What [int(x)] and [math.floor(x)] raise for a float that is not finite. *)
Definition not_finite (x : float) : Exn :=
  match x with
  | NaN => mkExn (Py.lit "ValueError")
             (Py.lit "cannot convert float NaN to integer")
  | _ => mkExn (Py.lit "OverflowError")
           (Py.lit "cannot convert float infinity to integer")
  end.

(** [int(x)]: truncation toward zero. *)
Definition int (x : float) : Exn + Z :=
  match x with
  | Finite q => inr (Py.int_of q)
  | _ => inl (not_finite x)
  end.

(** [math.floor(x)] *)
Definition floor (x : float) : Exn + Z :=
  match x with
  | Finite q => inr (Qfloor q)
  | _ => inl (not_finite x)
  end.

End PyFloat.

(** ** Backend objects (google.genai operation handles) *)

(** [video_obj]: [mime_type] and [video_bytes] are optional. *)
Record Video := {
  mime_type : attr (option Py.str);
  video_bytes : attr (option Py.bytes)
}.

(** An element of [response.generated_videos]. *)
Record GeneratedVideo := { video : attr (option Video) }.

(** [veo_operation.response]. *)
Record Response := {
  resp_str : Py.str;                                   (* str(response) *)
  generated_videos : attr (option (list GeneratedVideo));
  rai_media_filtered_count : attr (option Z);
  rai_media_filtered_reasons : attr (option (list Py.str))
}.

(** [veo_operation.error]: a truthy error value; [err_message] is its
    [message] attribute when it has one, [err_str] is [str(error)]. *)
Record OpError := {
  err_message : attr Py.str;
  err_str : Py.str
}.

(** What [generate_videos] and [operations.get] hand back: any object.
    [op_error = Has None] stands for every falsy error value. *)
Record Operation := {
  op_class : Py.str;                                   (* type(obj).__name__ *)
  op_type : Py.str;                                    (* str(type(obj)) *)
  op_str : Py.str;                                     (* str(obj) *)
  op_name : attr (option Py.str);
  op_done : attr (option bool);
  op_error : attr (option OpError);
  op_response : attr (option Response)
}.

(** Truthiness of [veo_operation.done]. *)
Definition done_truthy (d : option bool) : bool :=
  match d with Some true => true | _ => false end.

(** ** Events yielded by [stream] *)

Record FilePart := { uri : Py.str; mimeType : Py.str }.

(** One yielded dict; a key that the dict does not hold is [None]. *)
Record Event := {
  is_task_complete : bool;
  updates : option Py.str;
  progress_percent : Z;
  content : option Py.str;
  is_error : option bool;
  final_message_text : option Py.str;
  file_part_data : option FilePart;
  artifact_name : option Py.str;
  artifact_description : option Py.str
}.

(** [{'is_task_complete': False, 'updates': u, 'progress_percent': p}] *)
Definition working (u : Py.str) (p : Z) : Event :=
  {| is_task_complete := false; updates := Some u; progress_percent := p;
     content := None; is_error := None; final_message_text := None;
     file_part_data := None; artifact_name := None;
     artifact_description := None |}.

(** [{'is_task_complete': True, 'content': c, 'is_error': True,
      'final_message_text': f, 'progress_percent': 100}] *)
Definition failed (c f : Py.str) : Event :=
  {| is_task_complete := true; updates := None; progress_percent := 100;
     content := Some c; is_error := Some true; final_message_text := Some f;
     file_part_data := None; artifact_name := None;
     artifact_description := None |}.

(** The dict yielded at line 230: no ['is_error'] key. *)
Definition polling_issue (c f : Py.str) : Event :=
  {| is_task_complete := true; updates := None; progress_percent := 100;
     content := Some c; is_error := None; final_message_text := Some f;
     file_part_data := None; artifact_name := None;
     artifact_description := None |}.

(** The dict yielded at line 313. *)
Definition completed (u mime name descr msg : Py.str) : Event :=
  {| is_task_complete := true; updates := None; progress_percent := 100;
     content := None; is_error := None; final_message_text := Some msg;
     file_part_data := Some {| uri := u; mimeType := mime |};
     artifact_name := Some name; artifact_description := Some descr |}.

(** ** The agent and its environment *)

(** The fields of [self] and the class constants that [stream] reads. *)
Record Agent := {
  VEO_POLLING_INTERVAL_SECONDS : Z;
  VEO_SIMULATED_TOTAL_GENERATION_TIME_SECONDS : Z;
  SIGNED_URL_EXPIRATION_SECONDS : Z;
  gcs_bucket_name : Py.str;
  storage_client : bool;            (* [self.storage_client] is truthy *)
  signer_service_account_email : option Py.str
}.

(** The local disk: path to file content. *)
Abbreviation FS := (gmap Py.str Py.bytes).

(** How the three fallible steps of one upload behave. *)
Record UploadFaults := {
  open_fails : option Exn;             (* open(path, 'wb') raises *)
  write_fails : option (nat * Exn);    (* f.write raises after n bytes *)
  upload_fails : option Exn            (* blob.upload_from_filename raises *)
}.

(** Everything outside the agent during one run of [stream]. *)
Record World := {
  w_start : Exn + Operation;              (* generate_videos(...) *)
  w_poll : nat -> Exn + Operation;        (* the k-th operations.get(...) *)
  w_clock : nat -> Q;                     (* successive readings of the clock *)
  w_uuid : Py.str;                        (* str(uuid.uuid4()) *)
  w_tmpdir : Py.str;                      (* tempfile.gettempdir() *)
  w_bucket : Py.str -> option Exn;        (* storage_client.bucket(name) raises *)
  w_faults : UploadFaults;
  w_sign : Py.str -> Py.str -> Exn + Py.str  (* blob.generate_signed_url *)
}.

(** The [k]-th call of [time.monotonic()]. *)
Definition time_monotonic (w : World) (k : nat) : PyFloat.float :=
  PyFloat.round (w_clock w k).

(** Calls that leave the generator. *)
Inductive Call :=
| CStart (prompt : Py.str)
| CSleep (seconds : Z)
| CPoll (op : Operation)
| CUpload (video : Py.bytes) (bucket blob content_type : Py.str)
| CSign (blob bucket : Py.str) (expiration : Z).

(** What an observer of one run sees, in order. *)
Inductive Item :=
| Ev (e : Event)
| Do (c : Call).

Definition events (t : list Item) : list Event :=
  flat_map (fun i => match i with Ev e => [e] | Do _ => [] end) t.

Definition calls (t : list Item) : list Call :=
  flat_map (fun i => match i with Ev _ => [] | Do c => [c] end) t.

Definition is_poll (c : Call) : bool :=
  match c with CPoll _ => true | _ => false end.

Definition is_finalizer (c : Call) : bool :=
  match c with CUpload _ _ _ _ | CSign _ _ _ => true | _ => false end.

(** The polls among the calls of a trace. *)
Definition polls (t : list Item) : list Call := List.filter is_poll (calls t).

(** ** The generator monad *)

(** How a block of the generator ends. *)
Inductive outcome (A : Type) : Type :=
| Val (a : A)       (* falls through with a value *)
| Exc (e : Exn)     (* an exception propagates *)
| Ret               (* [return] *)
| Susp.             (* still suspended in the polling loop: out of fuel *)
Arguments Val {A} a.
Arguments Exc {A} e.
Arguments Ret {A}.
Arguments Susp {A}.

(** The locals of [stream] that outlive the [try] block, and the disk. *)
Record Frame := {
  operation_kicked_off : bool;
  veo_operation_name_for_reporting : Py.str;
  disk : FS
}.

Definition gen (A : Type) : Type := Frame -> list Item * Frame * outcome A.

Definition ret {A} (a : A) : gen A := fun s => ([], s, Val a).

Definition bind {A B} (m : gen A) (f : A -> gen B) : gen B :=
  fun s =>
    match m s with
    | (t, s1, Val a) =>
        match f a s1 with
        | (t', s2, o) => (t ++ t', s2, o)
        end
    | (t, s1, Exc e) => (t, s1, Exc e)
    | (t, s1, Ret) => (t, s1, Ret)
    | (t, s1, Susp) => (t, s1, Susp)
    end.

Declare Scope gen_scope.
Delimit Scope gen_scope with gen.
Notation "x <- m ;; k" := (bind m (fun x => k))
  (at level 100, m at next level, right associativity) : gen_scope.
Notation "m ;; k" := (bind m (fun _ => k))
  (at level 100, right associativity) : gen_scope.
#[local] Open Scope gen_scope.

Definition yield (e : Event) : gen unit := fun s => ([Ev e], s, Val tt).
Definition call (c : Call) : gen unit := fun s => ([Do c], s, Val tt).
Definition raise {A} (e : Exn) : gen A := fun s => ([], s, Exc e).
Definition return_ {A} : gen A := fun s => ([], s, Ret).
Definition suspend {A} : gen A := fun s => ([], s, Susp).

Definition lift {A} (r : Exn + A) : gen A :=
  match r with inl e => raise e | inr a => ret a end.

Definition get_name : gen Py.str :=
  fun s => ([], s, Val (veo_operation_name_for_reporting s)).

Definition set_kicked_off : gen unit :=
  fun s => ([], {| operation_kicked_off := true;
                   veo_operation_name_for_reporting :=
                     veo_operation_name_for_reporting s;
                   disk := disk s |}, Val tt).

Definition on_disk {A} (f : FS -> FS * (Exn + A)) : gen A :=
  fun s =>
    match f (disk s) with
    | (fs', r) =>
        let s' := {| operation_kicked_off := operation_kicked_off s;
                     veo_operation_name_for_reporting :=
                       veo_operation_name_for_reporting s;
                     disk := fs' |} in
        match r with
        | inl e => ([], s', Exc e)
        | inr a => ([], s', Val a)
        end
    end.

(** [if name: veo_operation_name_for_reporting = name] *)
Definition adopt_name (name : option Py.str) (s : Frame) : Frame :=
  match name with
  | Some (c :: n) =>
      {| operation_kicked_off := operation_kicked_off s;
         veo_operation_name_for_reporting := c :: n;
         disk := disk s |}
  | _ => s
  end.

Definition note_name (name : option Py.str) : gen unit :=
  fun s => ([], adopt_name name s, Val tt).

(** Reading [obj.a]. *)
Definition getattr {A} (cls a : Py.str) (x : attr A) : gen A :=
  match x with
  | Has v => ret v
  | Missing =>
      raise (mkExn (Py.lit "AttributeError")
               (Py.lit "'" ++ cls ++ Py.lit "' object has no attribute '"
                  ++ a ++ Py.lit "'"))
  end.

(** ** Finalisation helpers *)

(** [f"gs://{bucket_name}/"] *)
Definition gs_prefix (bucket_name : Py.str) : Py.str :=
  Py.lit "gs://" ++ bucket_name ++ Py.lit "/".

(** [f"gs://{bucket_name}/{blob_name}"] *)
Definition gs_uri (bucket_name blob_name : Py.str) : Py.str :=
  Py.lit "gs://" ++ bucket_name ++ Py.lit "/" ++ blob_name.

(** [os.path.join(tempfile.gettempdir(), blob_name.split('/')[-1])] *)
Definition temp_file_path (w : World) (blob_name : Py.str) : Py.str :=
  Py.path_join (w_tmpdir w) (Py.last_segment blob_name).

(** The body of the [try] in [_upload_bytes_to_gcs]: write the bytes to the
    temporary file, then upload from it.  [open] creates or truncates the
    file; a failing [write] leaves what it had written. *)
Definition write_and_upload (faults : UploadFaults) (path : Py.str)
    (video_bytes : Py.bytes) (fs : FS) : FS * (Exn + unit) :=
  match open_fails faults with
  | Some e => (fs, inl e)
  | None =>
      match write_fails faults with
      | Some (n, e) => (<[path := firstn n video_bytes]> fs, inl e)
      | None =>
          let fs' := <[path := video_bytes]> fs in
          match upload_fails faults with
          | Some e => (fs', inl e)
          | None => (fs', inr tt)
          end
      end
  end.

(** The [finally]: [if os.path.exists(p): os.remove(p)]; removing a file
    that exists is taken to succeed. *)
Definition remove_if_exists (path : Py.str) (fs : FS) : FS :=
  match fs !! path with
  | Some _ => delete path fs
  | None => fs
  end.

(** [VideoGenerationAgent._upload_bytes_to_gcs]: the handles are built
    before the [try] (lines 122-123), so an exception of [bucket()] leaves
    the function before the temporary file is created. *)
Definition _upload_bytes_to_gcs (self : Agent) (w : World)
    (video_bytes : Py.bytes) (bucket_name blob_name content_type : Py.str)
    (fs : FS) : FS * (Exn + Py.str) :=
  if storage_client self then
    match w_bucket w bucket_name with
    | Some e => (fs, inl e)
    | None =>
        let temp := temp_file_path w blob_name in
        match write_and_upload (w_faults w) temp video_bytes fs with
        | (fs', inl e) => (remove_if_exists temp fs', inl e)
        | (fs', inr _) =>
            (remove_if_exists temp fs', inr (gs_uri bucket_name blob_name))
        end
    end
  else
    (fs, inl (mkExn (Py.lit "RuntimeError")
                (Py.lit "Google Cloud Storage client not initialized. Cannot upload video."))).

(** [VideoGenerationAgent._generate_signed_url]: the handles are built
    before the [try] (lines 143-144); only [generate_signed_url] is inside
    it. *)
Definition _generate_signed_url (self : Agent) (w : World)
    (blob_name bucket_name : Py.str) (expiration_seconds : Z) : Exn + Py.str :=
  if storage_client self then
    match w_bucket w bucket_name with
    | Some e => inl e
    | None =>
        match w_sign w blob_name bucket_name with
        | inr signed_url => inr signed_url
        | inl _ => inr (gs_uri bucket_name blob_name)
        end
    end
  else
    inl (mkExn (Py.lit "AttributeError")
           (Py.lit "'NoneType' object has no attribute 'bucket'")).

(** ** Progress estimate (lines 233-235) *)

(** [min(int((elapsed_time / total) * 100), 99)]: the division converts the
    [int] total to a float, and the literal 100 is the float 100.0. *)
Definition simulated_progress (elapsed_time : PyFloat.float) (total : Z)
  : Exn + Z :=
  then_ (PyFloat.truediv elapsed_time total) (fun ratio =>
  then_ (PyFloat.int (PyFloat.mul ratio (PyFloat.Finite 100))) (fun percent =>
  inr (Z.min percent 99))).

(** [max(5, simulated_progress)] *)
Definition current_progress (elapsed_time : PyFloat.float) (total : Z)
  : Exn + Z :=
  then_ (simulated_progress elapsed_time total) (fun simulated_progress =>
  inr (Z.max 5 simulated_progress)).

(** ** Blob naming (lines 284-287) *)

(** [mime_type.split('/')[-1] if '/' in mime_type else 'mp4'] *)
Definition extension (mime : Py.str) : Py.str :=
  if Py.has_slash mime then Py.last_segment mime else Py.lit "mp4".

(** [f"veo_video_{session_id}_{uuid.uuid4()}"] *)
Definition video_filename_base (session_id uuid : Py.str) : Py.str :=
  Py.lit "veo_video_" ++ session_id ++ Py.lit "_" ++ uuid.

Definition video_filename (session_id uuid mime : Py.str) : Py.str :=
  video_filename_base session_id uuid ++ Py.lit "." ++ extension mime.

(** [f"{session_id}/{video_filename}"] *)
Definition gcs_blob_name (session_id uuid mime : Py.str) : Py.str :=
  session_id ++ Py.lit "/" ++ video_filename session_id uuid mime.

(** [video_obj.mime_type or "video/mp4"] *)
Definition effective_mime (m : option Py.str) : Py.str :=
  match m with
  | Some (c :: r) => c :: r
  | _ => Py.lit "video/mp4"
  end.

(** ** Messages *)

Definition msg_received (prompt : Py.str) : Py.str :=
  Py.lit "Received prompt: '" ++ prompt ++ Py.lit "'. Starting VEO video generation.".

Definition msg_started (name : Py.str) : Py.str :=
  Py.lit "VEO operation '" ++ name ++ Py.lit "' started. Polling for completion...".

Definition msg_not_operation (session_id : Py.str) (op : Operation) : Py.str :=
  Py.lit "[" ++ session_id
  ++ Py.lit "] VEO operation variable is not a valid operation object before 'done' check. Type: "
  ++ op_type op ++ Py.lit ", Value: " ++ Py.take 200 (op_str op).

Definition msg_unexpected_poll (session_id name : Py.str) (polled : Operation) : Py.str :=
  Py.lit "[" ++ session_id ++ Py.lit "] VEO polling for '" ++ name
  ++ Py.lit "' returned unexpected data type: " ++ op_type polled
  ++ Py.lit ". Value: " ++ Py.take 200 (op_str polled).

Definition msg_polling_issue : Py.str :=
  Py.lit "Video generation polling encountered an API issue.".

Definition msg_in_progress (name : Py.str) (p : Z) : Py.str :=
  Py.lit "Video generation in progress (Operation: " ++ name
  ++ Py.lit "). Simulated progress: " ++ Py.str_of_Z p ++ Py.lit "%".

(** [getattr(error, 'message', str(error))] *)
Definition error_message_detail (e : OpError) : Py.str :=
  match err_message e with
  | Has m => m
  | Missing => err_str e
  end.

Definition msg_veo_failed (e : OpError) : Py.str :=
  Py.lit "VEO video generation failed: " ++ error_message_detail e.

Definition msg_no_bytes : Py.str :=
  Py.lit "VEO response video_obj has no video_bytes, cannot proceed.".

Definition msg_no_bytes_final : Py.str :=
  Py.lit "Video processing failed due to missing video byte data.".

Definition msg_artifact (prompt gcs_uri_after_upload : Py.str) : Py.str :=
  Py.lit "Generated video for prompt: '" ++ prompt
  ++ Py.lit "'. Original GCS location: " ++ gcs_uri_after_upload.

Definition msg_success (signed_gcs_url gcs_uri_after_upload : Py.str) : Py.str :=
  if bool_decide (signed_gcs_url = gcs_uri_after_upload)
  then Py.lit "Video generation successful. Video stored at GCS: "
       ++ gcs_uri_after_upload ++ Py.lit ". A signed URL could not be generated."
  else Py.lit "Video generation successful. Access video at link (expires): "
       ++ signed_gcs_url ++ Py.lit ". Original GCS location: "
       ++ gcs_uri_after_upload.

Definition msg_no_uri : Py.str :=
  Py.lit "VEO generation completed, but failed to obtain a GCS URI after upload for signing.".

Definition msg_blocked (reasons : list Py.str) : Py.str :=
  Py.lit "Video generation was blocked by safety filters. Reasons: "
  ++ Py.join (Py.lit ", ") reasons.

Definition msg_no_video : Py.str :=
  Py.lit "VEO generation completed, but no video was returned in the response and no explicit safety filter indicated.".

(** The dict yielded by the [except Exception] handler (lines 358-367). *)
Definition unexpected (session_id : Py.str) (s : Frame) (e : Exn) : Event :=
  let error_context_msg :=
    if operation_kicked_off s
    then Py.lit "VEO operation name: " ++ veo_operation_name_for_reporting s
    else Py.lit "VEO operation not started." in
  failed
    (Py.lit "An error occurred during video generation stream for session_id "
     ++ session_id ++ Py.lit ": " ++ exn_text e ++ Py.lit ". Context: "
     ++ error_context_msg)
    (Py.lit "An unexpected error occurred: " ++ exn_text e).

(** ** [VideoGenerationAgent.stream] *)

Section Stream.

Context (self : Agent) (w : World) (prompt session_id : Py.str).

(** [await self._upload_bytes_to_gcs(...)] *)
Definition do_upload (video_bytes : Py.bytes) (bucket blob mime : Py.str)
  : gen Py.str :=
  call (CUpload video_bytes bucket blob mime) ;;
  on_disk (_upload_bytes_to_gcs self w video_bytes bucket blob mime).

(** [await self._generate_signed_url(...)] *)
Definition do_sign (blob bucket : Py.str) (expiration : Z) : gen Py.str :=
  call (CSign blob bucket expiration) ;;
  lift (_generate_signed_url self w blob bucket expiration).

(** Lines 261-333: a video was returned. *)
Definition deliver (generated_video_info : GeneratedVideo) : gen unit :=
  video_obj <- getattr (Py.lit "GeneratedVideo") (Py.lit "video")
                 (video generated_video_info) ;;
  match video_obj with
  | None =>
      raise (mkExn (Py.lit "AttributeError")
               (Py.lit "'NoneType' object has no attribute 'mime_type'"))
  | Some video_obj =>
      m <- getattr (Py.lit "Video") (Py.lit "mime_type") (mime_type video_obj) ;;
      let mime := effective_mime m in
      b <- getattr (Py.lit "Video") (Py.lit "video_bytes")
             (video_bytes video_obj) ;;
      match b with
      | Some (b0 :: bs) =>
          let blob := gcs_blob_name session_id (w_uuid w) mime in
          gcs_uri_after_upload <-
            do_upload (b0 :: bs) (gcs_bucket_name self) blob mime ;;
          match gcs_uri_after_upload with
          | _ :: _ =>
              let blob_name_for_signing :=
                Py.replace (gs_prefix (gcs_bucket_name self)) []
                  gcs_uri_after_upload in
              signed_gcs_url <-
                do_sign blob_name_for_signing (gcs_bucket_name self)
                  (SIGNED_URL_EXPIRATION_SECONDS self) ;;
              yield (completed signed_gcs_url mime
                       (Py.last_segment gcs_uri_after_upload)
                       (msg_artifact prompt gcs_uri_after_upload)
                       (msg_success signed_gcs_url gcs_uri_after_upload))
          | [] => yield (failed msg_no_uri msg_no_uri)
          end
      | _ =>
          yield (failed msg_no_bytes msg_no_bytes_final) ;;
          return_
      end
  end.

(** Lines 335-355: no video was returned. *)
Definition explain_empty (response : option Response) : gen unit :=
  let no_video := yield (failed msg_no_video msg_no_video) in
  match response with
  | None => no_video
  | Some r =>
      match rai_media_filtered_count r with
      | Missing => no_video
      | Has None =>
          raise (mkExn (Py.lit "TypeError")
                   (Py.lit "'>' not supported between instances of 'NoneType' and 'int'"))
      | Has (Some n) =>
          if 0 <? n then
            match rai_media_filtered_reasons r with
            | Missing =>
                yield (failed (msg_blocked [Py.lit "Unknown safety filter."])
                         (msg_blocked [Py.lit "Unknown safety filter."]))
            | Has None =>
                raise (mkExn (Py.lit "TypeError")
                         (Py.lit "'NoneType' object is not iterable"))
            | Has (Some reasons) =>
                yield (failed (msg_blocked reasons) (msg_blocked reasons))
            end
          else no_video
      end
  end.

(** Lines 242-355: what follows the polling loop. *)
Definition finish (veo_operation : Operation) : gen unit :=
  let cls := op_class veo_operation in
  _ <- getattr cls (Py.lit "name") (op_name veo_operation) ;;
  _ <- getattr cls (Py.lit "done") (op_done veo_operation) ;;
  error <- getattr cls (Py.lit "error") (op_error veo_operation) ;;
  match error with
  | Some e =>
      yield (failed (msg_veo_failed e) (msg_veo_failed e)) ;;
      return_
  | None =>
      response <- getattr cls (Py.lit "response") (op_response veo_operation) ;;
      vids <- match response with
              | Some r =>
                  getattr (Py.lit "GenerateVideosResponse")
                    (Py.lit "generated_videos") (generated_videos r)
              | None => ret None
              end ;;
      match vids with
      | Some (generated_video_info :: _) => deliver generated_video_info
      | _ => explain_empty response
      end
  end.

(** Lines 206-240: the polling loop; [k] polls have been made, [fuel] more
    may be made. *)
Fixpoint poll_loop (fuel k : nat) (veo_operation : Operation)
  : gen Operation :=
  match op_done veo_operation with
  | Missing =>
      raise (mkExn (Py.lit "TypeError") (msg_not_operation session_id veo_operation))
  | Has d =>
      if done_truthy d then ret veo_operation
      else
        match fuel with
        | O => suspend
        | S fuel' =>
            call (CSleep (VEO_POLLING_INTERVAL_SECONDS self)) ;;
            call (CPoll veo_operation) ;;
            polled_data <- lift (w_poll w k) ;;
            match op_done polled_data, op_name polled_data with
            | Has _, Has n =>
                note_name n ;;
                let elapsed_time :=
                  PyFloat.sub (time_monotonic w (S k)) (time_monotonic w 0) in
                current_progress <-
                  lift (current_progress elapsed_time
                          (VEO_SIMULATED_TOTAL_GENERATION_TIME_SECONDS self)) ;;
                name <- get_name ;;
                yield (working (msg_in_progress name current_progress)
                         current_progress) ;;
                poll_loop fuel' (S k) polled_data
            | _, _ =>
                name <- get_name ;;
                yield (polling_issue
                         (msg_unexpected_poll session_id name polled_data)
                         msg_polling_issue) ;;
                return_
            end
        end
  end.

(** Lines 182-204: start the operation. *)
Definition start_operation : gen Operation :=
  call (CStart prompt) ;;
  veo_operation <- lift (w_start w) ;;
  (match op_name veo_operation with
   | Has n => note_name n
   | Missing => ret tt
   end) ;;
  set_kicked_off ;;
  name <- get_name ;;
  yield (working (msg_started name) 5) ;;
  ret veo_operation.

(** The operation with which the polling loop is left. *)
Definition await_operation (fuel : nat) : gen Operation :=
  veo_operation <- start_operation ;;
  poll_loop fuel O veo_operation.

(** The body of the [try] (lines 182-355). *)
Definition try_block (fuel : nat) : gen unit :=
  veo_operation <- await_operation fuel ;;
  finish veo_operation.

(** The frame on entry to the [try]. *)
Definition entry (fs : FS) : Frame :=
  {| operation_kicked_off := false;
     veo_operation_name_for_reporting := Py.lit "N/A";
     disk := fs |}.

(** One run of the generator, consumed until it ends or is still polling
    after [fuel] polls. *)
Record Run := {
  trace : list Item;
  finished : bool;
  final_disk : FS
}.

Definition stream (fuel : nat) (fs : FS) : Run :=
  let first := Ev (working (msg_received prompt) 0) in
  match try_block fuel (entry fs) with
  | (t, s, Exc e) =>
      {| trace := first :: t ++ [Ev (unexpected session_id s e)];
         finished := true; final_disk := disk s |}
  | (t, s, Susp) =>
      {| trace := first :: t; finished := false; final_disk := disk s |}
  | (t, s, _) =>
      {| trace := first :: t; finished := true; final_disk := disk s |}
  end.

(** The operation with which the polling loop breaks, when it does so within
    [fuel] polls. *)
Definition completed_operation (fuel : nat) (fs : FS) : option Operation :=
  match await_operation fuel (entry fs) with
  | (_, _, Val op) => Some op
  | _ => None
  end.

End Stream.

(** ** Input domains *)

(** A path-safe task id holds no path separator. *)
Definition path_safe (session_id : Py.str) : bool := negb (Py.has_slash session_id).

Definition is_hex (c : ascii) : bool :=
  existsb (Ascii.eqb c) (Py.lit "0123456789abcdef").

Fixpoint matches_uuid (pattern u : Py.str) : bool :=
  match pattern, u with
  | [], [] => true
  | p :: pattern', c :: u' =>
      (if Ascii.eqb p "-"%char then Ascii.eqb c "-"%char else is_hex c)
      && matches_uuid pattern' u'
  | _, _ => false
  end.

(** The text of [str(uuid.uuid4())]: 8-4-4-4-12 lower-case hex digits. *)
Definition uuid_text (u : Py.str) : bool :=
  matches_uuid (Py.lit "hhhhhhhh-hhhh-hhhh-hhhh-hhhhhhhhhhhh") u.

(** Number of ['/'] in a string. *)
Definition slashes (s : Py.str) : nat := count_occ ascii_dec s Py.slash.

(** The part of a blob name after the two copies of the task id. *)
Definition tail_name (u ext : Py.str) : Py.str :=
  Py.lit "_" ++ u ++ Py.lit "." ++ ext.

(** ** The estimator as the specification words it *)

(** [estimate(elapsedSeconds, assumedTotalSeconds)]:
    [min(floor(elapsed/total*100), 99)], floored at 5; the seconds are
    floats and so is the arithmetic. *)
Definition estimate (elapsedSeconds : PyFloat.float) (assumedTotalSeconds : Z)
  : Exn + Z :=
  then_ (PyFloat.truediv elapsedSeconds assumedTotalSeconds) (fun ratio =>
  then_ (PyFloat.floor (PyFloat.mul ratio (PyFloat.Finite 100))) (fun percent =>
  inr (Z.max 5 (Z.min percent 99)))).

(** The same formula in exact arithmetic, for comparison. *)
Definition exact_estimate (elapsedSeconds : Q) (assumedTotalSeconds : Z) : Z :=
  Z.max 5 (Z.min (Qfloor ((elapsedSeconds / inject_Z assumedTotalSeconds) * 100)) 99).

(** The floor of the percentage at [m] hundredths, computed in floats. *)
Definition at_hundredths (m : Z) : Z :=
  Qfloor (PyFloat.nearest (PyFloat.nearest (inject_Z m / 100) * 100)).

(** The clock never goes backwards. *)
Definition monotonic (clock : nat -> Q) : Prop :=
  forall i j, (i <= j)%nat -> (clock i <= clock j)%Q.

(** ** Shapes of traces *)

(** The locals read by the exception handler are unchanged. *)
Definition same_locals (s s' : Frame) : Prop :=
  operation_kicked_off s' = operation_kicked_off s
  /\ veo_operation_name_for_reporting s' = veo_operation_name_for_reporting s.

(** At most one event, and that one terminal at 100 percent. *)
Definition closing (tl : list Event) (closed : bool) : Prop :=
  if closed
  then exists e, tl = [e] /\ is_task_complete e = true /\ progress_percent e = 100
  else tl = [].

Section Shapes.

Context (self : Agent) (w : World) (prompt session_id : Py.str).

(** [elapsed_time] after the [k]-th poll (line 233). *)
Definition elapsed_at (k : nat) : PyFloat.float :=
  PyFloat.sub (time_monotonic w (S k)) (time_monotonic w 0).

(** The estimate computed after the [k]-th poll, or what computing it
    raises. *)
Definition progress_at (k : nat) : Exn + Z :=
  current_progress (elapsed_at k)
    (VEO_SIMULATED_TOTAL_GENERATION_TIME_SECONDS self).

(** The Working events of the polling loop from poll [k] on. *)
Fixpoint polling_events (k : nat) (evs : list Event) : Prop :=
  match evs with
  | [] => True
  | e :: evs' =>
      (exists name p,
         progress_at k = inr p /\ e = working (msg_in_progress name p) p)
      /\ polling_events (S k) evs'
  end.

Definition zero_division : Exn :=
  mkExn (Py.lit "ZeroDivisionError") (Py.lit "float division by zero").

Definition not_operation (op : Operation) : Exn :=
  mkExn (Py.lit "TypeError") (msg_not_operation session_id op).

(** The Working event of line 236 for the estimate [p]. *)
Definition in_progress (p : Z) (s : Frame) : Event :=
  working (msg_in_progress (veo_operation_name_for_reporting s) p) p.

(** The terminal event of line 230. *)
Definition api_issue (s : Frame) (polled : Operation) : Event :=
  polling_issue
    (msg_unexpected_poll session_id (veo_operation_name_for_reporting s) polled)
    msg_polling_issue.

(** The check of line 222: the [name] of an object that has both fields. *)
Definition accepted (polled : Operation) : option (option Py.str) :=
  match op_done polled, op_name polled with
  | Has _, Has n => Some n
  | _, _ => None
  end.

Definition sleep : Item := Do (CSleep (VEO_POLLING_INTERVAL_SECONDS self)).

(** The frame once the operation has been started (lines 192-198). *)
Definition started_frame (op : Operation) (s : Frame) : Frame :=
  {| operation_kicked_off := true;
     veo_operation_name_for_reporting :=
       veo_operation_name_for_reporting
         (match op_name op with Has n => adopt_name n s | Missing => s end);
     disk := disk s |}.

(** The runs of the polling loop from poll [k] on, as a relation: what the
    loop does with operation [op] in frame [s]. *)
Inductive Polling : nat -> Operation -> Frame ->
                    list Item * Frame * outcome Operation -> Prop :=
| P_invalid k op s :
    op_done op = Missing ->
    Polling k op s ([], s, Exc (not_operation op))
| P_done k op s d :
    op_done op = Has d -> done_truthy d = true ->
    Polling k op s ([], s, Val op)
| P_waiting k op s d :
    op_done op = Has d -> done_truthy d = false ->
    Polling k op s ([], s, Susp)
| P_poll_raises k op s d e :
    op_done op = Has d -> done_truthy d = false ->
    w_poll w k = inl e ->
    Polling k op s ([sleep; Do (CPoll op)], s, Exc e)
| P_unexpected k op s d polled :
    op_done op = Has d -> done_truthy d = false ->
    w_poll w k = inr polled -> accepted polled = None ->
    Polling k op s ([sleep; Do (CPoll op); Ev (api_issue s polled)], s, Ret)
| P_no_estimate k op s d polled n e :
    op_done op = Has d -> done_truthy d = false ->
    w_poll w k = inr polled -> accepted polled = Some n ->
    progress_at k = inl e ->
    Polling k op s ([sleep; Do (CPoll op)], adopt_name n s, Exc e)
| P_again k op s d polled n pct t s' o :
    op_done op = Has d -> done_truthy d = false ->
    w_poll w k = inr polled -> accepted polled = Some n ->
    progress_at k = inr pct ->
    Polling (S k) polled (adopt_name n s) (t, s', o) ->
    Polling k op s
      (sleep :: Do (CPoll op) :: Ev (in_progress pct (adopt_name n s)) :: t, s', o).

(** The Working event of line 200. *)
Definition started (s : Frame) : Event :=
  working (msg_started (veo_operation_name_for_reporting s)) 5.

(** The frame after the disk has changed. *)
Definition with_disk (s : Frame) (fs : FS) : Frame :=
  {| operation_kicked_off := operation_kicked_off s;
     veo_operation_name_for_reporting := veo_operation_name_for_reporting s;
     disk := fs |}.

(** The one upload [stream] asks for, given the payload. *)
Definition the_upload (vb : Py.bytes) (mime : Py.str) : Call :=
  CUpload vb (gcs_bucket_name self)
    (gcs_blob_name session_id (w_uuid w) mime) mime.

(** The signing request that follows an upload to [uri]. *)
Definition the_signing (uri : Py.str) : Call :=
  CSign (Py.replace (gs_prefix (gcs_bucket_name self)) [] uri)
    (gcs_bucket_name self) (SIGNED_URL_EXPIRATION_SECONDS self).

(** The Completed event of line 313 for a video stored at [uri] and offered
    at [url]. *)
Definition delivered (url uri mime : Py.str) : Event :=
  completed url mime (Py.last_segment uri) (msg_artifact prompt uri)
    (msg_success url uri).

(** The finaliser calls of a trace. *)
Definition finalizer_calls (t : list Item) : list Call :=
  List.filter is_finalizer (calls t).

(** What a run of the loop shows: Working events with the estimates of polls
    [k], [k+1], ..., closed by one terminal event exactly when the loop
    returns. *)
Definition loop_shows (k : nat) (s : Frame)
    (r : list Item * Frame * outcome Operation) : Prop :=
  match r with
  | (t, s', o) =>
      operation_kicked_off s' = operation_kicked_off s
      /\ exists loop tl,
           events t = loop ++ tl
           /\ polling_events k loop
           /\ closing tl (match o with Ret => true | _ => false end)
  end.

(** The loop only sleeps and polls. *)
Definition loop_calls (r : list Item * Frame * outcome Operation) : Prop :=
  match r with
  | (t, _, _) => Forall (fun c => is_finalizer c = false) (calls t)
  end.

(** The loop is left normally only with a finished operation: the one it
    was entered with, or an accepted poll answer. *)
Definition loop_leaves (k : nat) (op : Operation)
    (r : list Item * Frame * outcome Operation) : Prop :=
  match r with
  | (_, _, Val op') =>
      (exists d, op_done op' = Has d /\ done_truthy d = true)
      /\ (op' = op
          \/ exists j n, (k <= j)%nat /\ w_poll w j = inr op'
                         /\ accepted op' = Some n)
  | _ => True
  end.

(** The polls of a loop run: every poll but the last was answered by an
    object with both fields, and an object without them as answer to the
    last poll ends the run with the event of line 230. *)
Definition loop_polls (k : nat)
    (r : list Item * Frame * outcome Operation) : Prop :=
  match r with
  | (t, _, o) =>
      (forall j, (S j < length (polls t))%nat ->
         exists polled n,
           w_poll w (k + j) = inr polled /\ accepted polled = Some n)
      /\ (forall j polled,
            length (polls t) = S j ->
            w_poll w (k + j) = inr polled -> accepted polled = None ->
            o = Ret /\ exists t0 s0, t = t0 ++ [Ev (api_issue s0 polled)])
  end.

End Shapes.

(** A poll answer after which the loop stops: an exception, an object without
    [done] or [name], or a finished operation. *)
Definition settles (r : Exn + Operation) : bool :=
  match r with
  | inl _ => true
  | inr op =>
      match op_done op, op_name op with
      | Has d, Has _ => done_truthy d
      | _, _ => true
      end
  end.

(** The video bytes and mime type that a finished operation carries. *)
Definition payload (op : Operation) : option (Py.bytes * Py.str) :=
  match op_response op with
  | Has (Some r) =>
      match generated_videos r with
      | Has (Some (gv :: _)) =>
          match video gv with
          | Has (Some v) =>
              match mime_type v, video_bytes v with
              | Has m, Has (Some (b :: bs)) => Some (b :: bs, effective_mime m)
              | _, _ => None
              end
          | _ => None
          end
      | _ => None
      end
  | _ => None
  end.

(** ** Tactics for running the generator *)

Ltac gen_unfold :=
  unfold getattr, lift, bind, ret, raise, yield, call, return_, suspend,
    get_name, note_name, set_kicked_off, on_disk in *.

(** Destructs what the goal still branches on, innermost first. *)
Ltac branch1 :=
  match goal with
  | |- context [match ?x with _ => _ end] =>
      lazymatch x with
      | context [match _ with _ => _ end] => fail
      | _ => destruct x eqn:?
      end
  end.

Ltac branch := gen_unfold; repeat (cbv beta iota zeta; branch1); cbn [app].

(** ** Scenarios *)

Module Scenario.

Definition agent : Agent :=
  {| VEO_POLLING_INTERVAL_SECONDS := 5;
     VEO_SIMULATED_TOTAL_GENERATION_TIME_SECONDS := 120;
     SIGNED_URL_EXPIRATION_SECONDS := 3600 * 48;
     gcs_bucket_name := Py.lit "videos";
     storage_client := true;
     signer_service_account_email := None |}.

Definition prompt : Py.str := Py.lit "a cat playing with a yarn ball".
Definition task : Py.str := Py.lit "t1".
Definition uuid1 : Py.str := Py.lit "123e4567-e89b-42d3-a456-426614174000".
Definition uuid2 : Py.str := Py.lit "9b2f0c1a-7d3e-4f60-8a55-0c1d2e3f4a5b".

Definition fake_mp4 : Py.bytes :=
  [Byte.x66; Byte.x61; Byte.x6b; Byte.x65; Byte.x2d; Byte.x6d; Byte.x70; Byte.x34].

Definition operation (name : attr (option Py.str)) (done : attr (option bool))
    (error : attr (option OpError)) (response : attr (option Response))
  : Operation :=
  {| op_class := Py.lit "GenerateVideosOperation";
     op_type := Py.lit "<class 'google.genai.types.GenerateVideosOperation'>";
     op_str := Py.lit "GenerateVideosOperation(...)";
     op_name := name; op_done := done; op_error := error;
     op_response := response |}.

Definition the_name : attr (option Py.str) := Has (Some (Py.lit "operations/veo-1")).

Definition a_video : Video :=
  {| mime_type := Has (Some (Py.lit "video/mp4"));
     video_bytes := Has (Some fake_mp4) |}.

Definition response (videos : option (list GeneratedVideo))
    (count : attr (option Z)) (reasons : attr (option (list Py.str)))
  : Response :=
  {| resp_str := Py.lit "GenerateVideosResponse(...)";
     generated_videos := Has videos;
     rai_media_filtered_count := count;
     rai_media_filtered_reasons := reasons |}.

Definition with_video : Response :=
  response (Some [{| video := Has (Some a_video) |}]) (Has None) (Has None).

(** Still running. *)
Definition pending : Operation := operation the_name (Has None) (Has None) (Has None).

(** Finished with a video. *)
Definition succeeded : Operation :=
  operation the_name (Has (Some true)) (Has None) (Has (Some with_video)).

Definition quota_error : OpError :=
  {| err_message := Has (Py.lit "quota exceeded");
     err_str := Py.lit "{'code': 8, 'message': 'quota exceeded'}" |}.

(** Finished with a backend error. *)
Definition errored : Operation :=
  operation the_name (Has (Some true)) (Has (Some quota_error)) (Has None).


(** Finished with an empty response whose optional fields hold [None]. *)
Definition empty_result : Operation :=
  operation the_name (Has (Some true)) (Has None)
    (Has (Some (response None (Has None) (Has None)))).

(** Finished with two videos filtered out. *)
Definition filtered : Operation :=
  operation the_name (Has (Some true)) (Has None)
    (Has (Some (response None (Has (Some 2))
                  (Has (Some [Py.lit "violence"; Py.lit "celebrity"]))))).

(** An answer with neither [done] nor [name]. *)
Definition shapeless : Operation :=
  {| op_class := Py.lit "dict"; op_type := Py.lit "<class 'dict'>";
     op_str := Py.lit "{}";
     op_name := Missing; op_done := Missing;
     op_error := Missing; op_response := Missing |}.

(** An answer with [done] but without [name]. *)
Definition nameless : Operation := operation Missing (Has (Some true)) (Has None) (Has None).

Definition no_faults : UploadFaults :=
  {| open_fails := None; write_fails := None; upload_fails := None |}.

Definition io_error : Exn := mkExn (Py.lit "OSError") (Py.lit "No space left on device").
Definition forbidden : Exn := mkExn (Py.lit "Forbidden") (Py.lit "403 caller lacks permission").

Definition signs (blob bucket : Py.str) : Exn + Py.str :=
  inr (Py.lit "https://storage.googleapis.com/" ++ bucket ++ Py.lit "/" ++ blob
       ++ Py.lit "?X-Goog-Signature=ab12").


(** One reading of the clock every five seconds. *)
Definition clock (k : nat) : Q := inject_Z (1000 + 5 * Z.of_nat k).

Definition world (start : Exn + Operation) (poll : nat -> Exn + Operation)
    (faults : UploadFaults) (sign : Py.str -> Py.str -> Exn + Py.str) : World :=
  {| w_start := start; w_poll := poll; w_clock := clock; w_uuid := uuid1;
     w_tmpdir := Py.lit "/tmp"; w_bucket := fun _ => None;
     w_faults := faults; w_sign := sign |}.

(** Answers [first] to the first poll and [then_] to every later one. *)
Definition answers (first then_ : Operation) (k : nat) : Exn + Operation :=
  match k with O => inr first | S _ => inr then_ end.

(** Two polls, then a video that is uploaded and signed. *)
Definition happy : World := world (inr pending) (answers pending succeeded) no_faults signs.


(** The first poll answers with a shapeless object. *)
Definition broken_poll : World :=
  world (inr pending) (answers shapeless succeeded) no_faults signs.

(** The first poll answers with an object that has no [name]. *)
Definition nameless_poll : World :=
  world (inr pending) (answers nameless succeeded) no_faults signs.


(** The start call already returns a failed operation. *)
Definition failing : World :=
  world (inr errored) (answers pending pending) no_faults signs.

(** The operation ends with an empty response. *)
Definition empty : World :=
  world (inr pending) (answers empty_result empty_result) no_faults signs.

(** The start call returns an operation without [name] that is not done. *)
Definition nameless_start : World :=
  world (inr (operation Missing (Has None) (Has None) (Has None)))
    (answers pending succeeded) no_faults signs.

End Scenario.

(** ** Further shapes of runs *)

Section Cadence.

Context (self : Agent) (w : World) (prompt session_id : Py.str).

(** One turn of the polling loop as the backend sees it: the sleep of
    line 215, then the poll of line 217 with the current handle. *)
Definition turn (op : Operation) : list Call :=
  [CSleep (VEO_POLLING_INTERVAL_SECONDS self); CPoll op].

(** Each handle after the first is the answer to the poll of the handle
    before it; [k] is the number of the first poll. *)
Fixpoint threaded (k : nat) (handles : list Operation) : Prop :=
  match handles with
  | _ :: rest =>
      match rest with
      | next :: _ => w_poll w k = inr next
      | [] => True
      end /\ threaded (S k) rest
  | [] => True
  end.

(** An operation that says it is not done (line 212). *)
Definition unfinished (op : Operation) : Prop :=
  exists d, op_done op = Has d /\ done_truthy d = false.

(** The calls of a run of the loop entered with [op]. *)
Definition loop_cadence (k : nat) (op : Operation)
    (r : list Item * Frame * outcome Operation) : Prop :=
  match r with
  | (t, _, _) =>
      exists handles,
        calls t = flat_map turn handles
        /\ (forall h, hd_error handles = Some h -> h = op)
        /\ threaded k handles
        /\ Forall unfinished handles
  end.

(** The exception with which [_upload_bytes_to_gcs] ends for the bucket of
    the agent, if any: the missing client, else the first of [bucket()],
    [open], [write] and the upload that raises. *)
Definition upload_error : option Exn :=
  if storage_client self then
    match w_bucket w (gcs_bucket_name self) with
    | Some e => Some e
    | None =>
        match open_fails (w_faults w) with
        | Some e => Some e
        | None =>
            match write_fails (w_faults w) with
            | Some (_, e) => Some e
            | None => upload_fails (w_faults w)
            end
        end
    end
  else Some (mkExn (Py.lit "RuntimeError")
               (Py.lit "Google Cloud Storage client not initialized. Cannot upload video.")).

(** The disk after an upload of [blob] to the bucket of the agent: untouched
    when the function raises before its [try]. *)
Definition disk_after_upload (blob : Py.str) (fs : FS) : FS :=
  if storage_client self then
    match w_bucket w (gcs_bucket_name self) with
    | Some _ => fs
    | None => delete (temp_file_path w blob) fs
    end
  else fs.

(** The loop leaves the disk and the started flag alone, and never empties
    the name used in messages. *)
Definition loop_keeps (s : Frame)
    (r : list Item * Frame * outcome Operation) : Prop :=
  match r with
  | (_, s', _) =>
      disk s' = disk s
      /\ operation_kicked_off s' = operation_kicked_off s
      /\ (veo_operation_name_for_reporting s <> [] ->
          veo_operation_name_for_reporting s' <> [])
  end.

(** The four dict literals that [stream] yields. *)
Definition yielded_shape (e : Event) : Prop :=
  (exists u p, e = working u p)
  \/ (exists c f, e = failed c f)
  \/ (exists c, e = polling_issue c msg_polling_issue)
  \/ (exists u m n d t, e = completed u m n d t).

(** What follows the loop, by cases. *)
Definition finish_case (op : Operation) (s : Frame)
    (r : list Item * Frame * outcome unit) : Prop :=
  match r with
  | (t, s', o) =>
      (s' = s
       /\ ((t = [] /\ exists e, o = Exc e)
           \/ exists c f, t = [Ev (failed c f)] /\ c <> msg_no_uri
                          /\ (o = Ret \/ o = Val tt)))
      \/ exists vb mime,
           payload op = Some (vb, mime)
           /\ op_error op = Has None
           /\ s' = with_disk s
                     (disk_after_upload
                        (gcs_blob_name session_id (w_uuid w) mime) (disk s))
           /\ let uri := gs_uri (gcs_bucket_name self)
                           (gcs_blob_name session_id (w_uuid w) mime) in
              let signed_name := Py.replace (gs_prefix (gcs_bucket_name self)) [] uri in
              match upload_error with
              | Some e =>
                  t = [Do (the_upload self w session_id vb mime)] /\ o = Exc e
              | None =>
                  t = [Do (the_upload self w session_id vb mime);
                       Do (the_signing self uri);
                       Ev (delivered prompt
                             (match w_sign w signed_name (gcs_bucket_name self) with
                              | inr u => u
                              | inl _ => gs_uri (gcs_bucket_name self) signed_name
                              end) uri mime)]
                  /\ o = Val tt
              end
  end.

(** The operation name that messages show once [k] polls have been answered:
    the latest non-empty [name] among the start response and the answers,
    ["N/A"] when there is none (lines 180, 192-193, 224-225). *)
Fixpoint name_after (k : nat) : Py.str :=
  match k with
  | O =>
      match w_start w with
      | inr op =>
          match op_name op with
          | Has (Some (c :: n)) => c :: n
          | _ => Py.lit "N/A"
          end
      | inl _ => Py.lit "N/A"
      end
  | S j =>
      match w_poll w j with
      | inr polled =>
          match op_name polled with
          | Has (Some (c :: n)) => c :: n
          | _ => name_after j
          end
      | inl _ => name_after j
      end
  end.

End Cadence.

(** The run has ended with [e] as its last event, and no event before it is
    terminal. *)
Definition ends_with (r : Run) (e : Event) : Prop :=
  finished r = true
  /\ exists evs,
       events (trace r) = evs ++ [e]
       /\ Forall (fun a => is_task_complete a = false) evs.

(** ** More Python strings

    Characters are the 256 code points of Latin-1. *)

Module PyText.

(** [c.lower()] for one character. *)
Definition lower_char (c : ascii) : ascii :=
  let n := nat_of_ascii c in
  if ((65 <=? n) && (n <=? 90))%nat
     || ((192 <=? n) && (n <=? 222) && negb (n =? 215))%nat
  then ascii_of_nat (n + 32) else c.

(** [s.lower()] *)
Definition lower (s : Py.str) : Py.str := map lower_char s.

(** [c.upper()] for one character.  The upper-case forms of ['\xb5'],
    ['\xdf'] and ['\xff'] lie outside Latin-1 and hold no ASCII letter but
    [S]; these characters stand for them. *)
Definition upper_char (c : ascii) : ascii :=
  let n := nat_of_ascii c in
  if ((97 <=? n) && (n <=? 122))%nat
     || ((224 <=? n) && (n <=? 254) && negb (n =? 247))%nat
  then ascii_of_nat (n - 32) else c.

(** [s.upper()] *)
Definition upper (s : Py.str) : Py.str := map upper_char s.

(** [s.lstrip(chars)] *)
Fixpoint lstrip (chars s : Py.str) : Py.str :=
  match s with
  | c :: s' => if existsb (Ascii.eqb c) chars then lstrip chars s' else s
  | [] => []
  end.

(** [s.rstrip(chars)] *)
Definition rstrip (chars s : Py.str) : Py.str := rev (lstrip chars (rev s)).

(** [s.strip(chars)] *)
Definition strip (chars s : Py.str) : Py.str := rstrip chars (lstrip chars s).

(** The apostrophe and the double quote: the characters stripped at
    line 84. *)
Definition quotes : Py.str := ["'"%char; ascii_of_nat 34].

(** Truthiness of [os.getenv(...)]: set and not empty. *)
Definition truthy (x : option Py.str) : bool :=
  match x with Some (_ :: _) => true | _ => false end.

(** [str(x)] where [x] is a string or [None]. *)
Definition str_of_optional (x : option Py.str) : Py.str :=
  match x with Some s => s | None => Py.lit "None" end.

(** The integer that a decimal numeral denotes, read after [init]. *)
Definition numeral_value (init : Z) (s : Py.str) : Z :=
  fold_left (fun a c => 10 * a + (Z.of_nat (nat_of_ascii c) - 48)) s init.

(** [int(s)] for the numerals that [str] prints. *)
Definition int_of_numeral (s : Py.str) : Z :=
  match s with
  | c :: r => if Ascii.eqb c "-"%char then - numeral_value 0 r
              else numeral_value 0 s
  | [] => 0
  end.

End PyText.

(** [c] is one of [chars]. *)
Definition among (chars : Py.str) (c : ascii) : Prop :=
  existsb (Ascii.eqb c) chars = true.

(** [s] neither begins nor ends with one of [chars]. *)
Definition bare (chars s : Py.str) : Prop :=
  (forall c t, s = c :: t -> existsb (Ascii.eqb c) chars = false)
  /\ (forall c t, s = t ++ [c] -> existsb (Ascii.eqb c) chars = false).

(** A lower-case ASCII letter. *)
Definition is_lower_letter (c : ascii) : bool :=
  ((97 <=? nat_of_ascii c) && (nat_of_ascii c <=? 122))%nat.

(** The process environment, [os.environ]. *)
Abbreviation Environ := (gmap Py.str Py.str).

(** ** [VideoGenerationAgent.__init__] *)

Module VideoGenerationAgent.

(** What the constructor meets outside the class. *)
Record Startup := {
  environ : Environ;
  genai_Client : option Exn;     (* [genai.Client()] raises *)
  storage_module : bool;         (* the imported [storage] module is truthy *)
  storage_Client : option Exn;   (* [google.auth.default] or [storage.Client] raises *)
  adk : option Exn               (* [LlmAgent(...)] or [Runner(...)] raises *)
}.

Definition GCS_BUCKET_NAME_ENV_VAR : Py.str := Py.lit "VIDEO_GEN_GCS_BUCKET".

Definition SIGNER_SERVICE_ACCOUNT_EMAIL_ENV_VAR : Py.str :=
  Py.lit "SIGNER_SERVICE_ACCOUNT_EMAIL".

(** A bare [raise] where no exception is being handled (lines 58, 64). *)
Definition nothing_to_reraise : Exn :=
  mkExn (Py.lit "RuntimeError") (Py.lit "No active exception to reraise").

(** Line 84. *)
Definition signer_email (sa_email_from_env : option Py.str) : option Py.str :=
  if PyText.truthy sa_email_from_env
  then option_map (PyText.strip PyText.quotes) sa_email_from_env
  else None.

(** Lines 42-100; [interval] and [total] are the class constants of lines 33
    and 34, read from the environment when the class body runs. *)
Definition __init__ (interval total : Z) (st : Startup) : Exn + Agent :=
  match genai_Client st with
  | Some e => inl e
  | None =>
      let bucket := environ st !! GCS_BUCKET_NAME_ENV_VAR in
      if negb (PyText.truthy bucket) then inl nothing_to_reraise
      else if negb (storage_module st) then inl nothing_to_reraise
      else
        match storage_Client st with
        | Some e => inl e
        | None =>
            let signer :=
              signer_email (environ st !! SIGNER_SERVICE_ACCOUNT_EMAIL_ENV_VAR) in
            match adk st with
            | Some e => inl e
            | None =>
                inr {| VEO_POLLING_INTERVAL_SECONDS := interval;
                       VEO_SIMULATED_TOTAL_GENERATION_TIME_SECONDS := total;
                       SIGNED_URL_EXPIRATION_SECONDS := 3600 * 48;
                       gcs_bucket_name := PyText.str_of_optional bucket;
                       storage_client := true;
                       signer_service_account_email := signer |}
            end
        end
  end.

(** The names bound in the body of the class (lines 29-161). *)
Definition class_attributes : list Py.str :=
  map Py.lit
    ["SUPPORTED_INPUT_CONTENT_TYPES"; "SUPPORTED_OUTPUT_CONTENT_TYPES";
     "VEO_MODEL_NAME"; "VEO_POLLING_INTERVAL_SECONDS";
     "VEO_SIMULATED_TOTAL_GENERATION_TIME_SECONDS";
     "VEO_DEFAULT_PERSON_GENERATION"; "VEO_DEFAULT_ASPECT_RATIO";
     "GCS_BUCKET_NAME_ENV_VAR"; "SIGNED_URL_EXPIRATION_SECONDS";
     "SIGNER_SERVICE_ACCOUNT_EMAIL_ENV_VAR"; "__init__"; "_build_llm_agent";
     "_upload_bytes_to_gcs"; "_generate_signed_url"; "stream"]%string.

(** Reading [VideoGenerationAgent.name] on the class object. *)
Definition class_getattr (name : Py.str) : Exn + unit :=
  if existsb (fun a => bool_decide (a = name)) class_attributes then inr tt
  else inl (mkExn (Py.lit "AttributeError")
              (Py.lit "type object 'VideoGenerationAgent' has no attribute '"
               ++ name ++ Py.lit "'")).

End VideoGenerationAgent.

(** ** [main] of the VEO agent ([veo_video_gen_google_adk/main.py]) *)

Module VeoMain.

(** How a run of [main] ends. *)
Inductive Ending :=
| Serving (host : Py.str) (port : Z)     (* [uvicorn.run] was reached *)
| Exit (code : Z) (logged : Py.str).     (* [exit(code)] after [logger.error] *)

(** [os.getenv(key, default)] *)
Definition getenv_or (environ : Environ) (key default : Py.str) : Py.str :=
  match environ !! key with Some v => v | None => default end.

(** Line 37. *)
Definition use_vertex (environ : Environ) : bool :=
  bool_decide (PyText.upper (getenv_or environ (Py.lit "GOOGLE_GENAI_USE_VERTEXAI")
                               (Py.lit "FALSE"))
               = Py.lit "TRUE").

(** Lines 37-41: the [ConfigError] that the checks raise, if any. *)
Definition config_error (environ : Environ) : option Exn :=
  if negb (use_vertex environ)
     && negb (PyText.truthy (environ !! Py.lit "GOOGLE_API_KEY"))
  then Some (mkExn (Py.lit "ConfigError")
               (Py.lit "GOOGLE_API_KEY must be set if GOOGLE_GENAI_USE_VERTEXAI is FALSE."))
  else if use_vertex environ
          && (negb (PyText.truthy (environ !! Py.lit "VERTEX_AI_PROJECT_ID"))
              || negb (PyText.truthy (environ !! Py.lit "VERTEX_AI_LOCATION")))
  then Some (mkExn (Py.lit "ConfigError")
               (Py.lit "VERTEX_AI_PROJECT_ID and VERTEX_AI_LOCATION must be set if GOOGLE_GENAI_USE_VERTEXAI is TRUE."))
  else None.

(** The library calls of lines 48-80, each of which may raise. *)
Record Library := {
  build_skill : option Exn;     (* [AgentCapabilities(...)], [AgentSkill(...)] *)
  build_card : option Exn;      (* [AgentCard(...)] *)
  build_server : option Exn     (* executor, handler, application, [build()] *)
}.

Definition raise_if (x : option Exn) : Exn + unit :=
  match x with Some e => inl e | None => inr tt end.

(** The body of the [try] (lines 37-80). *)
Definition try_body (environ : Environ) (lib : Library) (host : Py.str)
    (port : Z) : Exn + Ending :=
  match config_error environ with
  | Some e => inl e
  | None =>
      match raise_if (build_skill lib) with
      | inl e => inl e
      | inr _ =>
          match VideoGenerationAgent.class_getattr
                  (Py.lit "SUPPORTED_CONTENT_TYPES") with
          | inl e => inl e
          | inr _ =>
              match VideoGenerationAgent.class_getattr
                      (Py.lit "SUPPORTED_OUTPUT_CONTENT_TYPES") with
              | inl e => inl e
              | inr _ =>
                  match raise_if (build_card lib) with
                  | inl e => inl e
                  | inr _ =>
                      match raise_if (build_server lib) with
                      | inl e => inl e
                      | inr _ => inr (Serving host port)
                      end
                  end
              end
          end
      end
  end.

(** [main]: the [try] with its two handlers (lines 81-86). *)
Definition main (environ : Environ) (lib : Library) (host : Py.str)
    (port : Z) : Ending :=
  match try_body environ lib host port with
  | inr ending => ending
  | inl e =>
      if bool_decide (exn_class e = Py.lit "ConfigError")
      then Exit 1 (Py.lit "Configuration Error: " ++ exn_text e)
      else Exit 1 (Py.lit "An error occurred during server startup: "
                   ++ exn_text e)
  end.

End VeoMain.

(** ** [main] of the Cloud Run agent ([cloud-run-agent/__main__.py]) *)

Module CloudRunMain.

Inductive Ending :=
| Serving (host : Py.str) (port : Z)     (* [uvicorn.run] was reached *)
| Raised (e : Exn).                      (* an exception leaves [main] *)

(** The names bound at module level (lines 1-47) and in [main] before
    line 65. *)
Definition module_globals : list Py.str :=
  map Py.lit
    ["asyncio"; "logging"; "os"; "click"; "uvicorn"; "AgentExecutor";
     "RequestContext"; "A2AStarletteApplication"; "EventQueue";
     "DefaultRequestHandler"; "InMemoryTaskStore"; "TaskUpdater";
     "AgentCapabilities"; "AgentCard"; "AgentSkill"; "MessageSendParams";
     "Part"; "TaskState"; "TextPart"; "new_agent_text_message"; "new_task";
     "ADKAgentExecutor"; "load_dotenv"; "Agent"; "InMemoryArtifactService";
     "InMemoryMemoryService"; "Runner"; "InMemorySessionService";
     "google_search"; "types"; "logger"; "MissingAPIKeyError"; "main"]%string.

Definition main_locals : list Py.str :=
  map Py.lit ["host"; "port"; "facts_agent"]%string.

(** Reading a name that is no builtin inside [main]. *)
Definition lookup_name (name : Py.str) : Exn + unit :=
  if existsb (fun a => bool_decide (a = name)) (main_locals ++ module_globals)
  then inr tt
  else inl (mkExn (Py.lit "NameError")
              (Py.lit "name '" ++ name ++ Py.lit "' is not defined")).

Definition missing_api_key : Exn :=
  mkExn (Py.lit "MissingAPIKeyError")
    (Py.lit "GOOGLE_API_KEY environment variable not set and GOOGLE_GENAI_USE_VERTEXAI is not TRUE.").

(** The library calls of lines 53-94, each of which may raise. *)
Record Library := {
  build_agent : option Exn;     (* [Agent(...)] *)
  build_card : option Exn;      (* [AgentCapabilities], [AgentSkill], [AgentCard] *)
  build_server : option Exn     (* executor, handler, application, [build()] *)
}.

(** Lines 47-94. *)
Definition main (environ : Environ) (lib : Library) (host : Py.str)
    (port : Z) : Ending :=
  if negb (PyText.truthy (environ !! Py.lit "GOOGLE_API_KEY"))
  then Raised missing_api_key
  else
    match build_agent lib with
    | Some e => Raised e
    | None =>
        match lookup_name (Py.lit "HOST") with
        | inl e => Raised e
        | inr _ =>
            match lookup_name (Py.lit "PORT") with
            | inl e => Raised e
            | inr _ =>
                match build_card lib with
                | Some e => Raised e
                | None =>
                    match build_server lib with
                    | Some e => Raised e
                    | None => Serving host port
                    end
                end
            end
        end
    end.

End CloudRunMain.

(** ** The DEV.to client ([devto-agent/services/devto_service.py]) *)

Module DevToService.

(** Python values handed to [requests] and parsed from a response body. *)
#[local] Set Warnings "-register-all".
Inductive Value :=
| VNone
| VInt (n : Z)
| VStr (s : Py.str)
| VList (l : list Value)
| VDict (d : list (Py.str * Value)).
#[local] Set Warnings "register-all".

(** [self]: the two attributes read from the environment (lines 11-12). *)
Record Service := {
  api_key : option Py.str;
  base_url : option Py.str
}.

Definition __init__ (environ : Environ) : Service :=
  {| api_key := environ !! Py.lit "DEVTO_API_KEY";
     base_url := environ !! Py.lit "DEVTO_BASE_URL" |}.

(** [self.headers] (lines 13-16). *)
Definition headers (self : Service) : list (Py.str * option Py.str) :=
  [(Py.lit "api-key", api_key self);
   (Py.lit "Content-Type", Some (Py.lit "application/json"))].

(** A call of [requests.get(url, headers=, params=)] or of
    [requests.post(url, headers=, json=)]. *)
Inductive Request :=
| Get (url : Py.str) (hdrs : list (Py.str * option Py.str)) (params : Value)
| Post (url : Py.str) (hdrs : list (Py.str * option Py.str)) (json : Value).

(** A [requests.Response] as far as [send_request] reads it. *)
Record HttpResponse := {
  status_code : Z;
  json : Exn + Value;               (* [response.json()] *)
  raise_for_status : option Exn     (* what [response.raise_for_status()] raises *)
}.

(** The network: a call may raise instead of answering. *)
Definition Http := Request -> Exn + HttpResponse.

Definition unsupported_method : Exn :=
  mkExn (Py.lit "ValueError") (Py.lit "Unsupported HTTP method").

(** Lines 29-32. *)
Definition read_response (response : HttpResponse) : Exn + Value :=
  if status_code response =? 200 then json response
  else match raise_for_status response with
       | Some e => inl e
       | None => inr VNone
       end.

(** Lines 18-32: the requests made, and the result. *)
Definition send_request (self : Service) (http : Http)
    (method endpoint : Py.str) (params data : Value)
  : list Request * (Exn + Value) :=
  let url := PyText.str_of_optional (base_url self) ++ Py.lit "/" ++ endpoint in
  let exchange (rq : Request) :=
    match http rq with
    | inl e => ([rq], inl e)
    | inr response => ([rq], read_response response)
    end in
  if bool_decide (PyText.lower method = Py.lit "get")
  then exchange (Get url (headers self) params)
  else if bool_decide (PyText.lower method = Py.lit "post")
  then exchange (Post url (headers self) data)
  else ([], inl unsupported_method).

Section Methods.

Context (self : Service) (http : Http).

Definition get_articles (page per_page : Z) :=
  send_request self http (Py.lit "get") (Py.lit "articles")
    (VDict [(Py.lit "page", VInt page); (Py.lit "per_page", VInt per_page)])
    VNone.

Definition get_articles_by_tag (tag : Py.str) :=
  send_request self http (Py.lit "get") (Py.lit "articles")
    (VDict [(Py.lit "tag", VStr tag)]) VNone.

Definition get_articles_by_tags (tags : list Py.str) :=
  send_request self http (Py.lit "get") (Py.lit "articles")
    (VDict [(Py.lit "tags", VStr (Py.join (Py.lit ", ") tags))]) VNone.

Definition get_article_content (article_id : Z) :=
  send_request self http (Py.lit "get")
    (Py.lit "articles/" ++ Py.str_of_Z article_id) VNone VNone.

Definition get_user :=
  send_request self http (Py.lit "get") (Py.lit "users/me") VNone VNone.

Definition get_user_articles :=
  send_request self http (Py.lit "get") (Py.lit "articles/me/all") VNone VNone.

Definition get_user_published_articles :=
  send_request self http (Py.lit "get") (Py.lit "articles/me/published")
    VNone VNone.

Definition post_article (title body : Py.str) (tags : list Py.str) :=
  send_request self http (Py.lit "post") (Py.lit "articles") VNone
    (VDict [(Py.lit "article",
             VDict [(Py.lit "title", VStr title);
                    (Py.lit "body_markdown", VStr body);
                    (Py.lit "tags", VList (map VStr tags))])]).

Definition get_user_followers :=
  send_request self http (Py.lit "get") (Py.lit "followers/users") VNone VNone.

Definition get_user_reading_list :=
  send_request self http (Py.lit "get") (Py.lit "readinglist") VNone VNone.

Definition get_article_comments (article_id : Z) :=
  send_request self http (Py.lit "get") (Py.lit "comments")
    (VDict [(Py.lit "a_id", VInt article_id)]) VNone.

End Methods.

(** The spellings of a word in any mix of upper and lower case. *)
Fixpoint spellings (word : Py.str) : list Py.str :=
  match word with
  | [] => [[]]
  | c :: word' =>
      flat_map (fun s => [PyText.lower_char c :: s; PyText.upper_char c :: s])
        (spellings word')
  end.

End DevToService.

(** ** Further scenarios *)

Module Cases.

Import Scenario.

(** The agent with an assumed total time of zero. *)
Definition hasty : Agent :=
  {| VEO_POLLING_INTERVAL_SECONDS := 5;
     VEO_SIMULATED_TOTAL_GENERATION_TIME_SECONDS := 0;
     SIGNED_URL_EXPIRATION_SECONDS := 3600 * 48;
     gcs_bucket_name := Py.lit "videos";
     storage_client := true;
     signer_service_account_email := None |}.

(** The agent with an assumed total time of one hundred seconds. *)
Definition centenary : Agent :=
  {| VEO_POLLING_INTERVAL_SECONDS := 5;
     VEO_SIMULATED_TOTAL_GENERATION_TIME_SECONDS := 100;
     SIGNED_URL_EXPIRATION_SECONDS := 3600 * 48;
     gcs_bucket_name := Py.lit "videos";
     storage_client := true;
     signer_service_account_email := None |}.

(** A world read on another clock. *)
Definition on_clock (clock : nat -> Q) (w : World) : World :=
  {| w_start := w_start w; w_poll := w_poll w; w_clock := clock;
     w_uuid := w_uuid w; w_tmpdir := w_tmpdir w; w_bucket := w_bucket w;
     w_faults := w_faults w; w_sign := w_sign w |}.

(** Readings 29 seconds apart, from zero. *)
Definition every_29 (k : nat) : Q := inject_Z (29 * Z.of_nat k).

(** Readings 9.6 seconds apart, from zero. *)
Definition every_9_6 (k : nat) : Q := (48 # 5) * inject_Z (Z.of_nat k).

Definition invalid_bucket : Exn :=
  mkExn (Py.lit "ValueError")
    (Py.lit "Bucket names must start and end with a number or letter.").

(** A world whose storage library rejects every bucket name. *)
Definition no_bucket (w : World) : World :=
  {| w_start := w_start w; w_poll := w_poll w; w_clock := w_clock w;
     w_uuid := w_uuid w; w_tmpdir := w_tmpdir w;
     w_bucket := fun _ => Some invalid_bucket;
     w_faults := w_faults w; w_sign := w_sign w |}.


(** The video is there at the first poll, and storage refuses the upload. *)
Definition upload_refused : World :=
  world (inr pending) (answers succeeded succeeded)
    {| open_fails := None; write_fails := None; upload_fails := Some forbidden |}
    signs.

(** The start call raises. *)
Definition start_fails : World :=
  world (inl forbidden) (answers pending pending) no_faults signs.

(** The second poll raises. *)
Definition poll_fails : World :=
  world (inr pending)
    (fun k => match k with O => inr pending | S _ => inl forbidden end)
    no_faults signs.

(** The first answer gives the operation another name; the second poll
    raises. *)
Definition renamed_then_fails : World :=
  world (inr pending)
    (fun k =>
       match k with
       | O => inr (operation (Has (Some (Py.lit "operations/veo-2")))
                     (Has None) (Has None) (Has None))
       | S _ => inl forbidden
       end)
    no_faults signs.

(** Finished with one video filtered out and [None] for the reasons. *)
Definition unexplained_result : Operation :=
  operation the_name (Has (Some true)) (Has None)
    (Has (Some (response None (Has (Some 1)) (Has None)))).

Definition unexplained : World :=
  world (inr pending) (answers unexplained_result unexplained_result)
    no_faults signs.

(** Finished with two videos filtered out. *)
Definition rejected : World :=
  world (inr pending) (answers filtered filtered) no_faults signs.

(** A video object without bytes. *)
Definition hollow_video : Video :=
  {| mime_type := Has (Some (Py.lit "video/mp4")); video_bytes := Has None |}.

Definition hollow_response : Response :=
  response (Some [{| video := Has (Some hollow_video) |}]) (Has None) (Has None).

Definition hollow_result : Operation :=
  operation the_name (Has (Some true)) (Has None) (Has (Some hollow_response)).

Definition hollow : World :=
  world (inr pending) (answers hollow_result hollow_result) no_faults signs.

(** The signed URL of the blob of task [t1]. *)
Definition signed_url : Py.str :=
  Py.lit "https://storage.googleapis.com/videos/t1/veo_video_t1_123e4567-e89b-42d3-a456-426614174000.mp4?X-Goog-Signature=ab12".

(** A complete environment, with the signer's address between apostrophes. *)
Definition environment : Environ :=
  <[Py.lit "VIDEO_GEN_GCS_BUCKET" := Py.lit "videos"]>
    (<[Py.lit "SIGNER_SERVICE_ACCOUNT_EMAIL" := Py.lit "'veo@example.iam.gserviceaccount.com'"]>
       (<[Py.lit "GOOGLE_API_KEY" := Py.lit "key"]> ∅)).

Definition startup : VideoGenerationAgent.Startup :=
  {| VideoGenerationAgent.environ := environment;
     VideoGenerationAgent.genai_Client := None;
     VideoGenerationAgent.storage_module := true;
     VideoGenerationAgent.storage_Client := None;
     VideoGenerationAgent.adk := None |}.

(** The agent that [startup] gives. *)
Definition constructed : Agent :=
  {| VEO_POLLING_INTERVAL_SECONDS := 5;
     VEO_SIMULATED_TOTAL_GENERATION_TIME_SECONDS := 120;
     SIGNED_URL_EXPIRATION_SECONDS := 172800;
     gcs_bucket_name := Py.lit "videos";
     storage_client := true;
     signer_service_account_email :=
       Some (Py.lit "veo@example.iam.gserviceaccount.com") |}.

Definition veo_library : VeoMain.Library :=
  {| VeoMain.build_skill := None; VeoMain.build_card := None;
     VeoMain.build_server := None |}.

Definition cloud_run_library : CloudRunMain.Library :=
  {| CloudRunMain.build_agent := None; CloudRunMain.build_card := None;
     CloudRunMain.build_server := None |}.

Definition devto : DevToService.Service :=
  {| DevToService.api_key := Some (Py.lit "secret");
     DevToService.base_url := Some (Py.lit "https://dev.to/api") |}.

(** The API answers every request with 201 Created and the new article. *)
Definition created : DevToService.Http :=
  fun _ =>
    inr {| DevToService.status_code := 201;
           DevToService.json :=
             inr (DevToService.VDict [(Py.lit "id", DevToService.VInt 42)]);
           DevToService.raise_for_status := None |}.

(** The API answers every request with 200 and a body. *)
Definition found : DevToService.Http :=
  fun _ =>
    inr {| DevToService.status_code := 200;
           DevToService.json :=
             inr (DevToService.VDict [(Py.lit "id", DevToService.VInt 42)]);
           DevToService.raise_for_status := None |}.

End Cases.

(* ================================================================= *)
(** * Properties *)

(** ** Strings *)

Section Strings.

Implicit Types s p r : Py.str.

Example split_mime :
  Py.split Py.slash (Py.lit "video/mp4") = [Py.lit "video"; Py.lit "mp4"].
Proof. reflexivity. Qed.

Example split_trailing :
  Py.split Py.slash (Py.lit "a//b/") = [Py.lit "a"; []; Py.lit "b"; []].
Proof. reflexivity. Qed.

Example replace_all :
  Py.replace (Py.lit "ab") [] (Py.lit "abcabab-a") = Py.lit "c-a".
Proof. reflexivity. Qed.

Example replace_empty_old :
  Py.replace [] (Py.lit "-") (Py.lit "abc") = Py.lit "-a-b-c-".
Proof. reflexivity. Qed.

Example join_reasons :
  Py.join (Py.lit ", ") [Py.lit "a"; Py.lit "b"; Py.lit "c"] = Py.lit "a, b, c".
Proof. reflexivity. Qed.

Example path_join_tmp :
  Py.path_join (Py.lit "/tmp") (Py.lit "v.mp4") = Py.lit "/tmp/v.mp4"
  /\ Py.path_join (Py.lit "/tmp/") (Py.lit "v.mp4") = Py.lit "/tmp/v.mp4"
  /\ Py.path_join (Py.lit "/tmp") (Py.lit "/v.mp4") = Py.lit "/v.mp4".
Proof. repeat split. Qed.

Example str_of_Z_values :
  map Py.str_of_Z [0; 5; 42; 99; 100; -7]
  = [Py.lit "0"; Py.lit "5"; Py.lit "42"; Py.lit "99"; Py.lit "100"; Py.lit "-7"].
Proof. reflexivity. Qed.

Example int_of_truncates :
  Py.int_of (7 # 2) = 3 /\ Py.int_of (- 7 # 2) = -3 /\ Qfloor (- 7 # 2) = -4.
Proof. repeat split. Qed.

Example extension_values :
  extension (Py.lit "video/mp4") = Py.lit "mp4"
  /\ extension (Py.lit "video/webm") = Py.lit "webm"
  /\ extension (Py.lit "mp4") = Py.lit "mp4".
Proof. repeat split. Qed.

(** With a task id that holds the bucket prefix, [replace] removes more than
    the leading prefix: this is why task ids are taken to be path-safe. *)
Example replace_inner_prefix :
  Py.replace (gs_prefix (Py.lit "b")) []
    (gs_uri (Py.lit "b") (Py.lit "gs://b/x/veo.mp4"))
  = Py.lit "x/veo.mp4".
Proof. reflexivity. Qed.

Lemma slashes_app s r : slashes (s ++ r) = (slashes s + slashes r)%nat.
Proof. apply count_occ_app. Qed.

Lemma is_slash_true c : Py.is_slash c = true <-> c = Py.slash.
Proof. unfold Py.is_slash. apply Ascii.eqb_eq. Qed.

Lemma slashes_cons c s :
  slashes (c :: s) = ((if Py.is_slash c then 1 else 0) + slashes s)%nat.
Proof.
  unfold slashes. simpl. destruct (ascii_dec c Py.slash) as [->|Hne].
  - reflexivity.
  - destruct (Py.is_slash c) eqn:E; [|reflexivity].
    apply is_slash_true in E. contradiction.
Qed.

Lemma has_slash_slashes s : Py.has_slash s = false <-> slashes s = 0%nat.
Proof.
  induction s as [|c s IH]; simpl.
  - unfold slashes. simpl. tauto.
  - rewrite slashes_cons. destruct (Py.is_slash c); simpl.
    + split; [discriminate | lia].
    + exact IH.
Qed.

Lemma has_slash_true_slashes s : Py.has_slash s = true <-> (0 < slashes s)%nat.
Proof.
  destruct (Py.has_slash s) eqn:E.
  - split; [intros _|reflexivity].
    destruct (slashes s) eqn:N; [|lia].
    apply has_slash_slashes in N. congruence.
  - apply has_slash_slashes in E. split; [discriminate | lia].
Qed.

Lemma startswith_app p s : Py.startswith p s = true <-> exists r, s = p ++ r.
Proof.
  revert s. induction p as [|a p IH]; intros s; simpl.
  - split; [intros _; exists s; reflexivity | reflexivity].
  - destruct s as [|b s].
    + split; [discriminate | intros [r Hr]; discriminate].
    + rewrite andb_true_iff, Ascii.eqb_eq, IH. split.
      * intros [-> [r ->]]. exists r. reflexivity.
      * intros [r Hr]. injection Hr as -> ->. split; [reflexivity | eauto].
Qed.

(** [split] never returns the empty list. *)
Lemma split_nonempty sep s : Py.split sep s <> [].
Proof.
  destruct s as [|c s]; simpl; [discriminate|].
  destruct (Ascii.eqb c sep); [discriminate|].
  destruct (Py.split sep s); discriminate.
Qed.

Lemma split_no_slash s : Py.has_slash s = false -> Py.split Py.slash s = [s].
Proof.
  induction s as [|c s IH]; simpl; [reflexivity|].
  intros H. apply orb_false_iff in H as [Hc Hs].
  unfold Py.is_slash in Hc. rewrite Hc, (IH Hs). reflexivity.
Qed.

Lemma split_has_slash s :
  Py.has_slash s = true ->
  exists seg1 seg2 rest, Py.split Py.slash s = seg1 :: seg2 :: rest.
Proof.
  induction s as [|c s IH]; simpl; [discriminate|].
  intros H. change (Ascii.eqb c Py.slash) with (Py.is_slash c).
  destruct (Py.is_slash c); simpl in H.
  - destruct (Py.split Py.slash s) as [|x r] eqn:S.
    + exfalso. exact (split_nonempty _ _ S).
    + eauto.
  - destruct (IH H) as (seg1 & seg2 & rest & ->). eauto.
Qed.

(** The recursive reading of [s.split('/')[-1]]. *)
Lemma last_segment_cons c s :
  Py.last_segment (c :: s) =
    if Py.has_slash s then Py.last_segment s
    else if Py.is_slash c then s else c :: s.
Proof.
  unfold Py.last_segment. simpl Py.split.
  change (Ascii.eqb c Py.slash) with (Py.is_slash c).
  destruct (Py.has_slash s) eqn:Hs.
  - destruct (split_has_slash _ Hs) as (seg1 & seg2 & rest & ->).
    destruct (Py.is_slash c); reflexivity.
  - rewrite (split_no_slash _ Hs). destruct (Py.is_slash c); reflexivity.
Qed.

Lemma last_segment_no_slash s : Py.has_slash (Py.last_segment s) = false.
Proof.
  induction s as [|c s IH]; [reflexivity|].
  rewrite last_segment_cons.
  destruct (Py.has_slash s) eqn:Hs; [exact IH|].
  destruct (Py.is_slash c) eqn:Hc; [exact Hs|].
  simpl. rewrite Hc, Hs. reflexivity.
Qed.

Lemma last_segment_id s : Py.has_slash s = false -> Py.last_segment s = s.
Proof.
  destruct s as [|c s]; [reflexivity|]. simpl. intros H.
  apply orb_false_iff in H as [Hc Hs].
  rewrite last_segment_cons, Hs, Hc. reflexivity.
Qed.

Lemma has_slash_app s r :
  Py.has_slash (s ++ r) = Py.has_slash s || Py.has_slash r.
Proof. apply existsb_app. Qed.

Lemma last_segment_after_slash s r :
  Py.has_slash r = false -> Py.last_segment (s ++ Py.slash :: r) = r.
Proof.
  intros Hr. induction s as [|c s IH]; simpl app.
  - rewrite last_segment_cons, Hr. reflexivity.
  - rewrite last_segment_cons, has_slash_app. simpl Py.has_slash at 2.
    replace (Py.is_slash Py.slash) with true by reflexivity.
    rewrite orb_true_r. exact IH.
Qed.

Lemma last_segment_suffix s :
  Py.has_slash s = true -> exists pre, s = pre ++ Py.slash :: Py.last_segment s.
Proof.
  induction s as [|c s IH]; simpl; [discriminate|].
  intros H. rewrite last_segment_cons.
  destruct (Py.has_slash s) eqn:Hs.
  - destruct (IH eq_refl) as [pre Hpre]. exists (c :: pre).
    simpl. f_equal. exact Hpre.
  - rewrite orb_false_r in H. rewrite H. apply is_slash_true in H as ->.
    exists []. reflexivity.
Qed.

(** [replace] leaves a string alone when it holds fewer slashes than [old]. *)
Lemma replace_go_few_slashes old new s :
  (slashes s < slashes old)%nat -> Py.replace_go old new O s = s.
Proof.
  induction s as [|c s IH]; intros H; [reflexivity|].
  simpl. destruct (Py.startswith old (c :: s)) eqn:E.
  - apply startswith_app in E as [r Hr].
    rewrite Hr, slashes_app in H. lia.
  - f_equal. apply IH. rewrite slashes_cons in H. lia.
Qed.

Lemma replace_go_skip old new p s :
  Py.replace_go old new (length p) (p ++ s) = Py.replace_go old new O s.
Proof.
  induction p as [|c p IH]; [reflexivity|].
  simpl. exact IH.
Qed.

Lemma startswith_refl_app p s : Py.startswith p (p ++ s) = true.
Proof. apply startswith_app. eauto. Qed.

(** Removing the prefix [old] from [old ++ s] gives back [s] when [s] cannot
    hold another occurrence. *)
Lemma replace_prefix old s :
  old <> [] -> (slashes s < slashes old)%nat ->
  Py.replace old [] (old ++ s) = s.
Proof.
  intros Hne Hs. destruct old as [|a old]; [contradiction|].
  unfold Py.replace. simpl app. cbn [Py.replace_go].
  change (a :: old ++ s) with ((a :: old) ++ s).
  rewrite startswith_refl_app. simpl app. simpl length. simpl Nat.pred.
  rewrite replace_go_skip. apply replace_go_few_slashes. exact Hs.
Qed.







End Strings.

(** ** Blob paths *)

Section BlobPaths.

Lemma gs_uri_prefix bucket blob : gs_uri bucket blob = gs_prefix bucket ++ blob.
Proof. unfold gs_uri, gs_prefix. rewrite <- !app_assoc. reflexivity. Qed.

Lemma gs_prefix_slashes bucket : (3 <= slashes (gs_prefix bucket))%nat.
Proof.
  unfold gs_prefix. rewrite !slashes_app.
  replace (slashes (Py.lit "gs://")) with 2%nat by reflexivity.
  replace (slashes (Py.lit "/")) with 1%nat by reflexivity. lia.
Qed.

Lemma gs_prefix_nonempty bucket : gs_prefix bucket <> [].
Proof. discriminate. Qed.

Lemma extension_no_slash mime : Py.has_slash (extension mime) = false.
Proof.
  unfold extension. destruct (Py.has_slash mime).
  - apply last_segment_no_slash.
  - reflexivity.
Qed.

Lemma is_hex_not_slash c : is_hex c = true -> Py.is_slash c = false.
Proof.
  destruct c as [[] [] [] [] [] [] [] []]; try reflexivity; discriminate.
Qed.

Lemma matches_uuid_spec pattern u :
  matches_uuid pattern u = true ->
  length u = length pattern /\ Py.has_slash u = false.
Proof.
  revert u. induction pattern as [|p pattern IH]; intros [|c u]; simpl;
    try discriminate; [tauto|].
  intros H. apply andb_true_iff in H as [Hc Hu].
  destruct (IH _ Hu) as [IH1 IH2]. split; [congruence|].
  rewrite IH2, orb_false_r.
  destruct (Ascii.eqb p "-").
  - apply Ascii.eqb_eq in Hc as ->. reflexivity.
  - apply is_hex_not_slash. exact Hc.
Qed.

Lemma uuid_text_length u : uuid_text u = true -> length u = 36%nat.
Proof. intros H. apply matches_uuid_spec in H as [H _]. exact H. Qed.

Lemma uuid_text_no_slash u : uuid_text u = true -> Py.has_slash u = false.
Proof. intros H. apply matches_uuid_spec in H as [_ H]. exact H. Qed.

Lemma gcs_blob_name_unfold session_id u mime :
  gcs_blob_name session_id u mime =
    session_id ++ Py.lit "/veo_video_" ++ session_id
      ++ tail_name u (extension mime).
Proof.
  unfold gcs_blob_name, video_filename, video_filename_base, tail_name.
  rewrite <- !app_assoc. reflexivity.
Qed.

Lemma tail_name_slashes u ext :
  Py.has_slash u = false -> Py.has_slash ext = false ->
  slashes (tail_name u ext) = 0%nat.
Proof.
  intros Hu He. apply has_slash_slashes. unfold tail_name.
  rewrite !has_slash_app, Hu, He. reflexivity.
Qed.

Lemma gcs_blob_name_slashes session_id u mime :
  Py.has_slash u = false ->
  slashes (gcs_blob_name session_id u mime) = (1 + 2 * slashes session_id)%nat.
Proof.
  intros Hu. rewrite gcs_blob_name_unfold, !slashes_app.
  rewrite (tail_name_slashes _ _ Hu (extension_no_slash mime)).
  replace (slashes (Py.lit "/veo_video_")) with 1%nat by reflexivity. lia.
Qed.

(** Two blob paths agree only when task id and random component agree. *)
Lemma gcs_blob_name_inj s1 u1 m1 s2 u2 m2 :
  uuid_text u1 = true -> uuid_text u2 = true ->
  gcs_blob_name s1 u1 m1 = gcs_blob_name s2 u2 m2 ->
  s1 = s2 /\ u1 = u2.
Proof.
  intros U1 U2 E.
  pose proof (uuid_text_no_slash _ U1) as N1.
  pose proof (uuid_text_no_slash _ U2) as N2.
  pose proof (tail_name_slashes _ _ N1 (extension_no_slash m1)) as T1.
  pose proof (tail_name_slashes _ _ N2 (extension_no_slash m2)) as T2.
  rewrite !gcs_blob_name_unfold in E.
  assert (S : s1 = s2).
  { apply app_eq_app in E as [l [[-> E]|[-> E]]];
      (destruct l as [|c l]; [now rewrite app_nil_r|]); exfalso;
      assert (C : c = Py.slash)
        by (unfold Py.lit in E; simpl in E; now injection E);
      subst c; apply (f_equal slashes) in E; revert E;
      rewrite !slashes_app, T1, T2, slashes_cons;
      replace (slashes (Py.lit "/veo_video_")) with 1%nat by reflexivity;
      replace (Py.is_slash Py.slash) with true by reflexivity; lia. }
  split; [exact S|]. subst s2.
  do 3 apply app_inv_head in E. unfold tail_name in E.
  apply app_inv_head in E.
  apply app_inj_1 in E as [E _]; [exact E|].
  rewrite (uuid_text_length _ U1), (uuid_text_length _ U2). reflexivity.
Qed.

End BlobPaths.

(** ** Floats

    Rounding to the nearest float preserves the order: the estimate of
    lines 233-235 rests on three such roundings. *)

Section Rounding.

Import PyFloat.

Lemma rne_spec x :
  let n := Qnum x in
  let d := Zpos (Qden x) in
  let k := rne x in
  (2 * k - 1) * d <= 2 * n <= (2 * k + 1) * d
  /\ (2 * n = (2 * k + 1) * d -> Z.even k = true)
  /\ (2 * n = (2 * k - 1) * d -> Z.even k = true).
Proof.
  cbv zeta. unfold rne.
  set (n := Qnum x). set (d := Zpos (Qden x)).
  assert (Hd : 0 < d) by (subst d; lia).
  pose proof (Z.div_mod n d ltac:(lia)) as Hn.
  pose proof (Z.mod_pos_bound n d Hd) as Hr.
  set (q := n / d) in *. set (r := n mod d) in *.
  destruct (Z.compare_spec (2 * r) d) as [E|L|G].
  - destruct (Z.even q) eqn:Eq.
    + split; [nia|]. split; [intros _; exact Eq|]. intros H. nia.
    + assert (Ek : Z.even (q + 1) = true).
      { rewrite Z.even_add, Eq. reflexivity. }
      split; [nia|]. split; [intros _; exact Ek|]. intros _. exact Ek.
  - split; [nia|]. split; intros H; nia.
  - split; [nia|]. split; intros H; nia.
Qed.

Lemma rne_mono x y : (x <= y)%Q -> rne x <= rne y.
Proof.
  intros Hxy. unfold Qle in Hxy.
  pose proof (rne_spec x) as (Hx & _ & Hxe).
  pose proof (rne_spec y) as (Hy & Hye & _).
  cbv zeta in *.
  set (n1 := Qnum x) in *. set (d1 := Zpos (Qden x)) in *.
  set (n2 := Qnum y) in *. set (d2 := Zpos (Qden y)) in *.
  set (k1 := rne x) in *. set (k2 := rne y) in *.
  assert (H1 : 0 < d1) by (subst d1; lia).
  assert (H2 : 0 < d2) by (subst d2; lia).
  destruct (Z_le_gt_dec k1 k2) as [|Hgt]; [assumption|exfalso].
  assert (Hdd : 0 < d1 * d2) by nia.
  assert (Hc1 : (2 * k1 - 1) * (d1 * d2) <= 2 * (n1 * d2)) by nia.
  assert (Hc2 : 2 * (n2 * d1) <= (2 * k2 + 1) * (d1 * d2)) by nia.
  assert (Hk : k1 = k2 + 1) by nia.
  assert (E1 : 2 * n1 = (2 * k1 - 1) * d1) by nia.
  assert (E2 : 2 * n2 = (2 * k2 + 1) * d2) by nia.
  specialize (Hxe E1). specialize (Hye E2).
  rewrite Hk, Z.even_add, Hye in Hxe. discriminate Hxe.
Qed.

Lemma rne_inject k : rne (inject_Z k) = k.
Proof.
  unfold rne, inject_Z. cbn [Qnum Qden].
  rewrite Z.mod_1_r, Z.div_1_r. reflexivity.
Qed.

Lemma rne_le_integer x k : (x <= inject_Z k)%Q -> rne x <= k.
Proof. intros H. apply rne_mono in H. now rewrite rne_inject in H. Qed.

Lemma rne_ge_integer x k : (inject_Z k <= x)%Q -> k <= rne x.
Proof. intros H. apply rne_mono in H. now rewrite rne_inject in H. Qed.

Lemma rne_opp x : rne (- x) = - rne x.
Proof.
  pose proof (rne_spec x) as (Hx & Hx1 & Hx2).
  pose proof (rne_spec (- x)) as (Hy & Hy1 & Hy2).
  cbv zeta in *. cbn [Qopp Qnum Qden] in *.
  set (n := Qnum x) in *. set (d := Zpos (Qden x)) in *.
  set (k := rne x) in *. set (j := rne (- x)) in *.
  assert (Hd : 0 < d) by (subst d; lia).
  assert (Hj : j = - k \/ j = - k - 1 \/ j = - k + 1) by nia.
  destruct Hj as [Hj|[Hj|Hj]]; [exact Hj|exfalso|exfalso].
  - assert (E1 : 2 * n = (2 * k + 1) * d) by nia.
    assert (E2 : 2 * - n = (2 * j + 1) * d) by nia.
    specialize (Hx1 E1). specialize (Hy1 E2).
    rewrite Hj in Hy1.
    replace (- k - 1) with (- (k + 1)) in Hy1 by lia.
    rewrite Z.even_opp, Z.even_add, Hx1 in Hy1. discriminate Hy1.
  - assert (E1 : 2 * n = (2 * k - 1) * d) by nia.
    assert (E2 : 2 * - n = (2 * j - 1) * d) by nia.
    specialize (Hx2 E1). specialize (Hy2 E2).
    rewrite Hj in Hy2.
    replace (- k + 1) with (- (k - 1)) in Hy2 by lia.
    rewrite Z.even_opp, Z.even_sub, Hx2 in Hy2. discriminate Hy2.
Qed.


(** *** Powers of two *)

Lemma two_nonzero : ~ (2 == 0)%Q.
Proof. discriminate. Qed.

Lemma pow2_pos e : (0 < pow2 e)%Q.
Proof. apply Qpower_0_lt. reflexivity. Qed.

Lemma pow2_add a b : (pow2 (a + b) == pow2 a * pow2 b)%Q.
Proof. apply Qpower_plus, two_nonzero. Qed.

Lemma pow2_le a b : a <= b -> (pow2 a <= pow2 b)%Q.
Proof. intros H. apply Qpower_le_compat_l; [exact H|discriminate]. Qed.

Lemma pow2_lt a b : a < b -> (pow2 a < pow2 b)%Q.
Proof. intros H. apply Qpower_lt_compat_l; [exact H|reflexivity]. Qed.

Lemma pow2_lt_inv a b : (pow2 a < pow2 b)%Q -> a < b.
Proof. intros H. eapply Qpower_lt_compat_l_inv; [exact H|reflexivity]. Qed.

Lemma pow2_inject k : 0 <= k -> (pow2 k == inject_Z (2 ^ k))%Q.
Proof. intros H. unfold pow2. now rewrite Zpower_Qpower. Qed.

(** *** The exponent *)

Lemma Qabs_make x : Qabs x = Z.abs (Qnum x) # Qden x.
Proof. destruct x as [n d]. reflexivity. Qed.

Lemma exponent_spec x :
  ~ (x == 0)%Q ->
  (pow2 (exponent x) <= Qabs x)%Q /\ (Qabs x < pow2 (exponent x + 1))%Q.
Proof.
  intros Hx.
  assert (Hn : 0 < Z.abs (Qnum x)).
  { destruct x as [n d]. unfold Qeq in Hx. cbn in *. lia. }
  set (n := Z.abs (Qnum x)) in *. set (d := Zpos (Qden x)).
  assert (Hd : 0 < d) by (subst d; lia).
  pose proof (Z.log2_spec n Hn) as [Ln Un].
  pose proof (Z.log2_spec d Hd) as [Ld Ud].
  pose proof (Z.log2_nonneg n) as Nn. pose proof (Z.log2_nonneg d) as Nd.
  assert (Habs : (Qabs x == inject_Z n / inject_Z d)%Q).
  { rewrite Qabs_make. apply Qmake_Qdiv. }
  assert (Hdq : (0 < inject_Z d)%Q) by (unfold Qlt; cbn; lia).
  (* bounds that hold whatever the test says *)
  assert (Lower : (pow2 (Z.log2 n - Z.log2 d - 1) <= Qabs x)%Q).
  { rewrite Habs. apply Qle_shift_div_l; [exact Hdq|].
    apply Qle_trans with (pow2 (Z.log2 n - Z.log2 d - 1) * pow2 (Z.log2 d + 1))%Q.
    - apply Qmult_le_l; [apply pow2_pos|].
      rewrite pow2_inject by lia. rewrite <- Zle_Qle.
      rewrite Z.add_1_r. lia.
    - rewrite <- pow2_add.
      replace (Z.log2 n - Z.log2 d - 1 + (Z.log2 d + 1)) with (Z.log2 n) by lia.
      rewrite pow2_inject by lia. now rewrite <- Zle_Qle. }
  assert (Upper : (Qabs x < pow2 (Z.log2 n - Z.log2 d + 1))%Q).
  { rewrite Habs. apply Qlt_shift_div_r; [exact Hdq|].
    apply Qlt_le_trans with (pow2 (Z.log2 n - Z.log2 d + 1) * pow2 (Z.log2 d))%Q.
    - rewrite <- pow2_add.
      replace (Z.log2 n - Z.log2 d + 1 + Z.log2 d) with (Z.succ (Z.log2 n)) by lia.
      rewrite pow2_inject by lia. now rewrite <- Zlt_Qlt.
    - apply Qmult_le_l; [apply pow2_pos|].
      rewrite pow2_inject by lia. now rewrite <- Zle_Qle. }
  unfold exponent. fold n. fold d.
  destruct (Qle_bool (pow2 (Z.log2 n - Z.log2 d)) (Qabs x)) eqn:T.
  - apply Qle_bool_iff in T. split; [exact T|exact Upper].
  - split; [exact Lower|].
    replace (Z.log2 n - Z.log2 d - 1 + 1) with (Z.log2 n - Z.log2 d) by lia.
    apply Qnot_le_lt. intros H. apply Qle_bool_iff in H. congruence.
Qed.


Lemma exponent_mono x y :
  ~ (x == 0)%Q -> ~ (y == 0)%Q -> (Qabs x <= Qabs y)%Q ->
  exponent x <= exponent y.
Proof.
  intros Hx Hy Hxy.
  destruct (exponent_spec x Hx) as [Lx _].
  destruct (exponent_spec y Hy) as [_ Uy].
  destruct (Z_le_gt_dec (exponent x) (exponent y)) as [|Hgt]; [assumption|].
  exfalso. apply (Qlt_irrefl (Qabs y)).
  eapply Qlt_le_trans; [exact Uy|].
  eapply Qle_trans; [|exact Hxy].
  eapply Qle_trans; [|exact Lx]. apply pow2_le. lia.
Qed.

Lemma exponent_opp x : exponent (- x) = exponent x.
Proof.
  unfold exponent. rewrite !Qabs_make. cbn [Qopp Qnum Qden].
  now rewrite Z.abs_opp.
Qed.

(** *** Rounding on a fixed grid *)

Lemma rne_Qeq x y : (x == y)%Q -> rne x = rne y.
Proof.
  intros H. apply Z.le_antisymm; apply rne_mono; rewrite H; apply Qle_refl.
Qed.

Lemma on_grid_mono E x y : (x <= y)%Q -> (on_grid E x <= on_grid E y)%Q.
Proof.
  intros H. unfold on_grid.
  apply Qmult_le_compat_r; [|apply Qlt_le_weak, pow2_pos].
  rewrite <- Zle_Qle. apply rne_mono.
  apply Qmult_le_compat_r; [exact H|].
  apply Qinv_le_0_compat, Qlt_le_weak, pow2_pos.
Qed.

Lemma on_grid_le E x c :
  (x <= inject_Z c * pow2 E)%Q -> (on_grid E x <= inject_Z c * pow2 E)%Q.
Proof.
  intros H. unfold on_grid.
  apply Qmult_le_compat_r; [|apply Qlt_le_weak, pow2_pos].
  rewrite <- Zle_Qle. apply rne_le_integer.
  apply Qle_shift_div_r; [apply pow2_pos|exact H].
Qed.

Lemma on_grid_ge E x c :
  (inject_Z c * pow2 E <= x)%Q -> (inject_Z c * pow2 E <= on_grid E x)%Q.
Proof.
  intros H. unfold on_grid.
  apply Qmult_le_compat_r; [|apply Qlt_le_weak, pow2_pos].
  rewrite <- Zle_Qle. apply rne_ge_integer.
  apply Qle_shift_div_l; [apply pow2_pos|exact H].
Qed.

Lemma on_grid_opp E x : (on_grid E (- x) == - on_grid E x)%Q.
Proof.
  unfold on_grid.
  assert (H : rne (- x / pow2 E) = - rne (x / pow2 E)).
  { rewrite <- rne_opp. apply rne_Qeq. field.
    intros H0. pose proof (pow2_pos E) as P. rewrite H0 in P.
    exact (Qlt_irrefl _ P). }
  rewrite H, inject_Z_opp. ring.
Qed.

(** *** The nearest float *)

Lemma nearest_nonzero x :
  ~ (x == 0)%Q -> nearest x = on_grid (last_place x) x.
Proof.
  intros H. unfold nearest.
  destruct (Qeq_bool x 0) eqn:E; [|reflexivity].
  apply Qeq_bool_iff in E. contradiction.
Qed.

Lemma nearest_zero x : (x == 0)%Q -> nearest x = 0%Q.
Proof.
  intros H. unfold nearest. apply Qeq_bool_iff in H. now rewrite H.
Qed.

Lemma pow2_grid c E : 0 <= c -> (inject_Z (2 ^ c) * pow2 E == pow2 (c + E))%Q.
Proof.
  intros Hc. rewrite <- pow2_inject by exact Hc. symmetry. apply pow2_add.
Qed.

Lemma nearest_mono_pos x y :
  (0 < x)%Q -> (x <= y)%Q -> (nearest x <= nearest y)%Q.
Proof.
  intros Hx Hxy.
  assert (Hy : (0 < y)%Q) by (eapply Qlt_le_trans; eassumption).
  assert (Nx : ~ (x == 0)%Q) by (intros E; rewrite E in Hx; exact (Qlt_irrefl _ Hx)).
  assert (Ny : ~ (y == 0)%Q) by (intros E; rewrite E in Hy; exact (Qlt_irrefl _ Hy)).
  assert (Ax : (Qabs x == x)%Q) by (apply Qabs_pos, Qlt_le_weak, Hx).
  assert (Ay : (Qabs y == y)%Q) by (apply Qabs_pos, Qlt_le_weak, Hy).
  rewrite (nearest_nonzero x Nx), (nearest_nonzero y Ny).
  pose proof (exponent_mono x y Nx Ny ltac:(rewrite Ax, Ay; exact Hxy)) as Hexp.
  destruct (exponent_spec x Nx) as [_ Ux]. rewrite Ax in Ux.
  destruct (exponent_spec y Ny) as [Ly _]. rewrite Ay in Ly.
  unfold last_place, prec.
  destruct (Z.eq_dec (Z.max (exponent x) emin) (Z.max (exponent y) emin)) as [E|Hne].
  { rewrite E. apply on_grid_mono, Hxy. }
  assert (Hlt : Z.max (exponent x) emin < exponent y) by lia.
  assert (Hmy : Z.max (exponent y) emin = exponent y) by lia.
  rewrite Hmy.
  set (Ex := Z.max (exponent x) emin - (53 - 1)).
  set (Ey := exponent y - (53 - 1)).
  apply Qle_trans with (inject_Z (2 ^ 53) * pow2 Ex)%Q.
  { apply on_grid_le. rewrite pow2_grid by lia.
    apply Qlt_le_weak. eapply Qlt_le_trans; [exact Ux|].
    apply pow2_le. subst Ex. lia. }
  apply Qle_trans with (inject_Z (2 ^ 52) * pow2 Ey)%Q.
  { rewrite !pow2_grid by lia. apply pow2_le. subst Ex Ey. lia. }
  apply on_grid_ge. rewrite pow2_grid by lia.
  replace (52 + Ey) with (exponent y) by (subst Ey; lia). exact Ly.
Qed.

Lemma nearest_nonneg x : (0 <= x)%Q -> (0 <= nearest x)%Q.
Proof.
  intros H. destruct (Qeq_dec x 0) as [E|N].
  - rewrite (nearest_zero x E). apply Qle_refl.
  - rewrite (nearest_nonzero x N). unfold on_grid.
    apply Qmult_le_0_compat; [|apply Qlt_le_weak, pow2_pos].
    change 0%Q with (inject_Z 0). rewrite <- Zle_Qle. apply rne_ge_integer.
    apply Qle_shift_div_l; [apply pow2_pos|].
    change (inject_Z 0) with 0%Q. rewrite Qmult_0_l. exact H.
Qed.

Lemma last_place_opp x : last_place (- x) = last_place x.
Proof. unfold last_place. now rewrite exponent_opp. Qed.

Lemma nearest_opp x : (nearest (- x) == - nearest x)%Q.
Proof.
  destruct (Qeq_dec x 0) as [E|N].
  - rewrite (nearest_zero x E), (nearest_zero (- x)); [reflexivity|].
    rewrite E. reflexivity.
  - assert (N' : ~ (- x == 0)%Q).
    { intros H. apply N. rewrite <- (Qopp_involutive x), H. reflexivity. }
    rewrite (nearest_nonzero x N), (nearest_nonzero (- x) N'), last_place_opp.
    apply on_grid_opp.
Qed.

Lemma nearest_as_opp x : (nearest x == - nearest (- x))%Q.
Proof. rewrite nearest_opp. symmetry. apply Qopp_involutive. Qed.

Lemma nearest_nonpos x : (x <= 0)%Q -> (nearest x <= 0)%Q.
Proof.
  intros H. rewrite nearest_as_opp.
  change 0%Q with (- 0)%Q. apply Qopp_le_compat, nearest_nonneg.
  change 0%Q with (- 0)%Q. apply Qopp_le_compat. exact H.
Qed.

(** Rounding to nearest preserves the order. *)
Lemma nearest_mono x y : (x <= y)%Q -> (nearest x <= nearest y)%Q.
Proof.
  intros Hxy.
  destruct (Qlt_le_dec 0 x) as [Hx|Hx]; [now apply nearest_mono_pos|].
  destruct (Qlt_le_dec y 0) as [Hy|Hy].
  - rewrite (nearest_as_opp x), (nearest_as_opp y).
    apply Qopp_le_compat, nearest_mono_pos.
    + change 0%Q with (- 0)%Q. apply Qopp_lt_compat. exact Hy.
    + apply Qopp_le_compat. exact Hxy.
  - apply Qle_trans with 0%Q; [now apply nearest_nonpos|now apply nearest_nonneg].
Qed.

Lemma nearest_Qeq x y : (x == y)%Q -> (nearest x == nearest y)%Q.
Proof.
  intros H. apply Qle_antisym; apply nearest_mono; rewrite H; apply Qle_refl.
Qed.

End Rounding.

(** ** Progress estimate *)

Section Progress.

Import PyFloat.

Lemma int_of_nonneg x : (0 <= x)%Q -> Py.int_of x = Qfloor x.
Proof.
  destruct x as [n d]. unfold Qle, Py.int_of, Qfloor. simpl. intros H.
  apply Z.quot_div_nonneg; lia.
Qed.

Lemma int_of_nonpos x : (x <= 0)%Q -> Py.int_of x <= 0.
Proof.
  destruct x as [n d]. unfold Qle, Py.int_of. simpl. intros H.
  change 0 with (Z.quot 0 (Z.pos d)). apply Z.quot_le_mono; lia.
Qed.

Lemma Qfloor_nonpos x : (x <= 0)%Q -> Qfloor x <= 0.
Proof. intros H. apply Qfloor_resp_le in H. exact H. Qed.

(** [int(...)] and the floor give the same estimate: they differ only below
    zero, where the floor at 5 applies. *)
Lemma clamp_int_floor x :
  Z.max 5 (Z.min (Py.int_of x) 99) = Z.max 5 (Z.min (Qfloor x) 99).
Proof.
  destruct (Qlt_le_dec x 0) as [Hneg|Hpos].
  - apply Qlt_le_weak in Hneg.
    pose proof (int_of_nonpos _ Hneg). pose proof (Qfloor_nonpos _ Hneg). lia.
  - rewrite (int_of_nonneg _ Hpos). reflexivity.
Qed.

(** The code and the specification compute the same estimate, and raise the
    same exceptions. *)
Lemma current_progress_estimate elapsed total :
  current_progress elapsed total = estimate elapsed total.
Proof.
  unfold current_progress, simulated_progress, estimate, then_.
  destruct (truediv elapsed total) as [e|ratio]; [reflexivity|].
  destruct (mul ratio (Finite 100)) as [x|s|]; cbn [int floor];
    try reflexivity.
  now rewrite clamp_int_floor.
Qed.

Lemma current_progress_range elapsed total p :
  current_progress elapsed total = inr p -> 5 <= p <= 99.
Proof.
  unfold current_progress, simulated_progress, then_.
  destruct (truediv elapsed total) as [e|ratio]; [discriminate|].
  destruct (int (mul ratio (Finite 100))) as [e|n]; [discriminate|].
  intros H. injection H as <-. lia.
Qed.

Lemma round_finite x y : round x = Finite y -> y = nearest x.
Proof.
  unfold round. destruct (Qle_bool _ _); [discriminate|].
  intros H. now injection H as <-.
Qed.

Lemma of_int_finite n t : of_int n = inr t -> t = nearest (inject_Z n).
Proof.
  unfold of_int. destruct (round (inject_Z n)) as [x|s|] eqn:E;
    try discriminate.
  intros H. injection H as <-. now apply round_finite.
Qed.

Lemma is_zero_false x : is_zero x = false <-> ~ (x == 0)%Q.
Proof.
  unfold is_zero. rewrite <- Qeq_bool_iff.
  destruct (Qeq_bool x 0); split; congruence.
Qed.

(** What an estimate that is not an exception has computed: both roundings
    gave finite floats. *)
Lemma current_progress_finite elapsed total p :
  current_progress elapsed total = inr p ->
  exists a t,
    elapsed = Finite a /\ of_int total = inr t /\ ~ (t == 0)%Q
    /\ round (a / t) = Finite (nearest (a / t))
    /\ round (nearest (a / t) * 100)
       = Finite (nearest (nearest (a / t) * 100))
    /\ p = Z.max 5 (Z.min (Qfloor (nearest (nearest (a / t) * 100))) 99).
Proof.
  rewrite current_progress_estimate. unfold estimate, truediv, then_.
  destruct (of_int total) as [e|t]; [discriminate|].
  destruct (is_zero t) eqn:Ez; [discriminate|].
  apply is_zero_false in Ez.
  destruct elapsed as [a|s|]; cbn [div mul floor];
    try (destruct (is_zero 100); discriminate).
  destruct (round (a / t)) as [q|s|] eqn:Eq; cbn [mul floor];
    try (destruct (is_zero 100); discriminate).
  pose proof (round_finite _ _ Eq) as ->.
  destruct (round (nearest (a / t) * 100)) as [x|s|] eqn:Ex; cbn [floor];
    try discriminate.
  pose proof (round_finite _ _ Ex) as ->.
  intros H. injection H as <-. exists a, t. auto 10.
Qed.

Lemma quotient_nonpos a t : (0 <= a)%Q -> (t < 0)%Q -> (a / t <= 0)%Q.
Proof.
  destruct a as [an ad], t as [tn td]. unfold Qle, Qlt, Qdiv, Qmult, Qinv.
  cbn. intros Ha Ht. destruct tn as [|tp|tp]; cbn; try lia.
Qed.

(** The clamped percentage grows with the elapsed time. *)
Lemma clamped_mono a1 a2 t :
  (0 <= a1)%Q -> (a1 <= a2)%Q -> ~ (t == 0)%Q ->
  Z.max 5 (Z.min (Qfloor (nearest (nearest (a1 / t) * 100))) 99)
  <= Z.max 5 (Z.min (Qfloor (nearest (nearest (a2 / t) * 100))) 99).
Proof.
  intros H0 H12 Ht.
  destruct (Qlt_le_dec 0 t) as [Hpos|Hnp].
  - assert (H : (nearest (nearest (a1 / t) * 100)
                 <= nearest (nearest (a2 / t) * 100))%Q).
    { apply nearest_mono. apply Qmult_le_compat_r; [|discriminate].
      apply nearest_mono. apply Qmult_le_compat_r; [exact H12|].
      apply Qinv_le_0_compat, Qlt_le_weak, Hpos. }
    apply Qfloor_resp_le in H. lia.
  - assert (Hneg : (t < 0)%Q).
    { apply Qle_lt_or_eq in Hnp as [H|H]; [exact H|contradiction]. }
    assert (H2 : (0 <= a2)%Q) by (eapply Qle_trans; eassumption).
    assert (Hn : forall a, (0 <= a)%Q ->
                   Qfloor (nearest (nearest (a / t) * 100)) <= 0).
    { intros a Ha. apply Qfloor_nonpos, nearest_nonpos.
      rewrite <- (Qmult_0_l 100).
      apply Qmult_le_compat_r; [|discriminate].
      apply nearest_nonpos, quotient_nonpos; assumption. }
    pose proof (Hn a1 H0). pose proof (Hn a2 H2). lia.
Qed.

(** A finite difference of two readings of the clock. *)
Lemma elapsed_finite c1 c0 a :
  sub (round c1) (round c0) = Finite a ->
  a = nearest (nearest c1 - nearest c0).
Proof.
  destruct (round c1) as [r1|s1|] eqn:E1, (round c0) as [r0|s0|] eqn:E0;
    cbn [sub]; try discriminate.
  - intros H. apply round_finite in E1, E0, H. now subst.
  - destruct (Bool.eqb s1 s0); discriminate.
Qed.

(** From one poll to the next the estimate does not decrease, the clock
    being monotonic. *)
Lemma current_progress_mono c0 c1 c2 total p1 p2 :
  (c0 <= c1)%Q -> (c1 <= c2)%Q ->
  current_progress (sub (round c1) (round c0)) total = inr p1 ->
  current_progress (sub (round c2) (round c0)) total = inr p2 ->
  p1 <= p2.
Proof.
  intros H01 H12 E1 E2.
  destruct (current_progress_finite _ _ _ E1)
    as (a1 & t1 & Ea1 & Et1 & Ht1 & _ & _ & ->).
  destruct (current_progress_finite _ _ _ E2)
    as (a2 & t2 & Ea2 & Et2 & Ht2 & _ & _ & ->).
  assert (t2 = t1) by congruence. subst t2.
  apply elapsed_finite in Ea1, Ea2. subst a1 a2.
  apply clamped_mono; [| |exact Ht1].
  - apply nearest_nonneg. apply -> Qle_minus_iff. apply nearest_mono, H01.
  - apply nearest_mono. unfold Qminus.
    apply Qplus_le_compat; [|apply Qle_refl]. apply nearest_mono, H12.
Qed.

(** *** Accuracy

    The estimate computed in floats is within one of the estimate computed
    exactly. *)

Lemma nearest_multiple y c :
  ~ (y == 0)%Q -> (y == inject_Z c * pow2 (last_place y))%Q ->
  (nearest y == y)%Q.
Proof.
  intros Hy E. rewrite (nearest_nonzero y Hy). unfold on_grid.
  assert (H : rne (y / pow2 (last_place y)) = c).
  { rewrite <- (rne_inject c). apply rne_Qeq. rewrite E at 1.
    field. intros H0. pose proof (pow2_pos (last_place y)) as P.
    rewrite H0 in P. exact (Qlt_irrefl _ P). }
  rewrite H. symmetry. exact E.
Qed.

(** An integer below [2^53] in magnitude is a float. *)
Lemma nearest_integer n :
  Z.abs n < 2 ^ 53 -> (nearest (inject_Z n) == inject_Z n)%Q.
Proof.
  intros Hn. destruct (Z.eq_dec n 0) as [->|Hz]; [reflexivity|].
  assert (N : ~ (inject_Z n == 0)%Q).
  { unfold Qeq. cbn. lia. }
  destruct (exponent_spec _ N) as [L _].
  assert (A : (Qabs (inject_Z n) == inject_Z (Z.abs n))%Q) by reflexivity.
  assert (He : exponent (inject_Z n) < 53).
  { apply pow2_lt_inv. eapply Qle_lt_trans; [exact L|].
    rewrite A, pow2_inject by lia. now rewrite <- Zlt_Qlt. }
  set (E := last_place (inject_Z n)).
  assert (HE : E <= 0) by (subst E; unfold last_place, emin, prec; lia).
  apply (nearest_multiple _ (n * 2 ^ (- E)) N). fold E.
  rewrite inject_Z_mult, <- pow2_inject by lia.
  rewrite <- Qmult_assoc, <- pow2_add.
  replace (- E + E) with 0 by lia. unfold pow2. cbn. ring.
Qed.

Lemma of_int_exact n t :
  Z.abs n < 2 ^ 53 -> of_int n = inr t -> (t == inject_Z n)%Q.
Proof.
  intros Hn H. rewrite (of_int_finite _ _ H). now apply nearest_integer.
Qed.

Lemma at_hundredths_near m :
  0 <= m <= 100 -> m - 1 <= at_hundredths m <= m.
Proof.
  intros Hm.
  assert (Hall : forallb (fun i => let m := Z.of_nat i in
                            (m - 1 <=? at_hundredths m)
                            && (at_hundredths m <=? m))
                   (seq 0 101) = true) by (vm_compute; reflexivity).
  rewrite forallb_forall in Hall.
  specialize (Hall (Z.to_nat m)). cbv zeta in Hall.
  rewrite Z2Nat.id in Hall by lia.
  assert (Hin : In (Z.to_nat m) (seq 0 101)) by (apply in_seq; lia).
  apply Hall, andb_true_iff in Hin as [H1 H2]. lia.
Qed.

Lemma clamped_accuracy y :
  Z.max 5 (Z.min (Qfloor (y * 100)) 99) - 1
  <= Z.max 5 (Z.min (Qfloor (nearest (nearest y * 100))) 99)
  <= Z.max 5 (Z.min (Qfloor (y * 100)) 99) + 1.
Proof.
  destruct (Qlt_le_dec y 0) as [Hneg|Hpos].
  { apply Qlt_le_weak in Hneg.
    assert (H1 : Qfloor (y * 100) <= 0).
    { apply Qfloor_nonpos. rewrite <- (Qmult_0_l 100).
      apply Qmult_le_compat_r; [exact Hneg|discriminate]. }
    assert (H2 : Qfloor (nearest (nearest y * 100)) <= 0).
    { apply Qfloor_nonpos, nearest_nonpos. rewrite <- (Qmult_0_l 100).
      apply Qmult_le_compat_r; [now apply nearest_nonpos|discriminate]. }
    lia. }
  destruct (Qlt_le_dec y 1) as [Hlt|Hge].
  2:{ assert (H1 : 100 <= Qfloor (y * 100)).
      { change 100 with (Qfloor (1 * 100)). apply Qfloor_resp_le.
        apply Qmult_le_compat_r; [exact Hge|discriminate]. }
      assert (H2 : 100 <= Qfloor (nearest (nearest y * 100))).
      { change 100 with (at_hundredths 100) at 1.
        apply Qfloor_resp_le, nearest_mono.
        apply Qmult_le_compat_r; [|discriminate].
        apply nearest_mono. eapply Qle_trans; [|exact Hge]. discriminate. }
      lia. }
  set (m := Qfloor (y * 100)).
  assert (Hm0 : 0 <= m).
  { change 0 with (Qfloor 0). apply Qfloor_resp_le.
    apply Qmult_le_0_compat; [exact Hpos|discriminate]. }
  assert (Hm1 : m < 100).
  { assert (H : (y * 100 < inject_Z 100)%Q).
    { change (inject_Z 100) with (1 * 100)%Q.
      apply Qmult_lt_compat_r; [reflexivity|exact Hlt]. }
    pose proof (Qfloor_le (y * 100)) as F. fold m in F.
    rewrite Zlt_Qlt. eapply Qle_lt_trans; eassumption. }
  assert (Lo : (inject_Z m / 100 <= y)%Q).
  { apply Qle_shift_div_r; [reflexivity|]. apply Qfloor_le. }
  assert (Hi : (y <= inject_Z (m + 1) / 100)%Q).
  { apply Qle_shift_div_l; [reflexivity|].
    apply Qlt_le_weak. apply Qlt_floor. }
  assert (L : at_hundredths m <= Qfloor (nearest (nearest y * 100))).
  { apply Qfloor_resp_le, nearest_mono.
    apply Qmult_le_compat_r; [|discriminate]. apply nearest_mono, Lo. }
  assert (U : Qfloor (nearest (nearest y * 100)) <= at_hundredths (m + 1)).
  { apply Qfloor_resp_le, nearest_mono.
    apply Qmult_le_compat_r; [|discriminate]. apply nearest_mono, Hi. }
  pose proof (at_hundredths_near m ltac:(lia)).
  pose proof (at_hundredths_near (m + 1) ltac:(lia)).
  lia.
Qed.

(** For a total below [2^53] in magnitude, which the division converts
    exactly, the estimate is within one of [exact_estimate]. *)
Lemma current_progress_accuracy a total p :
  Z.abs total < 2 ^ 53 ->
  current_progress (Finite a) total = inr p ->
  exact_estimate a total - 1 <= p <= exact_estimate a total + 1.
Proof.
  intros Ht H.
  destruct (current_progress_finite _ _ _ H)
    as (a' & t & Ea & Et & Hz & _ & _ & ->).
  injection Ea as <-.
  pose proof (of_int_exact _ _ Ht Et) as E.
  unfold exact_estimate.
  assert (Eq : Qfloor (a / inject_Z total * 100) = Qfloor (a / t * 100)).
  { apply Qfloor_comp. rewrite E. reflexivity. }
  rewrite Eq. apply clamped_accuracy.
Qed.

End Progress.

(** ** The upload and the local disk *)

Section Upload.

Context (self : Agent) (w : World).

Implicit Types (path bucket blob mime : Py.str) (video_bytes : Py.bytes)
  (faults : UploadFaults).

Lemma remove_if_exists_delete path (fs : FS) :
  remove_if_exists path fs = delete path fs.
Proof.
  unfold remove_if_exists. destruct (fs !! path) eqn:E; [reflexivity|].
  symmetry. apply delete_id. exact E.
Qed.

(** Whatever the [try] did to the disk, it only touched the temporary path. *)
Lemma write_and_upload_frame faults path video_bytes (fs : FS) :
  delete path (fst (write_and_upload faults path video_bytes fs)) = delete path fs.
Proof.
  unfold write_and_upload.
  destruct (open_fails faults); [reflexivity|].
  destruct (write_fails faults) as [[n e]|]; cbn [fst].
  - apply delete_insert_eq.
  - destruct (upload_fails faults); cbn [fst]; apply delete_insert_eq.
Qed.

Lemma upload_disk video_bytes bucket blob mime (fs : FS) :
  storage_client self = true -> w_bucket w bucket = None ->
  fst (_upload_bytes_to_gcs self w video_bytes bucket blob mime fs)
  = delete (temp_file_path w blob) fs.
Proof.
  intros Hc Hb. unfold _upload_bytes_to_gcs. rewrite Hc, Hb.
  pose proof (write_and_upload_frame (w_faults w) (temp_file_path w blob)
                video_bytes fs) as F.
  destruct (write_and_upload _ _ _ _) as [fs' [e|[]]]; cbn [fst] in *;
    rewrite remove_if_exists_delete; exact F.
Qed.

(** An exception of [bucket()] leaves the function before its [try]. *)
Lemma upload_without_bucket video_bytes bucket blob mime (fs : FS) e :
  storage_client self = true -> w_bucket w bucket = Some e ->
  _upload_bytes_to_gcs self w video_bytes bucket blob mime fs = (fs, inl e).
Proof.
  intros Hc Hb. unfold _upload_bytes_to_gcs. now rewrite Hc, Hb.
Qed.

Lemma upload_result video_bytes bucket blob mime (fs : FS) u :
  snd (_upload_bytes_to_gcs self w video_bytes bucket blob mime fs) = inr u ->
  u = gs_uri bucket blob /\ storage_client self = true
  /\ w_bucket w bucket = None.
Proof.
  unfold _upload_bytes_to_gcs. destruct (storage_client self); [|discriminate].
  destruct (w_bucket w bucket); [discriminate|].
  destruct (write_and_upload _ _ _ _) as [fs' [e|[]]]; cbn [snd];
    intros H; [discriminate|]. injection H as <-. auto.
Qed.


End Upload.

(** ** The generator *)

Section Generator.

Context (self : Agent) (w : World) (prompt session_id : Py.str).

Lemma events_app t1 t2 : events (t1 ++ t2) = events t1 ++ events t2.
Proof. unfold events. apply flat_map_app. Qed.

Lemma calls_app t1 t2 : calls (t1 ++ t2) = calls t1 ++ calls t2.
Proof. unfold calls. apply flat_map_app. Qed.

Lemma events_Ev e t : events (Ev e :: t) = e :: events t.
Proof. reflexivity. Qed.

Lemma events_Do c t : events (Do c :: t) = events t.
Proof. reflexivity. Qed.

(** What follows the loop yields nothing before an exception and exactly one
    terminal event otherwise. *)
Lemma finish_events op s :
  match finish self w prompt session_id op s with
  | (t, s', o) =>
      same_locals s s'
      /\ match o with
         | Exc _ => closing (events t) false
         | Susp => False
         | _ => closing (events t) true
         end
  end.
Proof.
  unfold finish, deliver, explain_empty, do_upload, do_sign.
  branch; (split; [split; reflexivity|]); cbn;
    try reflexivity; eexists; repeat split; reflexivity.
Qed.

(** *** One turn of the polling loop *)

Lemma poll_loop_turn fuel k op s d :
  op_done op = Has d -> done_truthy d = false ->
  poll_loop self w session_id (S fuel) k op s =
    match w_poll w k with
    | inl e => ([sleep self; Do (CPoll op)], s, Exc e)
    | inr polled =>
        match accepted polled with
        | None =>
            ([sleep self; Do (CPoll op); Ev (api_issue session_id s polled)],
             s, Ret)
        | Some n =>
            let s1 := adopt_name n s in
            match progress_at self w k with
            | inl e => ([sleep self; Do (CPoll op)], s1, Exc e)
            | inr p =>
                match poll_loop self w session_id fuel (S k) polled s1 with
                | (t, s', o) =>
                    (sleep self :: Do (CPoll op)
                       :: Ev (in_progress p s1) :: t, s', o)
                end
            end
        end
    end.
Proof.
  intros Hd Hn. simpl poll_loop. rewrite Hd, Hn.
  unfold accepted, progress_at, elapsed_at.
  branch; reflexivity.
Qed.

Lemma poll_loop_done fuel k op s d :
  op_done op = Has d -> done_truthy d = true ->
  poll_loop self w session_id fuel k op s = ([], s, Val op).
Proof. intros Hd Hn. destruct fuel; simpl; rewrite Hd, Hn; reflexivity. Qed.

Lemma poll_loop_invalid fuel k op s :
  op_done op = Missing ->
  poll_loop self w session_id fuel k op s =
    ([], s, Exc (not_operation session_id op)).
Proof. intros Hd. destruct fuel; simpl; rewrite Hd; reflexivity. Qed.

Lemma poll_loop_out k op s d :
  op_done op = Has d -> done_truthy d = false ->
  poll_loop self w session_id O k op s = ([], s, Susp).
Proof. intros Hd Hn. simpl. rewrite Hd, Hn. reflexivity. Qed.

(** Every run of [poll_loop] is a run of the relation. *)
Lemma poll_loop_polling fuel : forall k op s,
  Polling self w session_id k op s (poll_loop self w session_id fuel k op s).
Proof.
  induction fuel as [|fuel IH]; intros k op s.
  - destruct (op_done op) as [|d] eqn:Hd.
    + rewrite poll_loop_invalid by assumption. now constructor.
    + destruct (done_truthy d) eqn:Hn.
      * erewrite poll_loop_done by eassumption. econstructor; eassumption.
      * erewrite poll_loop_out by eassumption. econstructor; eassumption.
  - destruct (op_done op) as [|d] eqn:Hd.
    + rewrite poll_loop_invalid by assumption. now constructor.
    + destruct (done_truthy d) eqn:Hn.
      * erewrite poll_loop_done by eassumption. econstructor; eassumption.
      * erewrite poll_loop_turn by eassumption.
        destruct (w_poll w k) as [e|polled] eqn:Hp.
        { econstructor; eassumption. }
        destruct (accepted polled) as [n|] eqn:Ha.
        2:{ econstructor; eassumption. }
        cbv zeta.
        destruct (progress_at self w k) as [x|p] eqn:Hz.
        { econstructor; eassumption. }
        specialize (IH (S k) polled (adopt_name n s)).
        destruct (poll_loop self w session_id fuel (S k) polled (adopt_name n s))
          as [[t s'] o].
        econstructor; eassumption.
Qed.

Lemma adopt_name_kicked n s :
  operation_kicked_off (adopt_name n s) = operation_kicked_off s.
Proof. destruct n as [[|c n]|]; reflexivity. Qed.

Lemma adopt_name_disk n s : disk (adopt_name n s) = disk s.
Proof. destruct n as [[|c n]|]; reflexivity. Qed.

Lemma polling_shows k op s r :
  Polling self w session_id k op s r -> loop_shows self w k s r.
Proof.
  induction 1; cbn.
  1-4, 6: split; [try apply adopt_name_kicked; reflexivity|];
          exists [], []; cbn; auto.
  - split; [reflexivity|]. exists [], [api_issue session_id s polled].
    cbn. repeat split. eexists. repeat split.
  - destruct IHPolling as [Hk (loop & tl & Ht & Hl & Hc)].
    split; [now rewrite Hk, adopt_name_kicked|].
    exists (in_progress pct (adopt_name n s) :: loop), tl.
    split; [|split; [|exact Hc]].
    + cbn [app]. f_equal. exact Ht.
    + split; [eexists _, pct; split; [assumption|reflexivity] | exact Hl].
Qed.

Lemma polling_calls k op s r :
  Polling self w session_id k op s r -> loop_calls r.
Proof.
  induction 1; cbn; repeat constructor. exact IHPolling.
Qed.

Lemma polling_leaves k op s r :
  Polling self w session_id k op s r -> loop_leaves w k op r.
Proof.
  induction 1; cbn; auto.
  - split; [eauto|]. now left.
  - destruct o; auto. destruct IHPolling as [Hd [->|(j & m & Hj & Hw & Ha)]].
    + split; [exact Hd|]. right. exists k, n. auto.
    + split; [exact Hd|]. right. exists j, m. split; [lia|]. auto.
Qed.

(** *** After the loop *)



(** The finaliser is called at most once, and only for an operation without
    error that carries a payload. *)
Lemma finish_calls op s :
  match finish self w prompt session_id op s with
  | (t, s', o) =>
      calls t = []
      \/ exists vb mime,
           payload op = Some (vb, mime) /\ op_error op = Has None
           /\ hasattr (op_name op) = true
           /\ (calls t = [the_upload self w session_id vb mime]
               \/ calls t = [the_upload self w session_id vb mime;
                             the_signing self
                               (gs_uri (gcs_bucket_name self)
                                  (gcs_blob_name session_id (w_uuid w) mime))])
  end.
Proof.
  set (P := payload op).
  unfold finish, deliver, explain_empty, do_upload, do_sign.
  branch; try (left; reflexivity); right; subst P; unfold payload;
    repeat match goal with
           | H : ?x = _ |- context [match ?x with _ => _ end] => rewrite H
           end;
    eexists _, _; (split; [reflexivity|]); (split; [reflexivity|]);
    (split; [reflexivity|]); cbn [calls flat_map app];
    try (left; reflexivity).
  all: match goal with
       | H : _upload_bytes_to_gcs _ _ _ _ _ _ _ = (_, inr ?u) |- _ =>
           let R := fresh in
           pose proof (upload_result self w _ _ _ _ _ u
                         ltac:(rewrite H; reflexivity)) as [R _];
           try discriminate R; rewrite <- R
       end.
  all: right; reflexivity.
Qed.



(** For a path-safe task id the name that is signed is the name that was
    uploaded. *)
Lemma signed_name_is_blob bucket mime :
  path_safe session_id = true -> uuid_text (w_uuid w) = true ->
  Py.replace (gs_prefix bucket) []
    (gs_uri bucket (gcs_blob_name session_id (w_uuid w) mime))
  = gcs_blob_name session_id (w_uuid w) mime.
Proof.
  intros Hs Hu. rewrite gs_uri_prefix.
  apply replace_prefix; [apply gs_prefix_nonempty|].
  rewrite gcs_blob_name_slashes by now apply uuid_text_no_slash.
  unfold path_safe in Hs. apply negb_true_iff, has_slash_slashes in Hs.
  pose proof (gs_prefix_slashes bucket). lia.
Qed.

(** Without a payload the event after the loop, if any, is a Failed one. *)
Lemma finish_without_payload op s :
  payload op = None ->
  match finish self w prompt session_id op s with
  | (t, _, Exc _) => True
  | (t, _, Susp) => False
  | (t, _, _) => exists t0 c f, t = t0 ++ [Ev (failed c f)]
  end.
Proof.
  set (P := payload op).
  unfold finish, deliver, explain_empty, do_upload, do_sign.
  branch; try (intros _; exact I);
    subst P; unfold payload;
    repeat match goal with
           | H : ?x = _ |- context [match ?x with _ => _ end] => rewrite H
           end;
    intros Hp; try discriminate Hp;
    first [ eexists [], _, _; reflexivity
          | eexists [_], _, _; reflexivity
          | eexists [_; _], _, _; reflexivity ].
Qed.

(** With no video in the response, what follows the loop is the explanation
    of the empty result (lines 335-355). *)
Lemma finish_no_videos op s n d response :
  op_name op = Has n -> op_done op = Has d -> op_error op = Has None ->
  op_response op = Has response ->
  match response with
  | None => True
  | Some r => generated_videos r = Has None \/ generated_videos r = Has (Some [])
  end ->
  finish self w prompt session_id op s = explain_empty response s.
Proof.
  intros Hn Hd He Hr Hv. unfold finish. rewrite Hn, Hd, He, Hr.
  destruct response as [r|]; [|reflexivity].
  destruct Hv as [Hv|Hv]; gen_unfold; rewrite Hv; cbv beta iota zeta;
    destruct (explain_empty (Some r) s) as [[t s'] o]; reflexivity.
Qed.

(** *** The whole [try] block *)

Lemma start_operation_run s :
  start_operation w prompt s =
    match w_start w with
    | inl e => ([Do (CStart prompt)], s, Exc e)
    | inr op =>
        ([Do (CStart prompt); Ev (started (started_frame op s))],
         started_frame op s, Val op)
    end.
Proof.
  unfold start_operation, started, started_frame.
  branch; rewrite ?adopt_name_disk; reflexivity.
Qed.

Lemma try_block_run fuel s :
  try_block self w prompt session_id fuel s =
    match w_start w with
    | inl e => ([Do (CStart prompt)], s, Exc e)
    | inr op0 =>
        let s1 := started_frame op0 s in
        match poll_loop self w session_id fuel O op0 s1 with
        | (t1, s2, Val op) =>
            match finish self w prompt session_id op s2 with
            | (t2, s3, o) =>
                (Do (CStart prompt) :: Ev (started s1) :: t1 ++ t2, s3, o)
            end
        | (t1, s2, Exc e) =>
            (Do (CStart prompt) :: Ev (started s1) :: t1, s2, Exc e)
        | (t1, s2, Ret) =>
            (Do (CStart prompt) :: Ev (started s1) :: t1, s2, Ret)
        | (t1, s2, Susp) =>
            (Do (CStart prompt) :: Ev (started s1) :: t1, s2, Susp)
        end
    end.
Proof.
  unfold try_block, await_operation.
  unfold bind at 1 2. rewrite start_operation_run.
  destruct (w_start w) as [e|op0]; [reflexivity|]. cbv zeta.
  destruct (poll_loop self w session_id fuel O op0 (started_frame op0 s))
    as [[t1 s2] [op|e| |]]; reflexivity.
Qed.

(** The events of a run: the acknowledgement at 0 percent, the start notice
    at 5 percent, the polling estimates, and one terminal event exactly when
    the run has ended. *)
Lemma stream_events fuel fs :
  exists pre loop tl,
    events (trace (stream self w prompt session_id fuel fs)) =
      working (msg_received prompt) 0 :: pre ++ loop ++ tl
    /\ (pre = [] /\ loop = [] \/ exists n, pre = [working (msg_started n) 5])
    /\ polling_events self w O loop
    /\ closing tl (finished (stream self w prompt session_id fuel fs)).
Proof.
  unfold stream. rewrite try_block_run.
  destruct (w_start w) as [e|op0].
  { exists [], [], [unexpected session_id (entry fs) e]. cbn.
    repeat split; auto. eexists. repeat split. }
  cbv zeta. set (s1 := started_frame op0 (entry fs)).
  pose proof (polling_shows _ _ _ _ (poll_loop_polling fuel O op0 s1)) as L.
  destruct (poll_loop self w session_id fuel O op0 s1) as [[t1 s2] o1].
  destruct L as [_ (loop & tl & Ht & Hl & Hc)].
  destruct o1 as [op|e| |]; cbn [closing] in Hc.
  - subst tl. rewrite app_nil_r in Ht.
    pose proof (finish_events op s2) as F.
    destruct (finish self w prompt session_id op s2) as [[t2 s3] o].
    destruct F as [_ F].
    destruct o as [[]|e| |]; cbn [trace finished closing app] in *;
      try contradiction; repeat first [rewrite events_Ev | rewrite events_Do | rewrite events_app].
    + destruct F as (e & Fe & F1 & F2).
      exists [started s1], loop, [e]. rewrite Ht, Fe.
      repeat split; eauto.
    + exists [started s1], loop, [unexpected session_id s3 e].
      rewrite Ht, F, app_nil_r. repeat split; eauto.
    + destruct F as (e & Fe & F1 & F2).
      exists [started s1], loop, [e]. rewrite Ht, Fe.
      repeat split; eauto.
  - subst tl. rewrite app_nil_r in Ht. cbn [trace finished closing app].
    repeat first [rewrite events_Ev | rewrite events_Do | rewrite events_app].
    exists [started s1], loop, [unexpected session_id s2 e].
    rewrite Ht. repeat split; eauto.
  - cbn [trace finished closing app].
    repeat first [rewrite events_Ev | rewrite events_Do | rewrite events_app].
    exists [started s1], loop, tl. rewrite Ht.
    repeat split; eauto.
  - subst tl. rewrite app_nil_r in Ht. cbn [trace finished closing app].
    repeat first [rewrite events_Ev | rewrite events_Do | rewrite events_app].
    exists [started s1], loop, []. rewrite Ht, app_nil_r.
    repeat split; eauto.
Qed.

(** *** Calls of a run *)

Lemma calls_In c t : In (Do c) t <-> In c (calls t).
Proof.
  unfold calls. rewrite in_flat_map. split.
  - intros H. exists (Do c). split; [exact H|now left].
  - intros ([e|c'] & H & Hc); [destruct Hc|].
    destruct Hc as [->|[]]. exact H.
Qed.

Lemma finalizer_calls_app t1 t2 :
  finalizer_calls (t1 ++ t2) = finalizer_calls t1 ++ finalizer_calls t2.
Proof. unfold finalizer_calls. now rewrite calls_app, List.filter_app. Qed.

Lemma finalizer_calls_none t :
  Forall (fun c => is_finalizer c = false) (calls t) -> finalizer_calls t = [].
Proof.
  unfold finalizer_calls. induction 1 as [|c l Hc _ IH]; [reflexivity|].
  cbn. rewrite Hc. exact IH.
Qed.

Lemma await_operation_run fuel s :
  await_operation self w prompt session_id fuel s =
    match w_start w with
    | inl e => ([Do (CStart prompt)], s, Exc e)
    | inr op0 =>
        let s1 := started_frame op0 s in
        match poll_loop self w session_id fuel O op0 s1 with
        | (t1, s2, o) =>
            (Do (CStart prompt) :: Ev (started s1) :: t1, s2, o)
        end
    end.
Proof.
  unfold await_operation. unfold bind at 1. rewrite start_operation_run.
  destruct (w_start w) as [e|op0]; [reflexivity|]. cbv zeta.
  destruct (poll_loop self w session_id fuel O op0 (started_frame op0 s))
    as [[t1 s2] [op|e| |]]; reflexivity.
Qed.

(** Starting and polling never reach the finaliser, and leave normally only
    with an operation that is done. *)
Lemma await_operation_quiet fuel s :
  match await_operation self w prompt session_id fuel s with
  | (t, _, o) =>
      finalizer_calls t = []
      /\ match o with
         | Val op => exists d, op_done op = Has d /\ done_truthy d = true
         | _ => True
         end
  end.
Proof.
  rewrite await_operation_run.
  destruct (w_start w) as [e|op0]; [split; [reflexivity|exact I]|]. cbv zeta.
  pose proof (poll_loop_polling fuel O op0 (started_frame op0 s)) as L.
  pose proof (polling_calls _ _ _ _ L) as C.
  pose proof (polling_leaves _ _ _ _ L) as V.
  destruct (poll_loop self w session_id fuel O op0 (started_frame op0 s))
    as [[t1 s2] o]. cbn in C, V. split.
  - change (Do (CStart prompt) :: Ev (started (started_frame op0 s)) :: t1)
      with ([Do (CStart prompt); Ev (started (started_frame op0 s))] ++ t1).
    rewrite finalizer_calls_app, (finalizer_calls_none _ C). reflexivity.
  - destruct o; auto. apply V.
Qed.

Lemma try_block_await fuel s :
  try_block self w prompt session_id fuel s =
    match await_operation self w prompt session_id fuel s with
    | (t1, s2, Val op) =>
        match finish self w prompt session_id op s2 with
        | (t2, s3, o) => (t1 ++ t2, s3, o)
        end
    | (t1, s2, Exc e) => (t1, s2, Exc e)
    | (t1, s2, Ret) => (t1, s2, Ret)
    | (t1, s2, Susp) => (t1, s2, Susp)
    end.
Proof. reflexivity. Qed.

(** The trace of a run in terms of the trace of its [try] block. *)
Lemma stream_trace fuel fs :
  exists tl,
    trace (stream self w prompt session_id fuel fs) =
      Ev (working (msg_received prompt) 0)
      :: fst (fst (try_block self w prompt session_id fuel (entry fs))) ++ tl
    /\ calls tl = [].
Proof.
  unfold stream.
  destruct (try_block self w prompt session_id fuel (entry fs))
    as [[t s] [[]|e| |]]; cbn [trace fst];
    try (exists []; rewrite app_nil_r; split; reflexivity).
  eexists. split; reflexivity.
Qed.

(** A run calls the finaliser at most once: not at all, or one upload
    possibly followed by one signing request, and then for the operation
    with which the loop was left, which is done, has no error and carries the
    uploaded payload. *)
Lemma stream_finalizer fuel fs :
  finalizer_calls (trace (stream self w prompt session_id fuel fs)) = []
  \/ exists op vb mime,
       completed_operation self w prompt session_id fuel fs = Some op
       /\ (exists d, op_done op = Has d /\ done_truthy d = true)
       /\ op_error op = Has None
       /\ hasattr (op_name op) = true
       /\ payload op = Some (vb, mime)
       /\ (finalizer_calls (trace (stream self w prompt session_id fuel fs))
             = [the_upload self w session_id vb mime]
           \/ finalizer_calls (trace (stream self w prompt session_id fuel fs))
             = [the_upload self w session_id vb mime;
                the_signing self
                  (gs_uri (gcs_bucket_name self)
                     (gcs_blob_name session_id (w_uuid w) mime))]).
Proof.
  destruct (stream_trace fuel fs) as (tl & -> & Htl).
  assert (Hfin : forall t, finalizer_calls (Ev (working (msg_received prompt) 0)
                                           :: t ++ tl) = finalizer_calls t).
  { intros t. change (Ev ?e :: t ++ tl) with ([Ev e] ++ t ++ tl).
    rewrite !finalizer_calls_app. unfold finalizer_calls at 1 3.
    rewrite Htl. cbn. now rewrite app_nil_r. }
  rewrite !Hfin, try_block_await. unfold completed_operation.
  pose proof (await_operation_quiet fuel (entry fs)) as Q.
  destruct (await_operation self w prompt session_id fuel (entry fs))
    as [[t1 s2] [op|e| |]]; destruct Q as [Q1 Q2]; cbn [fst];
    try (left; exact Q1).
  pose proof (finish_calls op s2) as F.
  destruct (finish self w prompt session_id op s2) as [[t2 s3] o]. cbn [fst].
  rewrite finalizer_calls_app, Q1. cbn [app].
  destruct F as [F|(vb & mime & Hp & He & Hn & F)].
  - left. unfold finalizer_calls. now rewrite F.
  - right. exists op, vb, mime. repeat (split; [assumption || reflexivity|]).
    unfold finalizer_calls. destruct F as [-> | ->]; [left|right]; reflexivity.
Qed.

(** *** Polls of a run *)

Lemma polls_app t1 t2 : polls (t1 ++ t2) = polls t1 ++ polls t2.
Proof. unfold polls. now rewrite calls_app, List.filter_app. Qed.

Lemma polling_polls k op s r :
  Polling self w session_id k op s r -> loop_polls w session_id k r.
Proof.
  induction 1; cbn [loop_polls].
  1-3: split; [intros j Hj; cbn in Hj; lia | intros j p Hj; discriminate Hj].
  - split; [intros j Hj; cbn in Hj; lia|].
    intros j p Hj Hp. cbn in Hj. injection Hj as <-.
    rewrite Nat.add_0_r in Hp. congruence.
  - split; [intros j Hj; cbn in Hj; lia|].
    intros j p Hj Hp Ha. cbn in Hj. injection Hj as <-.
    rewrite Nat.add_0_r in Hp. split; [reflexivity|].
    assert (p = polled) by congruence. subst p.
    exists [sleep self; Do (CPoll op)], s. reflexivity.
  - split; [intros j Hj; cbn in Hj; lia|].
    intros j p Hj Hp Ha. cbn in Hj. injection Hj as <-.
    rewrite Nat.add_0_r in Hp. congruence.
  - destruct IHPolling as [IH1 IH2].
    assert (Hpolls : polls (sleep self :: Do (CPoll op)
                              :: Ev (in_progress pct (adopt_name n s)) :: t)
                     = CPoll op :: polls t) by reflexivity.
    rewrite Hpolls. cbn [length]. split.
    + intros [|j] Hj.
      * rewrite Nat.add_0_r. eauto.
      * replace (k + S j)%nat with (S k + j)%nat by lia. apply IH1. lia.
    + intros j p Hj Hp Ha. injection Hj as Hj.
      destruct j as [|j].
      * rewrite Nat.add_0_r in Hp. congruence.
      * replace (k + S j)%nat with (S k + j)%nat in Hp by lia.
        destruct (IH2 j p Hj Hp Ha) as [-> (t0 & s0 & ->)].
        split; [reflexivity|].
        exists (sleep self :: Do (CPoll op)
                  :: Ev (in_progress pct (adopt_name n s)) :: t0), s0.
        reflexivity.
Qed.

Lemma finish_polls op s :
  polls (fst (fst (finish self w prompt session_id op s))) = [].
Proof.
  pose proof (finish_calls op s) as F.
  destruct (finish self w prompt session_id op s) as [[t s'] o]. cbn [fst].
  unfold polls.
  destruct F as [->|(vb & mime & _ & _ & _ & [->| ->])]; reflexivity.
Qed.

(** The polls of a run are those of its polling loop; when the loop returns,
    the run ends with what the loop yielded last. *)
Lemma stream_polls fuel fs :
  match w_start w with
  | inl _ => polls (trace (stream self w prompt session_id fuel fs)) = []
  | inr op0 =>
      match poll_loop self w session_id fuel O op0
              (started_frame op0 (entry fs)) with
      | (t1, _, o) =>
          polls (trace (stream self w prompt session_id fuel fs)) = polls t1
          /\ (o = Ret ->
              finished (stream self w prompt session_id fuel fs) = true
              /\ trace (stream self w prompt session_id fuel fs) =
                   Ev (working (msg_received prompt) 0)
                   :: Do (CStart prompt)
                   :: Ev (started (started_frame op0 (entry fs))) :: t1)
      end
  end.
Proof.
  unfold stream. rewrite try_block_run.
  destruct (w_start w) as [e|op0]; [reflexivity|]. cbv zeta.
  destruct (poll_loop self w session_id fuel O op0 (started_frame op0 (entry fs)))
    as [[t1 s2] [op|e| |]].
  - pose proof (finish_polls op s2) as F.
    destruct (finish self w prompt session_id op s2) as [[t2 s3] o].
    cbn [fst] in F. split; [|discriminate].
    destruct o as [[]|e| |]; cbn [trace];
      change (Ev ?a :: Do ?b :: Ev ?c :: t1 ++ t2)
        with ([Ev a; Do b; Ev c] ++ t1 ++ t2);
      change (Ev ?a :: (Do ?b :: Ev ?c :: t1 ++ t2) ++ ?l)
        with ([Ev a; Do b; Ev c] ++ (t1 ++ t2) ++ l);
      rewrite !polls_app, F, ?app_nil_r; reflexivity.
  - split; [|discriminate]. cbn [trace].
    change (Ev ?a :: (Do ?b :: Ev ?c :: t1) ++ ?l)
      with ([Ev a; Do b; Ev c] ++ t1 ++ l).
    rewrite !polls_app. cbn. now rewrite app_nil_r.
  - split; [reflexivity|]. intros _. split; reflexivity.
  - split; [reflexivity|discriminate].
Qed.


(** A run left with an operation that carries no payload never ends with a
    Completed event: its last event is a Failed one. *)
Lemma stream_without_payload fuel fs op :
  completed_operation self w prompt session_id fuel fs = Some op ->
  payload op = None ->
  finished (stream self w prompt session_id fuel fs) = true
  /\ exists t c f, trace (stream self w prompt session_id fuel fs) =
                     t ++ [Ev (failed c f)].
Proof.
  intros Hop Hp. unfold completed_operation in Hop.
  destruct (await_operation self w prompt session_id fuel (entry fs))
    as [[t1 s2] [op'| | |]] eqn:A; try discriminate. injection Hop as ->.
  unfold stream. rewrite try_block_await, A.
  pose proof (finish_without_payload op s2 Hp) as F.
  destruct (finish self w prompt session_id op s2) as [[t2 s3] [[]|e| |]];
    cbn [trace finished]; try contradiction.
  - destruct F as (t0 & c & f & ->). split; [reflexivity|].
    exists (Ev (working (msg_received prompt) 0) :: t1 ++ t0), c, f.
    cbn [app]. now rewrite <- app_assoc.
  - split; [reflexivity|]. eexists (_ :: _), _, _. reflexivity.
  - destruct F as (t0 & c & f & ->). split; [reflexivity|].
    exists (Ev (working (msg_received prompt) 0) :: t1 ++ t0), c, f.
    cbn [app]. now rewrite <- app_assoc.
Qed.

(** *** Events by position *)

Lemma closing_In tl b e :
  closing tl b -> In e tl ->
  is_task_complete e = true /\ progress_percent e = 100.
Proof.
  destruct b; cbn; [intros (x & -> & H1 & H2) [<-|[]]; auto | intros -> []].
Qed.

Lemma polling_events_nth loop : forall k i e,
  polling_events self w k loop -> nth_error loop i = Some e ->
  exists n p,
    progress_at self w (k + i) = inr p
    /\ e = working (msg_in_progress n p) p.
Proof.
  induction loop as [|x loop IH]; intros k [|i] e H E; try discriminate;
    cbn in H, E; destruct H as [(n & p & Hp & Hn) H].
  - injection E as <-. rewrite Nat.add_0_r. eauto.
  - replace (k + S i)%nat with (S k + i)%nat by lia. eauto.
Qed.

(** A non-terminal event is the acknowledgement in position 0, the start
    notice in position 1, or the estimate after poll [k] in position
    [k + 2]. *)
Lemma stream_nth fuel fs i e :
  nth_error (events (trace (stream self w prompt session_id fuel fs))) i = Some e ->
  is_task_complete e = false ->
  match i with
  | O => e = working (msg_received prompt) 0
  | S O => exists n, e = working (msg_started n) 5
  | S (S k) =>
      exists n p,
        progress_at self w k = inr p
        /\ e = working (msg_in_progress n p) p
  end.
Proof.
  destruct (stream_events fuel fs) as (pre & loop & tl & -> & Hpre & Hl & Hc).
  intros E Hnt.
  assert (Htl : forall j, nth_error tl j = Some e -> False).
  { intros j Hj. apply nth_error_In in Hj.
    destruct (closing_In _ _ _ Hc Hj). congruence. }
  destruct i as [|i]; cbn in E; [congruence|].
  destruct Hpre as [[-> ->]|[n ->]]; cbn in E.
  - exfalso. eauto.
  - destruct i as [|k]; cbn in E; [injection E as <-; eauto|].
    rewrite nth_error_app in E.
    destruct (Nat.ltb_spec k (length loop)).
    + apply (polling_events_nth _ O k e Hl E).
    + exfalso. eauto.
Qed.

(** *** Termination of the polling loop *)

Lemma poll_loop_settles n : forall k fuel op s,
  settles (w_poll w (k + n)) = true -> (n < fuel)%nat ->
  snd (poll_loop self w session_id fuel k op s) <> Susp.
Proof.
  induction n as [|n IH]; intros k fuel op s Hs Hf;
    (destruct fuel as [|fuel]; [lia|]);
    (destruct (op_done op) as [|d] eqn:Hd;
       [rewrite poll_loop_invalid by assumption; discriminate|]);
    (destruct (done_truthy d) eqn:Hn;
       [erewrite poll_loop_done by eassumption; discriminate|]);
    erewrite poll_loop_turn by eassumption;
    (destruct (w_poll w k) as [e|polled] eqn:Hp; [discriminate|]);
    (destruct (accepted polled) as [nm|] eqn:Ha; [|discriminate]);
    cbv zeta;
    (destruct (progress_at self w k) as [x|pct]; [discriminate|]).
  - rewrite Nat.add_0_r, Hp in Hs. unfold settles, accepted in Hs, Ha.
    destruct (op_done polled) as [|d'] eqn:Hd'; [discriminate|].
    destruct (op_name polled); [discriminate|].
    erewrite poll_loop_done by eassumption. discriminate.
  - specialize (IH (S k) fuel polled (adopt_name nm s)).
    replace (k + S n)%nat with (S k + n)%nat in Hs by lia.
    specialize (IH Hs ltac:(lia)).
    destruct (poll_loop self w session_id fuel (S k) polled (adopt_name nm s))
      as [[t s'] o]. exact IH.
Qed.

Lemma stream_finishes k fuel fs :
  settles (w_poll w k) = true -> (k < fuel)%nat ->
  finished (stream self w prompt session_id fuel fs) = true.
Proof.
  intros Hs Hf. unfold stream. rewrite try_block_run.
  destruct (w_start w) as [e|op0]; [reflexivity|]. cbv zeta.
  pose proof (poll_loop_settles k O fuel op0 (started_frame op0 (entry fs)) Hs Hf)
    as L.
  destruct (poll_loop self w session_id fuel O op0 (started_frame op0 (entry fs)))
    as [[t1 s2] [op|e| |]]; try reflexivity; [|now cbn in L].
  pose proof (finish_events op s2) as F.
  destruct (finish self w prompt session_id op s2) as [[t2 s3] [[]|e| |]];
    try reflexivity. destruct F as [_ []].
Qed.

End Generator.

(** * The claims *)

Section Claims.

Context (self : Agent) (w : World) (prompt session_id : Py.str).

Lemma polling_events_In k loop e :
  polling_events self w k loop -> In e loop -> is_task_complete e = false.
Proof.
  intros H Hin. apply In_nth_error in Hin as [i Hi].
  destruct (polling_events_nth self w _ _ _ _ H Hi) as (n & p & _ & ->).
  reflexivity.
Qed.

Lemma stream_terminal_100 fuel fs e :
  In e (events (trace (stream self w prompt session_id fuel fs))) ->
  is_task_complete e = true -> progress_percent e = 100.
Proof.
  destruct (stream_events self w prompt session_id fuel fs)
    as (pre & loop & tl & -> & Hpre & Hl & Hc).
  intros [<-|Hin] Ht; [discriminate|].
  apply in_app_or in Hin as [Hin|Hin].
  { destruct Hpre as [[-> _]|[n ->]]; [destruct Hin|].
    destruct Hin as [<-|[]]. discriminate. }
  apply in_app_or in Hin as [Hin|Hin].
  { rewrite (polling_events_In _ _ _ Hl Hin) in Ht. discriminate. }
  apply (closing_In _ _ _ Hc Hin).
Qed.

(** A run that has ended shows one terminal event, in last position. *)
Lemma stream_ends_once fuel fs :
  finished (stream self w prompt session_id fuel fs) = true ->
  exists evs e,
    events (trace (stream self w prompt session_id fuel fs)) = evs ++ [e]
    /\ is_task_complete e = true
    /\ Forall (fun x => is_task_complete x = false) evs.
Proof.
  intros Hf.
  destruct (stream_events self w prompt session_id fuel fs)
    as (pre & loop & tl & E & Hpre & Hl & Hc).
  rewrite Hf in Hc. destruct Hc as (e & -> & He & _).
  exists (working (msg_received prompt) 0 :: pre ++ loop), e.
  split; [rewrite E; cbn [app]; now rewrite app_assoc|]. split; [exact He|].
  constructor; [reflexivity|]. apply Forall_app. split.
  - destruct Hpre as [[-> _]|[n ->]]; repeat constructor.
  - apply List.Forall_forall. intros x Hx. eapply polling_events_In; eassumption.
Qed.

(** The last event of a run that has ended. *)
Lemma stream_last_event fuel fs t e :
  trace (stream self w prompt session_id fuel fs) = t ++ [Ev e] ->
  finished (stream self w prompt session_id fuel fs) = true ->
  exists evs,
    events (trace (stream self w prompt session_id fuel fs)) = evs ++ [e]
    /\ Forall (fun x => is_task_complete x = false) evs.
Proof.
  intros Ht Hf. destruct (stream_ends_once fuel fs Hf) as (evs & e' & E & _ & Hq).
  exists evs. split; [|exact Hq]. rewrite E. f_equal. f_equal.
  rewrite Ht, events_app in E.
  change (events [Ev e]) with [e] in E.
  apply app_inj_tail in E as [_ E]. now symmetry.
Qed.

(** C1. Every run of [stream] that has ended shows exactly one terminal event,
    and it is the last one; this covers the runs in which an exception
    reaches the top-level handler, which turns it into one Failed terminal
    event; and a run ends as soon as a poll answers with a finished
    operation, an unusable object or an exception. *)
Theorem stream_exactly_one_terminal_event :
  (forall fuel fs,
     finished (stream self w prompt session_id fuel fs) = true ->
     exists evs e,
       events (trace (stream self w prompt session_id fuel fs)) = evs ++ [e]
       /\ is_task_complete e = true
       /\ Forall (fun x => is_task_complete x = false) evs)
  /\ (forall fuel fs t s x,
        try_block self w prompt session_id fuel (entry fs) = (t, s, Exc x) ->
        finished (stream self w prompt session_id fuel fs) = true
        /\ is_error (unexpected session_id s x) = Some true
        /\ exists evs,
             events (trace (stream self w prompt session_id fuel fs))
             = evs ++ [unexpected session_id s x]
             /\ Forall (fun x => is_task_complete x = false) evs)
  /\ (forall k fuel fs,
        settles (w_poll w k) = true -> (k < fuel)%nat ->
        finished (stream self w prompt session_id fuel fs) = true).
Proof.
  pose proof stream_ends_once as One.
  split; [exact One|]. split.
  - intros fuel fs t s x Hx.
    assert (Hrun : stream self w prompt session_id fuel fs =
              {| trace := Ev (working (msg_received prompt) 0)
                          :: t ++ [Ev (unexpected session_id s x)];
                 finished := true; final_disk := disk s |})
      by (unfold stream; now rewrite Hx).
    split; [now rewrite Hrun|]. split; [reflexivity|].
    destruct (One fuel fs ltac:(now rewrite Hrun)) as (evs & e & E & _ & Hq).
    exists evs. split; [|exact Hq].
    rewrite E. f_equal. f_equal.
    rewrite Hrun in E. cbn [trace] in E.
    rewrite events_Ev, events_app in E.
    change (events [Ev (unexpected session_id s x)])
      with [unexpected session_id s x] in E.
    rewrite app_comm_cons in E.
    apply app_inj_tail in E as [_ E]. now symmetry.
  - intros k fuel fs. apply stream_finishes.
Qed.

(** C2. In every run the first event is non-terminal at 0 percent, the
    percentage never decreases from one non-terminal event to the next
    (the clock being monotonic), and every terminal event is at 100. *)
Theorem stream_progress_non_decreasing fuel fs :
  monotonic (w_clock w) ->
  (exists e0, nth_error (events (trace (stream self w prompt session_id fuel fs))) 0 = Some e0
              /\ is_task_complete e0 = false /\ progress_percent e0 = 0)
  /\ (forall i a b,
        nth_error (events (trace (stream self w prompt session_id fuel fs))) i = Some a ->
        nth_error (events (trace (stream self w prompt session_id fuel fs))) (S i) = Some b ->
        is_task_complete a = false -> is_task_complete b = false ->
        progress_percent a <= progress_percent b)
  /\ (forall e, In e (events (trace (stream self w prompt session_id fuel fs))) ->
                is_task_complete e = true -> progress_percent e = 100).
Proof.
  intros Hclock. split; [|split].
  - destruct (stream_events self w prompt session_id fuel fs)
      as (pre & loop & tl & -> & _). eexists. repeat split.
  - intros i a b Ha Hb Na Nb.
    pose proof (stream_nth self w prompt session_id fuel fs _ _ Ha Na) as Pa.
    pose proof (stream_nth self w prompt session_id fuel fs _ _ Hb Nb) as Pb.
    destruct i as [|[|k]].
    + subst a. destruct Pb as [n ->]. cbn. lia.
    + destruct Pa as [n ->]. destruct Pb as (m & p & Hp & ->). cbn.
      apply (current_progress_range _ _ _ Hp).
    + destruct Pa as (n & p & Hp & ->). destruct Pb as (m & q & Hq & ->). cbn.
      unfold progress_at, elapsed_at, time_monotonic in Hp, Hq.
      apply (current_progress_mono _ _ _ _ _ _
               (Hclock O (S k) ltac:(lia)) (Hclock (S k) (S (S k)) ltac:(lia))
               Hp Hq).
  - intros e. apply stream_terminal_100.
Qed.

(** C7. The estimate shown by the polling event after poll [k] is
    [max(5, min(floor(elapsed/total*100), 99))], where the elapsed time, the
    quotient and the product are floats, each the nearest float to the exact
    result, as Python computes them.  It lies within 5..99, it is within one
    of the value that the formula has in exact arithmetic, and only terminal
    events show 100. *)
Theorem polling_progress_estimate fuel fs :
  (forall elapsed total,
     current_progress elapsed total = estimate elapsed total)
  /\ (forall a total p,
        current_progress (PyFloat.Finite a) total = inr p ->
        5 <= p <= 99
        /\ (exists t,
              PyFloat.of_int total = inr t /\ ~ (t == 0)%Q
              /\ p = Z.max 5
                       (Z.min
                          (Qfloor (PyFloat.nearest (PyFloat.nearest (a / t) * 100)))
                          99))
        /\ (Z.abs total < 2 ^ 53 ->
            Z.max 5 (Z.min (Qfloor (a / inject_Z total * 100)) 99) - 1 <= p
            /\ p <= Z.max 5 (Z.min (Qfloor (a / inject_Z total * 100)) 99) + 1))
  /\ (forall k e,
        nth_error (events (trace (stream self w prompt session_id fuel fs))) (2 + k) = Some e ->
        is_task_complete e = false ->
        estimate
          (PyFloat.sub (PyFloat.round (w_clock w (S k)))
             (PyFloat.round (w_clock w 0)))
          (VEO_SIMULATED_TOTAL_GENERATION_TIME_SECONDS self)
        = inr (progress_percent e)
        /\ 5 <= progress_percent e <= 99)
  /\ (forall e, In e (events (trace (stream self w prompt session_id fuel fs))) ->
                progress_percent e = 100 -> is_task_complete e = true).
Proof.
  split; [|split; [|split]].
  - apply current_progress_estimate.
  - intros a total p H. split; [apply (current_progress_range _ _ _ H)|].
    split.
    + destruct (current_progress_finite _ _ _ H)
        as (a' & t & Ea & Et & Hz & _ & _ & Hp).
      injection Ea as <-. exists t. repeat split; assumption.
    + intros Ht.
      apply (current_progress_accuracy a total p Ht H).
  - intros k e He Hn.
    destruct (stream_nth self w prompt session_id fuel fs _ _ He Hn)
      as (n & p & Hp & ->).
    cbn [progress_percent working]. split.
    + rewrite <- current_progress_estimate. exact Hp.
    + apply (current_progress_range _ _ _ Hp).
  - intros e Hin H100. destruct (is_task_complete e) eqn:Ht; [reflexivity|].
    apply In_nth_error in Hin as [i Hi].
    pose proof (stream_nth self w prompt session_id fuel fs _ _ Hi Ht) as P.
    destruct i as [|[|k]].
    + subst e. discriminate.
    + destruct P as [n ->]. discriminate.
    + destruct P as (n & p & Hp & ->). cbn in H100.
      pose proof (current_progress_range _ _ _ Hp). lia.
Qed.

(** C9. Whatever happens while the bytes are written and uploaded (each of
    [open], [write] and the upload may raise), on return the temporary file
    is gone and no other file has changed; when [bucket()] raises, which it
    does before the [try], or the storage client is missing, the function
    raises before touching the disk, so that no temporary file has been
    created. *)
Theorem upload_leaves_no_temp_file (video_bytes : Py.bytes)
    (bucket blob mime : Py.str) (fs : FS) :
  match _upload_bytes_to_gcs self w video_bytes bucket blob mime fs with
  | (fs', r) =>
      if storage_client self
      then match w_bucket w bucket with
           | None => fs' !! temp_file_path w blob = None
           | Some e => fs' = fs /\ r = inl e
           end
           /\ (fs !! temp_file_path w blob = None ->
               fs' !! temp_file_path w blob = None)
           /\ (forall p, p <> temp_file_path w blob -> fs' !! p = fs !! p)
           /\ (forall u, r = inr u -> u = gs_uri bucket blob)
      else fs' = fs /\ exists e, r = inl e
  end.
Proof.
  pose proof (upload_disk self w video_bytes bucket blob mime fs) as D.
  pose proof (upload_result self w video_bytes bucket blob mime fs) as R.
  pose proof (upload_without_bucket self w video_bytes bucket blob mime fs) as E.
  destruct (_upload_bytes_to_gcs self w video_bytes bucket blob mime fs)
    as [fs' r] eqn:U. cbn [fst snd] in *.
  destruct (storage_client self) eqn:Hc.
  - destruct (w_bucket w bucket) as [e|] eqn:Hb.
    + specialize (E e eq_refl eq_refl). injection E as -> ->.
      split; [split; reflexivity|]. split; [auto|]. split; [reflexivity|].
      discriminate.
    + rewrite (D eq_refl eq_refl). split; [apply lookup_delete_eq|].
      split; [intros _; apply lookup_delete_eq|]. split.
      * intros p Hp. apply lookup_delete_ne. congruence.
      * intros u Hu. apply (R u Hu).
  - unfold _upload_bytes_to_gcs in U. rewrite Hc in U.
    injection U as <- <-. eauto.
Qed.

Lemma accepted_None polled :
  accepted polled = None <->
  hasattr (op_done polled) && hasattr (op_name polled) = false.
Proof.
  unfold accepted. destruct (op_done polled), (op_name polled); cbn;
    split; congruence.
Qed.

(** An answer without [done] or without [name] to a poll of the run ends the
    run with the event of line 230; that poll is the last one. *)
Lemma stream_unexpected_poll fuel fs k c polled :
  nth_error (polls (trace (stream self w prompt session_id fuel fs))) k = Some c ->
  w_poll w k = inr polled -> accepted polled = None ->
  finished (stream self w prompt session_id fuel fs) = true
  /\ length (polls (trace (stream self w prompt session_id fuel fs))) = S k
  /\ exists t0 name,
       trace (stream self w prompt session_id fuel fs) =
         t0 ++ [Ev (polling_issue (msg_unexpected_poll session_id name polled)
                      msg_polling_issue)].
Proof.
  intros Hk Hp Ha.
  pose proof (stream_polls self w prompt session_id fuel fs) as S.
  destruct (w_start w) as [e|op0]; [rewrite S in Hk; destruct k; discriminate|].
  pose proof (polling_polls self w session_id _ _ _ _
                (poll_loop_polling self w session_id fuel O op0
                   (started_frame op0 (entry fs)))) as P.
  destruct (poll_loop self w session_id fuel O op0 (started_frame op0 (entry fs)))
    as [[t1 s2] o]. destruct S as [S1 S2]. destruct P as [P1 P2].
  rewrite S1 in *.
  assert (Hlt : (k < length (polls t1))%nat)
    by (apply nth_error_Some; congruence).
  assert (Hlen : length (polls t1) = S k).
  { destruct (Nat.eq_dec (length (polls t1)) (S k)) as [|Hne]; [assumption|].
    destruct (P1 k ltac:(lia)) as (p & n & Hp' & Ha').
    cbn in Hp'. congruence. }
  destruct (P2 k polled Hlen Hp Ha) as [-> (t0 & s0 & ->)].
  destruct (S2 eq_refl) as [Hf Ht]. split; [exact Hf|]. split; [exact Hlen|].
  rewrite Ht. eexists (_ :: _ :: _ :: t0), _. reflexivity.
Qed.

(** C10. A poll answer that has [done] but no [name] ends the stream with the
    polling-issue terminal event, and no poll follows; a start response
    without [name] is not treated that way: the start notice says N/A and,
    the operation not being done, polling begins; and a further poll is made
    only after an answer that had both fields. *)
Theorem nameless_poll_answer_ends_stream fuel fs :
  (forall k c polled,
     nth_error (polls (trace (stream self w prompt session_id fuel fs))) k = Some c ->
     w_poll w k = inr polled ->
     hasattr (op_done polled) = true -> hasattr (op_name polled) = false ->
     finished (stream self w prompt session_id fuel fs) = true
     /\ length (polls (trace (stream self w prompt session_id fuel fs))) = S k
     /\ exists t0 name,
          trace (stream self w prompt session_id fuel fs) =
            t0 ++ [Ev (polling_issue
                         (msg_unexpected_poll session_id name polled)
                         msg_polling_issue)])
  /\ (forall op,
        w_start w = inr op -> hasattr (op_name op) = false ->
        exists rest,
          trace (stream self w prompt session_id fuel fs) =
            Ev (working (msg_received prompt) 0) :: Do (CStart prompt)
            :: Ev (working (msg_started (Py.lit "N/A")) 5) :: rest
          /\ forall d f,
               op_done op = Has d -> done_truthy d = false -> fuel = S f ->
               exists rest',
                 rest = Do (CSleep (VEO_POLLING_INTERVAL_SECONDS self))
                        :: Do (CPoll op) :: rest')
  /\ (forall k c,
        nth_error (polls (trace (stream self w prompt session_id fuel fs))) (S k) = Some c ->
        exists polled,
          w_poll w k = inr polled
          /\ hasattr (op_done polled) = true
          /\ hasattr (op_name polled) = true).
Proof.
  split; [|split].
  - intros k c polled Hk Hp Hd Hn.
    apply (stream_unexpected_poll fuel fs k c polled Hk Hp).
    apply accepted_None. now rewrite Hd, Hn.
  - intros op Hs Hn.
    destruct (stream_trace self w prompt session_id fuel fs) as (tl & -> & _).
    rewrite try_block_run, Hs. cbv zeta.
    assert (Hname : started (started_frame op (entry fs))
                    = working (msg_started (Py.lit "N/A")) 5).
    { unfold started, started_frame.
      destruct (op_name op); [reflexivity|discriminate]. }
    rewrite Hname.
    destruct (poll_loop self w session_id fuel O op (started_frame op (entry fs)))
      as [[t1 s2] o1] eqn:L.
    assert (Hpre : exists t,
              fst (fst (match o1 with
                        | Val op1 =>
                            match finish self w prompt session_id op1 s2 with
                            | (t2, s3, o) =>
                                (Do (CStart prompt)
                                   :: Ev (working (msg_started (Py.lit "N/A")) 5)
                                   :: t1 ++ t2, s3, o)
                            end
                        | Exc e =>
                            (Do (CStart prompt)
                               :: Ev (working (msg_started (Py.lit "N/A")) 5)
                               :: t1, s2, Exc e)
                        | Ret =>
                            (Do (CStart prompt)
                               :: Ev (working (msg_started (Py.lit "N/A")) 5)
                               :: t1, s2, Ret)
                        | Susp =>
                            (Do (CStart prompt)
                               :: Ev (working (msg_started (Py.lit "N/A")) 5)
                               :: t1, s2, Susp)
                        end))
              = Do (CStart prompt)
                  :: Ev (working (msg_started (Py.lit "N/A")) 5) :: t1 ++ t).
    { destruct o1 as [op1|e| |]; try (exists []; now rewrite app_nil_r).
      destruct (finish self w prompt session_id op1 s2) as [[t2 s3] o].
      exists t2. reflexivity. }
    destruct Hpre as [t ->]. eexists. split; [reflexivity|].
    intros d f Hd Hnd ->.
    rewrite (poll_loop_turn self w session_id f O op _ d Hd Hnd) in L.
    destruct (w_poll w O) as [e|polled];
      [injection L as <- _ _; eexists; reflexivity|].
    destruct (accepted polled) as [n|];
      [|injection L as <- _ _; eexists; reflexivity].
    cbv zeta in L.
    destruct (progress_at self w O) as [x|pct];
      [injection L as <- _ _; eexists; reflexivity|].
    destruct (poll_loop self w session_id f 1 polled _) as [[t' s'] o'].
    injection L as <- _ _. eexists; reflexivity.
  - intros k c Hk.
    pose proof (stream_polls self w prompt session_id fuel fs) as S.
    destruct (w_start w) as [e|op0]; [rewrite S in Hk; discriminate|].
    pose proof (polling_polls self w session_id _ _ _ _
                  (poll_loop_polling self w session_id fuel O op0
                     (started_frame op0 (entry fs)))) as P.
    destruct (poll_loop self w session_id fuel O op0
                (started_frame op0 (entry fs))) as [[t1 s2] o].
    destruct S as [S1 _]. destruct P as [P1 _]. rewrite S1 in Hk.
    assert (Hlt : (S k < length (polls t1))%nat)
      by (apply nth_error_Some; congruence).
    destruct (P1 k Hlt) as (polled & n & Hp & Ha). exists polled.
    split; [exact Hp|]. unfold accepted in Ha.
    destruct (op_done polled), (op_name polled); try discriminate. auto.
Qed.




(** C6. The blob path is [{taskId}/{randomName}.{extFromMime}]: it starts
    with the task id and a slash, its random name holds the fresh uuid, it
    ends with the subtype of the mime type (mp4 for video/mp4); two paths
    built from different task ids or different uuids differ; and every
    upload of a run goes to this path, built from the run's fresh uuid. *)
Theorem blob_path_form_and_uniqueness :
  (forall sid u mime,
     gcs_blob_name sid u mime =
       sid ++ Py.lit "/" ++ (Py.lit "veo_video_" ++ sid ++ Py.lit "_" ++ u)
           ++ Py.lit "." ++ extension mime)
  /\ (forall kind sub,
        Py.has_slash sub = false ->
        extension (kind ++ Py.lit "/" ++ sub) = sub)
  /\ extension (Py.lit "video/mp4") = Py.lit "mp4"
  /\ (forall s1 u1 m1 s2 u2 m2,
        uuid_text u1 = true -> uuid_text u2 = true ->
        s1 <> s2 \/ u1 <> u2 ->
        gcs_blob_name s1 u1 m1 <> gcs_blob_name s2 u2 m2)
  /\ (forall fuel fs (vb : Py.bytes) (bucket blob mime : Py.str),
        In (Do (CUpload vb bucket blob mime)) (trace (stream self w prompt session_id fuel fs)) ->
        bucket = gcs_bucket_name self
        /\ blob = gcs_blob_name session_id (w_uuid w) mime).
Proof.
  split; [reflexivity|]. split; [|split; [reflexivity|split]].
  - intros kind sub Hsub. unfold extension.
    rewrite has_slash_app. change (Py.lit "/" ++ sub) with (Py.slash :: sub).
    cbn [Py.has_slash existsb].
    replace (Py.is_slash Py.slash) with true by reflexivity.
    rewrite orb_true_r. cbn [orb]. now apply last_segment_after_slash.
  - intros s1 u1 m1 s2 u2 m2 U1 U2 Hne E.
    destruct (gcs_blob_name_inj _ _ _ _ _ _ U1 U2 E) as [-> ->].
    destruct Hne as [H|H]; now apply H.
  - intros fuel fs vb bucket blob mime Hin.
    assert (Hf : In (CUpload vb bucket blob mime)
                   (finalizer_calls (trace (stream self w prompt session_id fuel fs))))
      by (apply filter_In; split; [now apply calls_In|reflexivity]).
    destruct (stream_finalizer self w prompt session_id fuel fs)
      as [E|(op & vb' & mime' & _ & _ & _ & _ & _ & Hcalls)].
    { rewrite E in Hf. destruct Hf. }
    destruct Hcalls as [E|E]; rewrite E in Hf;
      [destruct Hf as [H|[]]|destruct Hf as [H|[H|[]]]];
      try discriminate H; injection H as <- <- <- <-; auto.
Qed.

End Claims.

(** * Runs of the scenarios *)

Section Runs.

Import Scenario Cases.

Lemma clock_monotonic : monotonic clock.
Proof.
  intros i j Hij. unfold clock. rewrite <- Zle_Qle. lia.
Qed.

Example happy_run_events :
  map progress_percent (events (trace (stream agent happy prompt task 5 ∅)))
  = [0; 5; 5; 8; 100].
Proof. vm_compute. reflexivity. Qed.

Example happy_run_needs_two_polls :
  finished (stream agent happy prompt task 1 ∅) = false
  /\ finished (stream agent happy prompt task 2 ∅) = true.
Proof. split; vm_compute; reflexivity. Qed.

Lemma stream_exactly_one_terminal_event_witness :
  finished (stream agent happy prompt task 5 ∅) = true
  /\ (exists evs e,
        events (trace (stream agent happy prompt task 5 ∅)) = evs ++ [e]
        /\ is_task_complete e = true
        /\ Forall (fun x => is_task_complete x = false) evs)
  /\ settles (w_poll happy 1) = true.
Proof.
  split; [vm_compute; reflexivity|]. split.
  - apply (proj1 (stream_exactly_one_terminal_event agent happy prompt task) 5%nat ∅).
    vm_compute. reflexivity.
  - reflexivity.
Defined.

Lemma stream_progress_non_decreasing_witness :
  monotonic (w_clock happy)
  /\ exists a b,
       nth_error (events (trace (stream agent happy prompt task 5 ∅))) 2 = Some a
       /\ nth_error (events (trace (stream agent happy prompt task 5 ∅))) 3 = Some b
       /\ progress_percent a <= progress_percent b.
Proof.
  split; [exact clock_monotonic|].
  eexists _, _. split; [vm_compute; reflexivity|].
  split; [vm_compute; reflexivity|].
  apply (proj1 (proj2 (stream_progress_non_decreasing agent happy prompt task
                         5 ∅ clock_monotonic)) 2%nat);
    vm_compute; reflexivity.
Defined.

(** After 29 of 100 seconds the event shows 28 percent, where exact
    arithmetic gives 29: the quotient 29.0/100 is the float just below 0.29. *)
Lemma polling_progress_estimate_witness :
  estimate (PyFloat.sub (PyFloat.round 29) (PyFloat.round 0)) 100 = inr 28
  /\ 5 <= 28 <= 99.
Proof.
  apply (proj1 (proj2 (proj2 (polling_progress_estimate centenary
                                (on_clock every_29 happy) prompt task 5 ∅)))
           O (working (msg_in_progress (Py.lit "operations/veo-1") 28) 28));
    [vm_compute; reflexivity | reflexivity].
Defined.

Example progress_after_29_of_100_seconds :
  current_progress (PyFloat.sub (PyFloat.round 29) (PyFloat.round 0)) 100
  = inr 28
  /\ exact_estimate 29 100 = 29.
Proof. split; vm_compute; reflexivity. Qed.

(** After 9.6 of 120 seconds the event shows 8 percent, where the formula
    gives 7 in exact arithmetic on the float nearest to 9.6. *)
Example progress_after_9_6_of_120_seconds :
  map progress_percent
    (events (trace (stream agent (on_clock every_9_6 happy) prompt task 5 ∅)))
  = [0; 5; 8; 16; 100]
  /\ exact_estimate (PyFloat.nearest (48 # 5)) 120 = 7.
Proof. split; vm_compute; reflexivity. Qed.

(** A total that no float holds: the division raises. *)
Example total_too_large_for_a_float :
  current_progress (PyFloat.Finite 1) (2 ^ 1024)
  = inl (mkExn (Py.lit "OverflowError")
           (Py.lit "int too large to convert to float")).
Proof. vm_compute. reflexivity. Qed.



Lemma blob_path_form_and_uniqueness_witness :
  gcs_blob_name task uuid1 (Py.lit "video/mp4")
  <> gcs_blob_name task uuid2 (Py.lit "video/mp4")
  /\ gcs_blob_name (Py.lit "t1") uuid1 (Py.lit "video/mp4")
     <> gcs_blob_name (Py.lit "t2") uuid1 (Py.lit "video/mp4").
Proof.
  pose proof (blob_path_form_and_uniqueness agent happy prompt task)
    as (_ & _ & _ & U & _).
  split; apply U; try (vm_compute; reflexivity).
  - right. vm_compute. discriminate.
  - left. vm_compute. discriminate.
Defined.

Lemma nameless_poll_answer_ends_stream_witness :
  finished (stream agent nameless_poll prompt task 5 ∅) = true
  /\ length (polls (trace (stream agent nameless_poll prompt task 5 ∅))) = 1%nat
  /\ exists t0 name,
       trace (stream agent nameless_poll prompt task 5 ∅) =
         t0 ++ [Ev (polling_issue (msg_unexpected_poll task name nameless)
                      msg_polling_issue)].
Proof.
  apply (proj1 (nameless_poll_answer_ends_stream agent nameless_poll prompt task 5 ∅)
           O (CPoll pending) nameless).
  - vm_compute. reflexivity.
  - reflexivity.
  - reflexivity.
  - reflexivity.
Defined.


Example failing_run_carries_backend_text :
  map content (events (trace (stream agent failing prompt task 5 ∅)))
  = [None; None; Some (Py.lit "VEO video generation failed: quota exceeded")].
Proof. vm_compute. reflexivity. Qed.

Example filtered_run_joins_reasons :
  List.last
    (map content
       (events (trace (stream agent
                         (world (inr filtered) (answers pending pending)
                            no_faults signs)
                         prompt task 5 ∅))))
    None
  = Some (Py.lit "Video generation was blocked by safety filters. Reasons: violence, celebrity").
Proof. vm_compute. reflexivity. Qed.

Example start_failure_is_reported :
  map (fun e => (is_task_complete e, is_error e, final_message_text e))
    (events (trace (stream agent
                      (world (inl forbidden) (answers pending pending)
                         no_faults signs)
                      prompt task 5 ∅)))
  = [(false, None, None);
     (true, Some true,
      Some (Py.lit "An unexpected error occurred: 403 caller lacks permission"))].
Proof. vm_compute. reflexivity. Qed.

(** A failing upload: the task fails, and the temporary file is gone. *)
Example upload_failure_cleans_up :
  let w := world (inr succeeded) (answers pending pending)
             {| open_fails := None; write_fails := None;
                upload_fails := Some io_error |} signs in
  let r := stream agent w prompt task 5 ∅ in
  List.last (map is_error (events (trace r))) None = Some true
  /\ final_disk r !! temp_file_path w (gcs_blob_name task uuid1 (Py.lit "video/mp4"))
     = None
  /\ temp_file_path w (gcs_blob_name task uuid1 (Py.lit "video/mp4"))
     = Py.lit "/tmp/veo_video_t1_123e4567-e89b-42d3-a456-426614174000.mp4".
Proof. vm_compute. repeat split. Qed.

(** A start response without [name] that is not done: the notices say N/A
    until a poll answer brings a name, and the task completes. *)
Example nameless_start_is_tolerated :
  map (fun e => (is_task_complete e, is_error e, updates e))
    (firstn 3 (events (trace (stream agent nameless_start prompt task 5 ∅))))
  = [(false, None, Some (msg_received prompt));
     (false, None, Some (msg_started (Py.lit "N/A")));
     (false, None, Some (msg_in_progress (Py.lit "operations/veo-1") 5))]
  /\ List.last
       (map (fun e => (is_task_complete e, is_error e,
                       option_map uri (file_part_data e)))
          (events (trace (stream agent nameless_start prompt task 5 ∅))))
       (false, None, None)
     = (true, None,
        Some (Py.lit "https://storage.googleapis.com/videos/t1/veo_video_t1_123e4567-e89b-42d3-a456-426614174000.mp4?X-Goog-Signature=ab12")).
Proof. split; vm_compute; reflexivity. Qed.

(** C3 (the code departs from the claim). When the first poll answers with an
    object that has neither [done] nor [name], the run ends at once and no
    further poll is made, but the terminal event yielded at line 230 holds no
    [is_error] key, unlike every other failure event of [stream]. *)
Theorem shapeless_poll_answer_lacks_error_flag :
  finished (stream agent broken_poll prompt task 5 ∅) = true
  /\ calls (trace (stream agent broken_poll prompt task 5 ∅))
     = [CStart prompt; CSleep 5; CPoll pending]
  /\ exists evs e,
       events (trace (stream agent broken_poll prompt task 5 ∅)) = evs ++ [e]
       /\ e = polling_issue
                (msg_unexpected_poll task (Py.lit "operations/veo-1") shapeless)
                msg_polling_issue
       /\ is_task_complete e = true
       /\ is_error e = None.
Proof.
  split; [vm_compute; reflexivity|]. split; [vm_compute; reflexivity|].
  eexists [_; _], _. split; [vm_compute; reflexivity|].
  split; [vm_compute; reflexivity|]. split; reflexivity.
Qed.


(** C8 (the code departs from the claim). An operation that ends without
    error and with an empty response whose [rai_media_filtered_count] holds
    [None] makes the comparison of line 335 raise: the run ends with the
    Failed event of the top-level handler, not with the message for a result
    without payload and without rejection. *)
Theorem empty_result_with_none_count_raises :
  completed_operation agent empty prompt task 5 ∅ = Some empty_result
  /\ op_error empty_result = Has None
  /\ payload empty_result = None
  /\ finished (stream agent empty prompt task 5 ∅) = true
  /\ exists evs e,
       events (trace (stream agent empty prompt task 5 ∅)) = evs ++ [e]
       /\ is_task_complete e = true
       /\ is_error e = Some true
       /\ content e =
            Some (Py.lit "An error occurred during video generation stream for session_id t1: '>' not supported between instances of 'NoneType' and 'int'. Context: VEO operation name: operations/veo-1")
       /\ content e <> Some msg_no_video.
Proof.
  split; [vm_compute; reflexivity|]. split; [reflexivity|].
  split; [reflexivity|]. split; [vm_compute; reflexivity|].
  eexists [_; _; _], _. split; [vm_compute; reflexivity|].
  split; [reflexivity|]. split; [reflexivity|].
  split; [vm_compute; reflexivity|]. vm_compute. discriminate.
Qed.

End Runs.

(* ================================================================= *)
(** * Further properties *)

(** ** Runs of the generator *)

Section GeneratorRuns.

Context (self : Agent) (w : World) (prompt session_id : Py.str).

Implicit Types (bucket blob mime : Py.str) (video_bytes vb : Py.bytes).

Lemma upload_outcome video_bytes blob mime (fs : FS) :
  _upload_bytes_to_gcs self w video_bytes (gcs_bucket_name self) blob mime fs
  = (disk_after_upload self w blob fs,
     match upload_error self w with
     | Some e => inl e
     | None => inr (gs_uri (gcs_bucket_name self) blob)
     end).
Proof.
  unfold _upload_bytes_to_gcs, upload_error, disk_after_upload, write_and_upload.
  destruct (storage_client self); [|reflexivity].
  destruct (w_bucket w (gcs_bucket_name self)); [reflexivity|].
  destruct (open_fails (w_faults w)) as [e|].
  { rewrite remove_if_exists_delete. reflexivity. }
  destruct (write_fails (w_faults w)) as [[n e]|].
  { rewrite remove_if_exists_delete, delete_insert_eq. reflexivity. }
  destruct (upload_fails (w_faults w)) as [e|];
    rewrite remove_if_exists_delete, delete_insert_eq; reflexivity.
Qed.

(** Once the upload has succeeded, [bucket()] does not raise for the same
    name. *)
Lemma upload_error_bucket :
  upload_error self w = None -> w_bucket w (gcs_bucket_name self) = None.
Proof.
  unfold upload_error. destruct (storage_client self); [|discriminate].
  destruct (w_bucket w (gcs_bucket_name self)); [discriminate|reflexivity].
Qed.

Lemma finish_cases op s :
  finish_case self w prompt session_id op s (finish self w prompt session_id op s).
Proof.
  set (P := payload op). set (U := upload_error self w).
  unfold finish_case, finish, deliver, explain_empty, do_upload, do_sign,
    _generate_signed_url.
  branch.
  all: try (left; split; [reflexivity|]; left; split; [reflexivity|]; eexists; reflexivity).
  all: try (left; split; [reflexivity|]; right; eexists _, _;
            split; [reflexivity|]; split; [vm_compute; discriminate|]; auto).
  all: match goal with
       | H : _upload_bytes_to_gcs _ _ ?vb _ (gcs_blob_name _ _ ?m) _ _ = _ |- _ =>
           rewrite upload_outcome in H; injection H as <- Hr; right; exists vb, m
       end.
  all: (split; [subst P; unfold payload;
                repeat match goal with
                       | H : ?x = _ |- context [match ?x with _ => _ end] => rewrite H
                       end; reflexivity|]).
  all: (split; [reflexivity|]); (split; [reflexivity|]).
  all: subst; match goal with
       | H : upload_error _ _ = _, Hr : _ = _ |- _ => rewrite H in Hr
       end; try discriminate.
  all: try match goal with Hr : inl _ = inl _ |- _ => injection Hr as -> end.
  all: try (split; reflexivity).
  all: match goal with
       | Hr : inr ?g = inr ?u |- _ =>
           assert (E : u = g) by congruence; clear Hr; rewrite E in *; clear E
       end.
  all: try match goal with
       | H : w_sign _ _ _ = _ |- _ => rewrite H
       end.
  all: try (split; reflexivity).
  all: exfalso.
  - match goal with
    | H : upload_error self w = None, K : w_bucket w _ = Some _ |- _ =>
        rewrite (upload_error_bucket H) in K; discriminate K
    end.
  - unfold upload_error in *.
    match goal with H : storage_client self = false |- _ => rewrite H in * end.
    discriminate.
Qed.

(** *** The polling loop, further *)

Lemma polling_cadence k op s r :
  Polling self w session_id k op s r -> loop_cadence self w k op r.
Proof.
  induction 1; cbn [loop_cadence].
  1-3: exists []; cbn; split; [reflexivity|];
       split; [intros h Hh; discriminate Hh|]; split; [exact I|constructor].
  1-3: exists [op]; cbn; split; [reflexivity|];
       split; [intros h Hh; now injection Hh as <-|];
       split; [split; exact I|]; constructor; [exists d; auto|constructor].
  destruct IHPolling as (handles & Hc & Hh & Ht & Hu).
  exists (op :: handles). split; [cbn; now rewrite <- Hc|]. split; [|split].
  - intros h E. now injection E as <-.
  - cbn [threaded]. split; [|exact Ht].
    destruct handles as [|next rest]; [exact I|].
    rewrite (Hh next eq_refl). assumption.
  - constructor; [exists d; auto|exact Hu].
Qed.

Lemma adopt_name_nonempty n s :
  veo_operation_name_for_reporting s <> [] ->
  veo_operation_name_for_reporting (adopt_name n s) <> [].
Proof. destruct n as [[|c n]|]; cbn; auto. Qed.

Lemma polling_keeps k op s r :
  Polling self w session_id k op s r -> loop_keeps s r.
Proof.
  induction 1; cbn [loop_keeps]; auto.
  - rewrite adopt_name_disk, adopt_name_kicked.
    repeat split. apply adopt_name_nonempty.
  - destruct IHPolling as (Hd & Hk & Hn).
    rewrite Hd, Hk, adopt_name_disk, adopt_name_kicked.
    repeat split. intros Hs. apply Hn, adopt_name_nonempty, Hs.
Qed.

Lemma polling_yields k op s t s' o :
  Polling self w session_id k op s (t, s', o) ->
  Forall (fun e => (exists u p, e = working u p)
                   \/ (exists name polled,
                         e = polling_issue
                               (msg_unexpected_poll session_id name polled)
                               msg_polling_issue))
    (events t).
Proof.
  remember (t, s', o) as r eqn:E. intros H. revert t s' o E.
  induction H; intros t0 s0 o0 E; injection E as <- <- <-; unfold sleep;
    rewrite ?events_Do, ?events_Ev; try (constructor; fail).
  - constructor; [|constructor]. right. eexists _, _. reflexivity.
  - constructor; [|eapply IHPolling; reflexivity].
    left. eexists _, _. reflexivity.
Qed.

(** *** A run, part by part *)

Lemma stream_parts fuel fs :
  match w_start w with
  | inl e =>
      stream self w prompt session_id fuel fs =
        {| trace := [Ev (working (msg_received prompt) 0); Do (CStart prompt);
                     Ev (unexpected session_id (entry fs) e)];
           finished := true; final_disk := fs |}
  | inr op0 =>
      let s1 := started_frame op0 (entry fs) in
      exists t1 s2 o1 t2 s3 tl,
        poll_loop self w session_id fuel O op0 s1 = (t1, s2, o1)
        /\ stream self w prompt session_id fuel fs =
             {| trace := Ev (working (msg_received prompt) 0)
                         :: Do (CStart prompt) :: Ev (started s1)
                         :: t1 ++ t2 ++ tl;
                finished := match o1 with Susp => false | _ => true end;
                final_disk := disk s3 |}
        /\ Forall (fun e => is_task_complete e = true) (events (t2 ++ tl))
        /\ match o1 with
           | Val op =>
               exists o,
                 finish self w prompt session_id op s2 = (t2, s3, o)
                 /\ o <> Susp
                 /\ tl = match o with
                         | Exc e => [Ev (unexpected session_id s3 e)]
                         | _ => []
                         end
           | Exc e =>
               t2 = [] /\ s3 = s2 /\ tl = [Ev (unexpected session_id s2 e)]
           | _ => t2 = [] /\ s3 = s2 /\ tl = []
           end
  end.
Proof.
  unfold stream. rewrite try_block_run.
  destruct (w_start w) as [e|op0]; [reflexivity|]. cbv zeta.
  destruct (poll_loop self w session_id fuel O op0 (started_frame op0 (entry fs)))
    as [[t1 s2] [op|e| |]].
  - pose proof (finish_events self w prompt session_id op s2) as F.
    destruct (finish self w prompt session_id op s2) as [[t2 s3] o] eqn:E.
    exists t1, s2, (Val op), t2, s3,
      (match o with Exc e => [Ev (unexpected session_id s3 e)] | _ => [] end).
    split; [reflexivity|]. split; [|split].
    + destruct o as [[]|e| |]; cbn [app]; rewrite ?app_nil_r, <- ?app_assoc;
        try reflexivity. destruct F as [_ []].
    + rewrite events_app. apply Forall_app. destruct F as [_ F]. split.
      * destruct o as [[]|e| |]; cbn [closing] in F;
          try (destruct F as (x & -> & Hx & _); repeat constructor; exact Hx);
          [rewrite F; constructor | destruct F].
      * destruct o; repeat constructor.
    + exists o. split; [exact E|]. split; [|reflexivity].
      intros ->. destruct F as [_ []].
  - exists t1, s2, (Exc e), [], s2, [Ev (unexpected session_id s2 e)].
    split; [reflexivity|]. split; [reflexivity|].
    split; [repeat constructor|]. auto.
  - exists t1, s2, Ret, [], s2, [].
    split; [reflexivity|]. split; [now rewrite !app_nil_r|].
    split; [constructor|]. auto.
  - exists t1, s2, Susp, [], s2, [].
    split; [reflexivity|]. split; [now rewrite !app_nil_r|].
    split; [constructor|]. auto.
Qed.

Lemma calls_Ev e t : calls (Ev e :: t) = calls t.
Proof. reflexivity. Qed.

Lemma calls_Do c t : calls (Do c :: t) = c :: calls t.
Proof. reflexivity. Qed.

Lemma finalizer_calls_Ev e t : finalizer_calls (Ev e :: t) = finalizer_calls t.
Proof. reflexivity. Qed.

(** What a run calls: the start, the turns of the loop, the finaliser. *)
Lemma stream_calls fuel fs :
  match w_start w with
  | inl _ =>
      calls (trace (stream self w prompt session_id fuel fs)) = [CStart prompt]
  | inr op0 =>
      match poll_loop self w session_id fuel O op0
              (started_frame op0 (entry fs)) with
      | (t1, s2, o1) =>
          calls (trace (stream self w prompt session_id fuel fs)) =
            CStart prompt :: calls t1
              ++ finalizer_calls (trace (stream self w prompt session_id fuel fs))
      end
  end.
Proof.
  pose proof (stream_parts fuel fs) as R.
  destruct (w_start w) as [e|op0]; [rewrite R; reflexivity|].
  destruct R as (t1 & s2 & o1 & t2 & s3 & tl & L & R & Hterm & C).
  pose proof (polling_calls _ _ _ _ _ _ _
                (poll_loop_polling self w session_id fuel O op0
                   (started_frame op0 (entry fs)))) as Q.
  rewrite L in *. cbn [loop_calls] in Q. rewrite R. cbn [trace].
  rewrite finalizer_calls_Ev.
  change (Do ?a :: Ev ?b :: t1 ++ t2 ++ tl) with ([Do a; Ev b] ++ t1 ++ t2 ++ tl).
  rewrite calls_Ev, !finalizer_calls_app, (finalizer_calls_none _ Q), !calls_app.
  cbn [app calls flat_map]. f_equal. f_equal.
  destruct o1 as [op|e| |].
  - destruct C as (o & F & _ & ->).
    pose proof (finish_calls self w prompt session_id op s2) as K.
    rewrite F in K.
    assert (Htl : calls (match o with
                         | Exc e => [Ev (unexpected session_id s3 e)]
                         | _ => []
                         end) = []) by (destruct o; reflexivity).
    unfold finalizer_calls. rewrite Htl.
    destruct K as [->|(vb & mime & _ & _ & _ & [->| ->])]; reflexivity.
  - destruct C as (-> & _ & ->). reflexivity.
  - destruct C as (-> & _ & ->). reflexivity.
  - destruct C as (-> & _ & ->). reflexivity.
Qed.

(** X1. The backend sees one start call, then sleep and poll in turns, each
    poll with the answer to the one before it and only for an operation that
    says it is not done, then the finaliser calls. *)
Theorem stream_calls_follow_the_polling_cadence fuel fs :
  exists handles,
    calls (trace (stream self w prompt session_id fuel fs)) =
      CStart prompt :: flat_map (turn self) handles
        ++ finalizer_calls (trace (stream self w prompt session_id fuel fs))
    /\ (forall h, hd_error handles = Some h -> w_start w = inr h)
    /\ threaded w O handles
    /\ Forall unfinished handles.
Proof.
  pose proof (stream_calls fuel fs) as S.
  destruct (w_start w) as [e|op0].
  - exists []. rewrite S. cbn.
    replace (finalizer_calls (trace (stream self w prompt session_id fuel fs)))
      with (@nil Call) by (unfold finalizer_calls; now rewrite S).
    split; [reflexivity|]. split; [discriminate|]. split; [exact I|constructor].
  - pose proof (polling_cadence _ _ _ _
                  (poll_loop_polling self w session_id fuel O op0
                     (started_frame op0 (entry fs)))) as Q.
    destruct (poll_loop self w session_id fuel O op0 (started_frame op0 (entry fs)))
      as [[t1 s2] o1].
    destruct Q as (handles & Hc & Hh & Ht & Hu). exists handles.
    rewrite S at 1. rewrite Hc. split; [reflexivity|].
    split; [|split; [exact Ht|exact Hu]].
    intros h E. now rewrite (Hh h E).
Qed.

Lemma unexpected_failed s x :
  exists c f, unexpected session_id s x = failed c f /\ c <> msg_no_uri.
Proof.
  unfold unexpected. eexists _, _. split; [reflexivity|].
  intros H. vm_compute in H. discriminate H.
Qed.

(** Where an event of a run comes from. *)
Lemma stream_event_origin fuel fs e :
  In e (events (trace (stream self w prompt session_id fuel fs))) ->
  (exists u p, e = working u p)
  \/ (exists name polled,
        e = polling_issue (msg_unexpected_poll session_id name polled)
              msg_polling_issue)
  \/ (exists c f, e = failed c f /\ c <> msg_no_uri)
  \/ exists url vb mime t,
       let uri := gs_uri (gcs_bucket_name self)
                    (gcs_blob_name session_id (w_uuid w) mime) in
       e = delivered prompt url uri mime
       /\ upload_error self w = None
       /\ trace (stream self w prompt session_id fuel fs) =
            t ++ [Do (the_upload self w session_id vb mime);
                  Do (the_signing self uri); Ev e].
Proof.
  pose proof (stream_parts fuel fs) as R.
  destruct (w_start w) as [x|op0].
  { rewrite R. cbn. intros [<-|[<-|[]]].
    - left. eexists _, _. reflexivity.
    - right. right. left. apply unexpected_failed. }
  destruct R as (t1 & s2 & o1 & t2 & s3 & tl & L & R & Hterm & C).
  pose proof (poll_loop_polling self w session_id fuel O op0
                (started_frame op0 (entry fs))) as Q.
  rewrite L in Q. apply polling_yields in Q.
  rewrite R. cbn [trace].
  rewrite events_Ev, events_Do, events_Ev, !events_app.
  intros [<-|[<-|Hin]].
  { left. eexists _, _. reflexivity. }
  { left. eexists _, _. reflexivity. }
  apply in_app_or in Hin as [Hin|Hin].
  { rewrite List.Forall_forall in Q. destruct (Q e Hin) as [H|H]; auto. }
  assert (Hx : forall s x, In e (events [Ev (unexpected session_id s x)]) ->
                 exists c f, e = failed c f /\ c <> msg_no_uri).
  { intros s x [<-|[]]. apply unexpected_failed. }
  destruct o1 as [op|x| |].
  - destruct C as (o & F & _ & ->).
    pose proof (finish_cases op s2) as K. rewrite F in K. cbn [finish_case] in K.
    destruct K as [[-> [[-> [x ->]]|(c & f & -> & Hc & Ho)]]
                  |(vb & mime & Hp & He & -> & K)].
    + right. right. left. eapply Hx. exact Hin.
    + right. right. left.
      assert (Hin' : In e [failed c f])
        by (destruct Ho as [-> | ->]; exact Hin).
      destruct Hin' as [<-|[]]. eauto.
    + cbv zeta in K. destruct (upload_error self w) as [x|] eqn:U.
      * destruct K as [-> ->]. right. right. left. eapply Hx. exact Hin.
      * destruct K as [-> ->]. cbn in Hin. destruct Hin as [<-|[]].
        right. right. right.
        exists (match w_sign w
                        (Py.replace (gs_prefix (gcs_bucket_name self)) []
                           (gs_uri (gcs_bucket_name self)
                              (gcs_blob_name session_id (w_uuid w) mime)))
                        (gcs_bucket_name self) with
                | inr u => u
                | inl _ =>
                    gs_uri (gcs_bucket_name self)
                      (Py.replace (gs_prefix (gcs_bucket_name self)) []
                         (gs_uri (gcs_bucket_name self)
                            (gcs_blob_name session_id (w_uuid w) mime)))
                end), vb, mime,
          (Ev (working (msg_received prompt) 0) :: Do (CStart prompt)
             :: Ev (started (started_frame op0 (entry fs))) :: t1).
        cbv zeta. split; [reflexivity|]. split; [reflexivity|].
        rewrite app_nil_r. reflexivity.
  - destruct C as (-> & -> & ->). right. right. left. eapply Hx. exact Hin.
  - destruct C as (-> & -> & ->). destruct Hin.
  - destruct C as (-> & -> & ->). destruct Hin.
Qed.

(** X2. Every dict that [stream] yields has one of four shapes. *)
Theorem stream_yields_four_shapes fuel fs e :
  In e (events (trace (stream self w prompt session_id fuel fs))) ->
  yielded_shape e.
Proof.
  intros Hin. unfold yielded_shape.
  destruct (stream_event_origin fuel fs e Hin)
    as [H|[(n & p & ->)|[(c & f & -> & _)|(url & vb & mime & t & -> & _)]]].
  - left. exact H.
  - right. right. left. eauto.
  - right. left. eauto.
  - right. right. right. unfold delivered. eauto 10.
Qed.

(** X3. The branch of lines 324-333 is never taken: no run yields its
    message. *)
Theorem no_uri_branch_is_never_taken fuel fs e :
  In e (events (trace (stream self w prompt session_id fuel fs))) ->
  content e <> Some msg_no_uri.
Proof.
  intros Hin.
  destruct (stream_event_origin fuel fs e Hin)
    as [(u & p & ->)|[(n & p & ->)|[(c & f & -> & Hc)|(url & vb & mime & t & -> & _)]]];
    cbn; try discriminate.
  congruence.
Qed.

(** A run that reaches the upload. *)
Lemma stream_upload_inv fuel fs vb bucket blob mime :
  In (Do (CUpload vb bucket blob mime))
    (trace (stream self w prompt session_id fuel fs)) ->
  bucket = gcs_bucket_name self
  /\ blob = gcs_blob_name session_id (w_uuid w) mime
  /\ exists t s,
       operation_kicked_off s = true /\ disk s = fs
       /\ finalizer_calls t = []
       /\ stream self w prompt session_id fuel fs =
            {| trace :=
                 t ++ Do (CUpload vb bucket blob mime)
                   :: match upload_error self w with
                      | Some e =>
                          [Ev (unexpected session_id
                                 (with_disk s (disk_after_upload self w blob fs)) e)]
                      | None =>
                          [Do (the_signing self (gs_uri bucket blob));
                           Ev (delivered prompt
                                 (match w_sign w
                                          (Py.replace (gs_prefix bucket) []
                                             (gs_uri bucket blob)) bucket with
                                  | inr u => u
                                  | inl _ =>
                                      gs_uri bucket
                                        (Py.replace (gs_prefix bucket) []
                                           (gs_uri bucket blob))
                                  end) (gs_uri bucket blob) mime)]
                      end;
               finished := true;
               final_disk := disk_after_upload self w blob fs |}.
Proof.
  pose proof (stream_parts fuel fs) as R.
  destruct (w_start w) as [x|op0].
  { rewrite R. cbn. intros [H|[H|[H|[]]]]; discriminate H. }
  destruct R as (t1 & s2 & o1 & t2 & s3 & tl & L & R & Hterm & C).
  pose proof (poll_loop_polling self w session_id fuel O op0
                (started_frame op0 (entry fs))) as Q.
  rewrite L in Q.
  pose proof (polling_calls _ _ _ _ _ _ _ Q) as Qc. cbn [loop_calls] in Qc.
  pose proof (polling_keeps _ _ _ _ Q) as (Qd & Qk & _).
  cbn in Qd, Qk.
  rewrite R. cbn [trace]. intros Hin.
  destruct Hin as [H|[H|[H|Hin]]]; try discriminate H.
  apply in_app_or in Hin as [Hin|Hin].
  { apply calls_In in Hin. rewrite List.Forall_forall in Qc.
    specialize (Qc _ Hin). discriminate Qc. }
  destruct o1 as [op|x| |].
  2-4: destruct C as (-> & -> & ->); cbn in Hin;
       try destruct Hin as [H|[]]; try discriminate H; destruct Hin.
  destruct C as (o & F & _ & ->).
  pose proof (finish_cases op s2) as K. rewrite F in K. cbn [finish_case] in K.
  destruct K as [[-> [[-> [x ->]]|(c & f & -> & Hc & Ho)]]
                |(vb' & mime' & Hp & He & -> & K)].
  { cbn in Hin. destruct Hin as [H|[]]. discriminate H. }
  { exfalso. destruct Ho as [-> | ->]; cbn in Hin;
      destruct Hin as [H|[]]; discriminate H. }
  cbv zeta in K.
  assert (Hup : CUpload vb bucket blob mime = the_upload self w session_id vb' mime').
  { destruct (upload_error self w) as [x|]; destruct K as [-> ->];
      cbn in Hin; [destruct Hin as [H|[H|[]]]|destruct Hin as [H|[H|[H|[]]]]];
      try discriminate H; now injection H as <- <- <- <-. }
  injection Hup as -> -> -> ->. split; [reflexivity|]. split; [reflexivity|].
  exists (Ev (working (msg_received prompt) 0) :: Do (CStart prompt)
            :: Ev (started (started_frame op0 (entry fs))) :: t1), s2.
  split; [exact Qk|]. split; [exact Qd|]. split.
  { rewrite finalizer_calls_Ev.
    change (Do ?a :: Ev ?b :: t1) with ([Do a; Ev b] ++ t1).
    rewrite finalizer_calls_app, (finalizer_calls_none _ Qc). reflexivity. }
  cbn [with_disk disk]. rewrite Qd.
  destruct (upload_error self w) as [x|]; destruct K as [-> ->];
    cbn [app]; rewrite <- ?app_assoc; reflexivity.
Qed.

(** A run that does not reach the upload leaves the disk as it was. *)
Lemma stream_disk fuel fs :
  final_disk (stream self w prompt session_id fuel fs) = fs
  \/ exists vb bucket blob mime,
       In (Do (CUpload vb bucket blob mime))
         (trace (stream self w prompt session_id fuel fs)).
Proof.
  pose proof (stream_parts fuel fs) as R.
  destruct (w_start w) as [x|op0]; [rewrite R; now left|].
  destruct R as (t1 & s2 & o1 & t2 & s3 & tl & L & R & Hterm & C).
  pose proof (poll_loop_polling self w session_id fuel O op0
                (started_frame op0 (entry fs))) as Q.
  rewrite L in Q. pose proof (polling_keeps _ _ _ _ Q) as (Qd & _ & _).
  cbn in Qd. rewrite R. cbn [trace final_disk].
  destruct o1 as [op|x| |].
  2-4: destruct C as (_ & -> & _); now left.
  destruct C as (o & F & _ & ->).
  pose proof (finish_cases op s2) as K. rewrite F in K. cbn [finish_case] in K.
  destruct K as [[-> _]|(vb & mime & _ & _ & _ & K)]; [now left|]. right.
  exists vb, (gcs_bucket_name self), (gcs_blob_name session_id (w_uuid w) mime), mime.
  do 3 right. apply in_or_app. right. apply in_or_app. left.
  cbv zeta in K. destruct (upload_error self w); destruct K as [-> _]; now left.
Qed.

(** X4. A run leaves every file as it found it, except the temporary file of
    its upload, which is gone when the run ends. *)
Theorem stream_leaves_the_disk_as_found fuel fs p :
  final_disk (stream self w prompt session_id fuel fs) !! p = fs !! p
  \/ (final_disk (stream self w prompt session_id fuel fs) !! p = None
      /\ exists vb bucket blob mime,
           In (Do (CUpload vb bucket blob mime))
             (trace (stream self w prompt session_id fuel fs))
           /\ p = temp_file_path w blob).
Proof.
  destruct (stream_disk fuel fs) as [->|(vb & bucket & blob & mime & Hin)];
    [now left|].
  destruct (stream_upload_inv fuel fs vb bucket blob mime Hin)
    as (_ & _ & t & s & _ & _ & _ & R).
  assert (D : final_disk (stream self w prompt session_id fuel fs)
              = disk_after_upload self w blob fs) by now rewrite R.
  rewrite D. unfold disk_after_upload.
  destruct (storage_client self); [|now left].
  destruct (w_bucket w (gcs_bucket_name self)); [now left|].
  destruct (decide (p = temp_file_path w blob)) as [->|Hne].
  - right. split; [apply lookup_delete_eq|]. eauto 10.
  - left. apply lookup_delete_ne. congruence.
Qed.

(** X5. When the upload raises, whatever the step that fails, the run ends
    with the Failed event of the handler for that exception, and no signed
    URL is asked for. *)
Theorem upload_failure_fails_the_task fuel fs vb bucket blob mime x :
  In (Do (CUpload vb bucket blob mime))
    (trace (stream self w prompt session_id fuel fs)) ->
  upload_error self w = Some x ->
  finished (stream self w prompt session_id fuel fs) = true
  /\ finalizer_calls (trace (stream self w prompt session_id fuel fs))
     = [CUpload vb bucket blob mime]
  /\ exists evs e,
       events (trace (stream self w prompt session_id fuel fs)) = evs ++ [e]
       /\ Forall (fun a => is_task_complete a = false) evs
       /\ is_task_complete e = true /\ is_error e = Some true
       /\ file_part_data e = None
       /\ final_message_text e
          = Some (Py.lit "An unexpected error occurred: " ++ exn_text x).
Proof.
  intros Hin Hx.
  destruct (stream_upload_inv fuel fs vb bucket blob mime Hin)
    as (_ & _ & t & s & _ & _ & Hf & R).
  rewrite Hx in R.
  split; [now rewrite R|]. split.
  - rewrite R. cbn [trace].
    change (t ++ Do ?c :: ?l) with (t ++ [Do c] ++ l).
    rewrite !finalizer_calls_app, Hf. reflexivity.
  - destruct (stream_last_event self w prompt session_id fuel fs
                (t ++ [Do (CUpload vb bucket blob mime)])
                (unexpected session_id
                   (with_disk s (disk_after_upload self w blob fs)) x))
      as (evs & E & Hq).
    { rewrite R. cbn [trace]. now rewrite <- app_assoc. }
    { now rewrite R. }
    exists evs. eexists. split; [exact E|]. split; [exact Hq|].
    repeat split.
Qed.

(** X6. A run shows a Completed event exactly when it reaches the upload and
    the upload does not raise. *)
Theorem completed_exactly_when_upload_succeeds fuel fs :
  (exists e, In e (events (trace (stream self w prompt session_id fuel fs)))
             /\ file_part_data e <> None)
  <-> (upload_error self w = None
       /\ exists vb bucket blob mime,
            In (Do (CUpload vb bucket blob mime))
              (trace (stream self w prompt session_id fuel fs))).
Proof.
  split.
  - intros (e & Hin & He).
    destruct (stream_event_origin fuel fs e Hin)
      as [(u & p & ->)|[(n & p & ->)|[(c & f & -> & Hc)
         |(url & vb & mime & t & -> & Hu & R)]]];
      try (exfalso; apply He; reflexivity).
    split; [exact Hu|]. eexists vb, _, _, mime. rewrite R.
    apply in_or_app. right. left. reflexivity.
  - intros (Hu & vb & bucket & blob & mime & Hin).
    destruct (stream_upload_inv fuel fs vb bucket blob mime Hin)
      as (_ & _ & t & s & _ & _ & _ & R).
    rewrite Hu in R. eexists. split.
    + rewrite R. cbn [trace]. rewrite events_app, events_Do, events_Do.
      apply in_or_app. right. left. reflexivity.
    + discriminate.
Qed.

Lemma stream_ends_with fuel fs t e :
  trace (stream self w prompt session_id fuel fs) = t ++ [Ev e] ->
  finished (stream self w prompt session_id fuel fs) = true ->
  ends_with (stream self w prompt session_id fuel fs) e.
Proof.
  intros Ht Hf. split; [exact Hf|].
  apply (stream_last_event self w prompt session_id fuel fs t e Ht Hf).
Qed.

Lemma lit_slash (x : Py.str) : Py.lit "/" ++ x = Py.slash :: x.
Proof. reflexivity. Qed.

Lemma video_filename_no_slash sid u mime :
  Py.has_slash sid = false -> Py.has_slash u = false ->
  Py.has_slash (video_filename sid u mime) = false.
Proof.
  intros Hs Hu. unfold video_filename, video_filename_base.
  rewrite !has_slash_app, Hs, Hu, extension_no_slash. reflexivity.
Qed.

(** The artifact name of line 304 is the file name of line 286. *)
Lemma gs_uri_last_segment bucket sid u mime :
  path_safe sid = true -> Py.has_slash u = false ->
  Py.last_segment (gs_uri bucket (gcs_blob_name sid u mime))
  = video_filename sid u mime.
Proof.
  intros Hs Hu. unfold path_safe in Hs. apply negb_true_iff in Hs.
  unfold gs_uri, gcs_blob_name. rewrite !lit_slash.
  replace (Py.lit "gs://" ++ bucket ++ Py.slash :: sid
             ++ Py.slash :: video_filename sid u mime)
    with ((Py.lit "gs://" ++ bucket ++ Py.slash :: sid)
            ++ Py.slash :: video_filename sid u mime)
    by (rewrite <- !app_assoc; reflexivity).
  apply last_segment_after_slash. now apply video_filename_no_slash.
Qed.

(** X7. When the upload has succeeded and the signing request returns a URL,
    the run ends with the Completed event that carries that URL, the mime
    type of the upload and, as artifact name, the file name of the blob; the
    signing request is for the uploaded blob, with the expiry of the agent. *)
Theorem signed_url_is_delivered fuel fs vb bucket blob mime url :
  In (Do (CUpload vb bucket blob mime))
    (trace (stream self w prompt session_id fuel fs)) ->
  upload_error self w = None ->
  path_safe session_id = true -> uuid_text (w_uuid w) = true ->
  w_sign w blob bucket = inr url ->
  finalizer_calls (trace (stream self w prompt session_id fuel fs))
  = [CUpload vb bucket blob mime;
     CSign blob bucket (SIGNED_URL_EXPIRATION_SECONDS self)]
  /\ ends_with (stream self w prompt session_id fuel fs)
       (completed url mime (video_filename session_id (w_uuid w) mime)
          (msg_artifact prompt (gs_uri bucket blob))
          (msg_success url (gs_uri bucket blob))).
Proof.
  intros Hin Hu Hs Hw Hsign.
  destruct (stream_upload_inv fuel fs vb bucket blob mime Hin)
    as (Eb & Ebl & t & s & _ & _ & Hf & R).
  rewrite Hu in R. subst bucket blob.
  rewrite (signed_name_is_blob w session_id _ mime Hs Hw) in R.
  rewrite Hsign in R. split.
  - rewrite R. cbn [trace].
    change (t ++ Do ?c :: Do ?d :: ?l) with (t ++ [Do c; Do d] ++ l).
    rewrite !finalizer_calls_app, Hf. unfold the_signing.
    rewrite (signed_name_is_blob w session_id _ mime Hs Hw). reflexivity.
  - apply (stream_ends_with fuel fs
             (t ++ [Do (CUpload vb (gcs_bucket_name self)
                          (gcs_blob_name session_id (w_uuid w) mime) mime);
                    Do (the_signing self
                          (gs_uri (gcs_bucket_name self)
                             (gcs_blob_name session_id (w_uuid w) mime)))])).
    + rewrite R. cbn [trace]. rewrite <- app_assoc. cbn [app].
      unfold delivered.
      rewrite (gs_uri_last_segment _ _ _ mime Hs (uuid_text_no_slash _ Hw)).
      reflexivity.
    + now rewrite R.
Qed.

(** *** Names in messages *)

Lemma name_after_nonempty k : name_after w k <> [].
Proof.
  induction k as [|k IH]; cbn [name_after].
  - destruct (w_start w) as [x|op]; [discriminate|].
    destruct (op_name op) as [|[[|c n]|]]; discriminate.
  - destruct (w_poll w k) as [x|polled]; [exact IH|].
    destruct (op_name polled) as [|[[|c n]|]]; try exact IH. discriminate.
Qed.

(** The name shown after [m] polls is the non-empty name of the latest answer
    that has one. *)
Lemma name_after_latest m j polled c n :
  (j < m)%nat -> w_poll w j = inr polled ->
  op_name polled = Has (Some (c :: n)) ->
  (forall i q, (j < i < m)%nat -> w_poll w i = inr q ->
     op_name q = Missing \/ op_name q = Has None \/ op_name q = Has (Some [])) ->
  name_after w m = c :: n.
Proof.
  induction m as [|m IH]; intros Hlt Hp Hn Hlater; [lia|].
  cbn [name_after]. destruct (Nat.eq_dec j m) as [->|Hne].
  - now rewrite Hp, Hn.
  - assert (E : name_after w m = c :: n).
    { apply IH; [lia|exact Hp|exact Hn|].
      intros i q Hi. apply Hlater. lia. }
    destruct (w_poll w m) as [x|q] eqn:Hq; [exact E|].
    destruct (Hlater m q ltac:(lia) Hq) as [->|[->| ->]]; exact E.
Qed.

(** Without such an answer it is the name of the start response. *)
Lemma name_after_first m :
  (forall j polled c n,
     (j < m)%nat -> w_poll w j = inr polled ->
     op_name polled <> Has (Some (c :: n))) ->
  name_after w m = name_after w O.
Proof.
  induction m as [|m IH]; intros H; [reflexivity|].
  cbn [name_after].
  assert (E : name_after w m = name_after w O).
  { apply IH. intros j polled c n Hj. apply H. lia. }
  destruct (w_poll w m) as [x|q] eqn:Hq; [exact E|].
  destruct (op_name q) as [|[[|c n]|]] eqn:Hn; try exact E.
  exfalso. apply (H m q c n); [lia|exact Hq|exact Hn].
Qed.

Lemma started_frame_name op0 fs :
  w_start w = inr op0 ->
  veo_operation_name_for_reporting (started_frame op0 (entry fs)) = name_after w O.
Proof.
  intros Hs. cbn [name_after]. rewrite Hs. unfold started_frame.
  destruct (op_name op0) as [|[[|c n]|]]; reflexivity.
Qed.

Lemma adopt_name_after k polled n s :
  w_poll w k = inr polled -> accepted polled = Some n ->
  veo_operation_name_for_reporting s = name_after w k ->
  veo_operation_name_for_reporting (adopt_name n s) = name_after w (S k).
Proof.
  intros Hp Ha Hs. cbn [name_after]. rewrite Hp. unfold accepted in Ha.
  destruct (op_done polled); [discriminate|].
  destruct (op_name polled) as [|m]; [discriminate|]. injection Ha as ->.
  destruct n as [[|c n]|]; cbn; auto.
Qed.

Lemma polling_named k op s t s' o :
  Polling self w session_id k op s (t, s', o) ->
  veo_operation_name_for_reporting s = name_after w k ->
  forall i e,
    nth_error (events t) i = Some e -> is_task_complete e = false ->
    exists p,
      progress_at self w (k + i) = inr p
      /\ e = working (msg_in_progress (name_after w (S (k + i))) p) p.
Proof.
  remember (t, s', o) as r eqn:E. intros H. revert t s' o E.
  induction H; intros t0 s0 o0 E Hs i x; injection E as <- <- <-;
    unfold sleep; rewrite ?events_Do, ?events_Ev;
    try (destruct i; discriminate).
  - destruct i as [|[|i]]; cbn; try discriminate.
    intros Hx Hn. injection Hx as <-. discriminate Hn.
  - pose proof (adopt_name_after k polled n s H1 H2 Hs) as Hs'.
    destruct i as [|i]; cbn [nth_error].
    + intros Hx _. injection Hx as <-. rewrite Nat.add_0_r.
      exists pct. split; [assumption|].
      unfold in_progress. now rewrite Hs'.
    + intros Hx Hn. replace (k + S i)%nat with (S k + i)%nat by lia.
      eapply IHPolling; eauto.
Qed.

(** X8. The start notice and the progress messages name the operation by the
    latest non-empty name that the backend has given, and by N/A before; a
    progress message shows the estimate that the code computes, in floats,
    from the clock readings after that poll, a whole number from 5 to 99. *)
Theorem progress_messages_name_the_latest_operation fuel fs i e :
  nth_error (events (trace (stream self w prompt session_id fuel fs))) (S i)
  = Some e ->
  is_task_complete e = false ->
  name_after w i <> []
  /\ match i with
     | O =>
         e = working
               (Py.lit "VEO operation '" ++ name_after w O
                ++ Py.lit "' started. Polling for completion...") 5
     | S k =>
         exists p,
           current_progress
             (PyFloat.sub (PyFloat.round (w_clock w (S k)))
                (PyFloat.round (w_clock w 0)))
             (VEO_SIMULATED_TOTAL_GENERATION_TIME_SECONDS self) = inr p
           /\ 5 <= p <= 99
           /\ e = working
                    (Py.lit "Video generation in progress (Operation: "
                     ++ name_after w (S k)
                     ++ Py.lit "). Simulated progress: " ++ Py.str_of_Z p
                     ++ Py.lit "%") p
     end.
Proof.
  intros He Hn. split; [apply name_after_nonempty|].
  pose proof (stream_parts fuel fs) as R.
  destruct (w_start w) as [x|op0] eqn:Hs.
  { rewrite R in He. destruct i as [|[|i]]; cbn in He; try discriminate.
    injection He as <-. discriminate Hn. }
  destruct R as (t1 & s2 & o1 & t2 & s3 & tl & L & R & Hterm & C).
  rewrite R in He. cbn [trace] in He.
  rewrite events_Ev, events_Do, events_Ev, events_app in He.
  cbn [nth_error] in He. destruct i as [|k]; cbn [nth_error] in He.
  { injection He as <-. unfold started. now rewrite (started_frame_name _ _ Hs). }
  pose proof (poll_loop_polling self w session_id fuel O op0
                (started_frame op0 (entry fs))) as Q.
  rewrite L in Q.
  rewrite nth_error_app in He.
  destruct (Nat.ltb_spec k (length (events t1))).
  - destruct (polling_named _ _ _ _ _ _ Q (started_frame_name _ _ Hs) k e He Hn)
      as (p & Hp & ->).
    cbn [Nat.add] in Hp. exists p. split; [exact Hp|].
    split; [exact (current_progress_range _ _ _ Hp)|reflexivity].
  - apply nth_error_In in He.
    rewrite List.Forall_forall in Hterm. rewrite (Hterm e He) in Hn.
    discriminate Hn.
Qed.

(** *** A zero total time *)

(** Dividing by a total of zero raises, whatever the elapsed time. *)
Lemma progress_at_zero_total k :
  VEO_SIMULATED_TOTAL_GENERATION_TIME_SECONDS self = 0 ->
  progress_at self w k = inl zero_division.
Proof. intros Hz. unfold progress_at. rewrite Hz. reflexivity. Qed.

(** X9. With an assumed total time of zero, a run whose operation is not done
    at the start never completes: the division of line 234 raises after the
    first accepted poll answer, even when that answer is a finished
    operation. *)
Theorem zero_total_time_never_completes fuel fs op0 d :
  VEO_SIMULATED_TOTAL_GENERATION_TIME_SECONDS self = 0 ->
  w_start w = inr op0 -> op_done op0 = Has d -> done_truthy d = false ->
  finalizer_calls (trace (stream self w prompt session_id fuel fs)) = []
  /\ (forall e, In e (events (trace (stream self w prompt session_id fuel fs))) ->
                file_part_data e = None)
  /\ (length (polls (trace (stream self w prompt session_id fuel fs))) <= 1)%nat
  /\ (forall polled n,
        (0 < fuel)%nat -> w_poll w O = inr polled -> accepted polled = Some n ->
        ends_with (stream self w prompt session_id fuel fs)
          (unexpected session_id (adopt_name n (started_frame op0 (entry fs)))
             (zero_division)))
.
Proof.
  intros Hz Hs Hd Hn.
  assert (Hrun : exists t1 s2 fin,
            stream self w prompt session_id fuel fs =
              {| trace := Ev (working (msg_received prompt) 0)
                          :: Do (CStart prompt)
                          :: Ev (started (started_frame op0 (entry fs)))
                          :: t1;
                 finished := fin;
                 final_disk := disk s2 |}
            /\ (t1 = [] /\ fuel = O
                \/ (exists x, w_poll w O = inl x
                              /\ t1 = [sleep self; Do (CPoll op0);
                                       Ev (unexpected session_id s2 x)])
                \/ (exists polled, w_poll w O = inr polled
                                   /\ accepted polled = None
                                   /\ t1 = [sleep self; Do (CPoll op0);
                                            Ev (api_issue session_id s2 polled)])
                \/ (exists polled n, w_poll w O = inr polled
                                     /\ accepted polled = Some n
                                     /\ s2 = adopt_name n (started_frame op0 (entry fs))
                                     /\ fin = true
                                     /\ t1 = [sleep self; Do (CPoll op0);
                                              Ev (unexpected session_id s2 zero_division)]))).
  { unfold stream. rewrite try_block_run, Hs. cbv zeta.
    destruct fuel as [|f].
    - rewrite (poll_loop_out self w session_id O op0 _ d Hd Hn).
      eexists [], (started_frame op0 (entry fs)), _.
      split; [reflexivity|]. left. auto.
    - rewrite (poll_loop_turn self w session_id f O op0 _ d Hd Hn).
      destruct (w_poll w O) as [x|polled].
      { eexists _, (started_frame op0 (entry fs)), _.
        split; [reflexivity|]. right. left.
        exists x. split; reflexivity. }
      destruct (accepted polled) as [n|] eqn:Ha.
      2:{ eexists _, (started_frame op0 (entry fs)), _.
          split; [reflexivity|]. right. right. left.
          exists polled. repeat split. exact Ha. }
      cbv zeta. rewrite (progress_at_zero_total O Hz).
      eexists _, (adopt_name n (started_frame op0 (entry fs))), _.
      split; [reflexivity|].
      right. right. right. exists polled, n. repeat split. exact Ha. }
  destruct Hrun as (t1 & s2 & fin & R & Hcases). rewrite R. cbn [trace].
  destruct Hcases as [(-> & ->)|[(x & Hp & ->)|[(polled & Hp & Ha & ->)
                     |(polled & n & Hp & Ha & -> & -> & ->)]]].
  - split; [reflexivity|]. split; [|split; [cbn; lia|intros; lia]].
    intros e [<-|[<-|[]]]; reflexivity.
  - split; [reflexivity|]. split; [|split; [cbn; lia|intros; congruence]].
    intros e [<-|[<-|[<-|[]]]]; reflexivity.
  - split; [reflexivity|]. split; [|split; [cbn; lia|intros; congruence]].
    intros e [<-|[<-|[<-|[]]]]; reflexivity.
  - split; [reflexivity|]. split; [|split; [cbn; lia|]].
    + intros e [<-|[<-|[<-|[]]]]; reflexivity.
    + intros polled' n' _ Hp' Ha'.
      assert (polled' = polled) by congruence. subst polled'.
      assert (n' = n) by congruence. subst n'.
      split; [reflexivity|]. eexists [_; _]. split; [reflexivity|].
      repeat constructor.
Qed.

(** *** The handler *)

Lemma polling_name k op s t s' o :
  Polling self w session_id k op s (t, s', o) ->
  veo_operation_name_for_reporting s = name_after w k ->
  o <> Ret ->
  veo_operation_name_for_reporting s' = name_after w (k + length (polls t)).
Proof.
  remember (t, s', o) as r eqn:E. intros H. revert t s' o E.
  induction H; intros t0 s0 o0 E Hs Ho; injection E as <- <- <-.
  1-3: now rewrite Nat.add_0_r.
  - change (length (polls [sleep self; Do (CPoll op)])) with 1%nat.
    rewrite Nat.add_1_r. cbn [name_after]. now rewrite H1.
  - now destruct Ho.
  - change (length (polls [sleep self; Do (CPoll op)])) with 1%nat.
    rewrite Nat.add_1_r. eapply adopt_name_after; eauto.
  - change (polls (sleep self :: Do (CPoll op)
                     :: Ev (in_progress pct (adopt_name n s)) :: t))
      with (CPoll op :: polls t).
    cbn [length]. rewrite Nat.add_succ_r.
    apply (IHPolling t s' o eq_refl); [|exact Ho].
    eapply adopt_name_after; eauto.
Qed.

(** The frame in which an exception reaches the handler once the start call
    has returned: the operation counts as started, and the name is the latest
    that the start response and the answers to the polls of the run gave. *)
Lemma handler_frame fuel fs op0 t s x :
  w_start w = inr op0 ->
  try_block self w prompt session_id fuel (entry fs) = (t, s, Exc x) ->
  operation_kicked_off s = true
  /\ veo_operation_name_for_reporting s
     = name_after w
         (length (polls (trace (stream self w prompt session_id fuel fs)))).
Proof.
  intros Hs Ht.
  pose proof (stream_polls self w prompt session_id fuel fs) as SP.
  rewrite Hs in SP.
  rewrite try_block_run, Hs in Ht. cbv zeta in Ht.
  pose proof (poll_loop_polling self w session_id fuel O op0
                (started_frame op0 (entry fs))) as Q.
  destruct (poll_loop self w session_id fuel O op0
              (started_frame op0 (entry fs))) as [[t1 s2] o1].
  destruct SP as [-> _].
  pose proof (polling_keeps _ _ _ _ Q) as (_ & Qk & _). cbn in Qk.
  assert (Qn : o1 <> Ret ->
               veo_operation_name_for_reporting s2
               = name_after w (length (polls t1))).
  { intros Ho.
    apply (polling_name _ _ _ _ _ _ Q (started_frame_name _ _ Hs) Ho). }
  destruct o1 as [op|y| |]; try discriminate Ht.
  - specialize (Qn ltac:(discriminate)).
    pose proof (finish_cases op s2) as K.
    destruct (finish self w prompt session_id op s2) as [[t2 s3] o].
    injection Ht as _ <- ->. cbn [finish_case] in K.
    destruct K as [[-> _]|(vb & mime & _ & _ & -> & _)]; auto.
  - specialize (Qn ltac:(discriminate)). injection Ht as _ <- _. auto.
Qed.

(** X10. The Failed event of the handler says that the operation was not
    started exactly when the start call itself raised, and the run then makes
    no other call; in every other case it names the operation by the latest
    non-empty name among the start response and the answers to the polls
    that the run has made, and by N/A when there is none. *)
Theorem handler_context_tells_whether_started fuel fs :
  let report x context :=
    failed
      (Py.lit "An error occurred during video generation stream for session_id "
       ++ session_id ++ Py.lit ": " ++ exn_text x ++ Py.lit ". Context: "
       ++ context)
      (Py.lit "An unexpected error occurred: " ++ exn_text x) in
  let made := length (polls (trace (stream self w prompt session_id fuel fs))) in
  (forall x,
     w_start w = inl x ->
     calls (trace (stream self w prompt session_id fuel fs)) = [CStart prompt]
     /\ ends_with (stream self w prompt session_id fuel fs)
          (report x (Py.lit "VEO operation not started.")))
  /\ (forall op0 t s x,
        w_start w = inr op0 ->
        try_block self w prompt session_id fuel (entry fs) = (t, s, Exc x) ->
        ends_with (stream self w prompt session_id fuel fs)
          (report x (Py.lit "VEO operation name: " ++ name_after w made))
        /\ name_after w made <> []
        /\ (forall j polled c n,
              (j < made)%nat -> w_poll w j = inr polled ->
              op_name polled = Has (Some (c :: n)) ->
              (forall i q, (j < i < made)%nat -> w_poll w i = inr q ->
                 op_name q = Missing \/ op_name q = Has None
                 \/ op_name q = Has (Some [])) ->
              name_after w made = c :: n)
        /\ ((forall j polled c n,
               (j < made)%nat -> w_poll w j = inr polled ->
               op_name polled <> Has (Some (c :: n))) ->
            name_after w made
            = match op_name op0 with
              | Has (Some (c :: n)) => c :: n
              | _ => Py.lit "N/A"
              end)).
Proof.
  cbv zeta. split.
  - intros x Hs. pose proof (stream_parts fuel fs) as R. rewrite Hs in R.
    rewrite R. split; [reflexivity|]. split; [reflexivity|].
    exists [working (msg_received prompt) 0]. split; [reflexivity|].
    repeat constructor.
  - intros op0 t s x Hs Ht.
    destruct (handler_frame fuel fs op0 t s x Hs Ht) as [Hk Hj].
    split; [|split; [apply name_after_nonempty|split]].
    + assert (E : trace (stream self w prompt session_id fuel fs)
                  = (Ev (working (msg_received prompt) 0) :: t)
                      ++ [Ev (unexpected session_id s x)])
        by (unfold stream; rewrite Ht; reflexivity).
      apply (stream_ends_with fuel fs (Ev (working (msg_received prompt) 0) :: t)).
      * etransitivity; [exact E|]. unfold unexpected. rewrite Hk, Hj.
        reflexivity.
      * unfold stream. rewrite Ht. reflexivity.
    + intros j polled c n Hlt Hp Hn Hlater.
      apply (name_after_latest _ j polled c n); assumption.
    + intros Hnone. rewrite (name_after_first _ Hnone).
      cbn [name_after]. now rewrite Hs.
Qed.

(** *** Results without a video *)

Lemma stream_closes_with fuel fs op t1 s2 e s3 o :
  await_operation self w prompt session_id fuel (entry fs) = (t1, s2, Val op) ->
  finish self w prompt session_id op s2 = ([Ev e], s3, o) ->
  o <> Susp -> (forall x, o <> Exc x) ->
  finalizer_calls (trace (stream self w prompt session_id fuel fs)) = []
  /\ ends_with (stream self w prompt session_id fuel fs) e.
Proof.
  intros A F Hs Hx.
  pose proof (await_operation_quiet self w prompt session_id fuel (entry fs)) as Q.
  rewrite A in Q. destruct Q as [Q _].
  assert (R : stream self w prompt session_id fuel fs =
              {| trace := Ev (working (msg_received prompt) 0) :: t1 ++ [Ev e];
                 finished := true; final_disk := disk s3 |}).
  { unfold stream. rewrite try_block_await, A, F.
    destruct o as [[]|x| |]; try reflexivity; [now destruct (Hx x)|now destruct Hs]. }
  split.
  - rewrite R. cbn [trace]. rewrite finalizer_calls_Ev, finalizer_calls_app, Q.
    reflexivity.
  - apply (stream_ends_with fuel fs (Ev (working (msg_received prompt) 0) :: t1));
      now rewrite R.
Qed.

(** A run whose loop is left with an operation, and that raises after it
    without a call, ends with the Failed event of the handler. *)
Lemma stream_raises_after_loop fuel fs op t1 s2 x :
  await_operation self w prompt session_id fuel (entry fs) = (t1, s2, Val op) ->
  finish self w prompt session_id op s2 = ([], s2, Exc x) ->
  finalizer_calls (trace (stream self w prompt session_id fuel fs)) = []
  /\ ends_with (stream self w prompt session_id fuel fs)
       (failed
          (Py.lit "An error occurred during video generation stream for session_id "
           ++ session_id ++ Py.lit ": " ++ exn_text x
           ++ Py.lit ". Context: VEO operation name: "
           ++ name_after w
                (length (polls (trace (stream self w prompt session_id fuel fs)))))
          (Py.lit "An unexpected error occurred: " ++ exn_text x)).
Proof.
  intros A F.
  pose proof (await_operation_quiet self w prompt session_id fuel (entry fs)) as Q.
  rewrite A in Q. destruct Q as [Q _].
  assert (T : try_block self w prompt session_id fuel (entry fs)
              = (t1, s2, Exc x)).
  { rewrite try_block_await, A, F. now rewrite app_nil_r. }
  assert (Hs : exists op0, w_start w = inr op0).
  { rewrite await_operation_run in A.
    destruct (w_start w) as [y|op0]; [discriminate A|eauto]. }
  destruct Hs as [op0 Hs].
  destruct (handler_frame fuel fs op0 t1 s2 x Hs T) as [Hk Hj].
  assert (E : trace (stream self w prompt session_id fuel fs)
              = (Ev (working (msg_received prompt) 0) :: t1)
                  ++ [Ev (unexpected session_id s2 x)])
    by (unfold stream; rewrite T; reflexivity).
  split.
  - rewrite E. cbn [app]. rewrite finalizer_calls_Ev, finalizer_calls_app, Q.
    reflexivity.
  - apply (stream_ends_with fuel fs (Ev (working (msg_received prompt) 0) :: t1)).
    + etransitivity; [exact E|]. unfold unexpected. rewrite Hk, Hj.
      reflexivity.
    + unfold stream. rewrite T. reflexivity.
Qed.

(** X11. When the loop is left with an operation that has a name attribute,
    no error and no video, the finaliser is not called and the run ends with
    one Failed event.  That event gives the no-video message when the
    response is [None], has no filter count, or has a count that is not
    positive; with a positive count it gives the joined reasons when the
    reasons are a list, and the unknown-filter reason when the attribute is
    missing.  A count or, under a positive count, reasons that are [None]
    make the code raise a TypeError, and the event is then that of the
    handler. *)
Theorem result_without_video_is_explained fuel fs op response :
  completed_operation self w prompt session_id fuel fs = Some op ->
  hasattr (op_name op) = true -> op_error op = Has None ->
  op_response op = Has response ->
  match response with
  | None => True
  | Some r => generated_videos r = Has None \/ generated_videos r = Has (Some [])
  end ->
  let ends e :=
    finalizer_calls (trace (stream self w prompt session_id fuel fs)) = []
    /\ ends_with (stream self w prompt session_id fuel fs) e in
  let handled text :=
    failed
      (Py.lit "An error occurred during video generation stream for session_id "
       ++ session_id ++ Py.lit ": " ++ text
       ++ Py.lit ". Context: VEO operation name: "
       ++ name_after w
            (length (polls (trace (stream self w prompt session_id fuel fs)))))
      (Py.lit "An unexpected error occurred: " ++ text) in
  (response = None -> ends (failed msg_no_video msg_no_video))
  /\ (forall r, response = Some r -> rai_media_filtered_count r = Missing ->
        ends (failed msg_no_video msg_no_video))
  /\ (forall r n, response = Some r ->
        rai_media_filtered_count r = Has (Some n) -> n <= 0 ->
        ends (failed msg_no_video msg_no_video))
  /\ (forall r n reasons, response = Some r ->
        rai_media_filtered_count r = Has (Some n) -> 0 < n ->
        rai_media_filtered_reasons r = Has (Some reasons) ->
        ends (failed
                (Py.lit "Video generation was blocked by safety filters. Reasons: "
                 ++ Py.join (Py.lit ", ") reasons)
                (Py.lit "Video generation was blocked by safety filters. Reasons: "
                 ++ Py.join (Py.lit ", ") reasons)))
  /\ (forall r n, response = Some r ->
        rai_media_filtered_count r = Has (Some n) -> 0 < n ->
        rai_media_filtered_reasons r = Missing ->
        ends (failed
                (Py.lit "Video generation was blocked by safety filters. Reasons: Unknown safety filter.")
                (Py.lit "Video generation was blocked by safety filters. Reasons: Unknown safety filter.")))
  /\ (forall r n, response = Some r ->
        rai_media_filtered_count r = Has (Some n) -> 0 < n ->
        rai_media_filtered_reasons r = Has None ->
        ends (handled (Py.lit "'NoneType' object is not iterable")))
  /\ (forall r, response = Some r ->
        rai_media_filtered_count r = Has None ->
        ends (handled
                (Py.lit "'>' not supported between instances of 'NoneType' and 'int'"))).
Proof.
  intros Hop Hn He Hr Hv. cbv zeta. unfold completed_operation in Hop.
  pose proof (await_operation_quiet self w prompt session_id fuel (entry fs)) as Q.
  destruct (await_operation self w prompt session_id fuel (entry fs))
    as [[t1 s2] [op'| | |]] eqn:A; try discriminate. injection Hop as ->.
  destruct Q as [_ (d & Hd & _)].
  destruct (op_name op) as [|n0] eqn:Hn0; [discriminate|].
  pose proof (finish_no_videos self w prompt session_id op s2 n0 d response
                Hn0 Hd He Hr Hv) as F.
  assert (Hclose : forall e,
            explain_empty response s2 = ([Ev e], s2, Val tt) ->
            finalizer_calls (trace (stream self w prompt session_id fuel fs)) = []
            /\ ends_with (stream self w prompt session_id fuel fs) e).
  { intros e E. rewrite E in F.
    apply (stream_closes_with fuel fs op t1 s2 e s2 (Val tt) A F); discriminate. }
  assert (Hraise : forall x,
            explain_empty response s2 = ([], s2, Exc x) ->
            finalizer_calls (trace (stream self w prompt session_id fuel fs)) = []
            /\ ends_with (stream self w prompt session_id fuel fs)
                 (failed
                    (Py.lit "An error occurred during video generation stream for session_id "
                     ++ session_id ++ Py.lit ": " ++ exn_text x
                     ++ Py.lit ". Context: VEO operation name: "
                     ++ name_after w
                          (length (polls (trace (stream self w prompt session_id
                                                   fuel fs)))))
                    (Py.lit "An unexpected error occurred: " ++ exn_text x))).
  { intros x E. rewrite E in F.
    apply (stream_raises_after_loop fuel fs op t1 s2 x A F). }
  refine (conj _ (conj _ (conj _ (conj _ (conj _ (conj _ _)))))).
  - intros ->. apply Hclose. reflexivity.
  - intros r -> Hc. apply Hclose. unfold explain_empty. now rewrite Hc.
  - intros r n -> Hc Hle. apply Hclose. unfold explain_empty. rewrite Hc.
    destruct (Z.ltb_spec 0 n); [lia|reflexivity].
  - intros r n reasons -> Hc Hlt Hrs. apply Hclose. unfold explain_empty.
    rewrite Hc. destruct (Z.ltb_spec 0 n); [|lia]. now rewrite Hrs.
  - intros r n -> Hc Hlt Hrs. apply Hclose. unfold explain_empty.
    rewrite Hc. destruct (Z.ltb_spec 0 n); [|lia]. now rewrite Hrs.
  - intros r n -> Hc Hlt Hrs.
    apply (Hraise (mkExn (Py.lit "TypeError")
                     (Py.lit "'NoneType' object is not iterable"))).
    unfold explain_empty. rewrite Hc. destruct (Z.ltb_spec 0 n); [|lia].
    now rewrite Hrs.
  - intros r -> Hc.
    apply (Hraise (mkExn (Py.lit "TypeError")
                     (Py.lit "'>' not supported between instances of 'NoneType' and 'int'"))).
    unfold explain_empty. now rewrite Hc.
Qed.

(** X12. A finished operation whose first video holds no bytes ([None] or
    empty) makes the run end with the Failed event of line 273, before any
    upload. *)
Theorem video_without_bytes_fails fuel fs op r gv rest v m :
  completed_operation self w prompt session_id fuel fs = Some op ->
  hasattr (op_name op) = true -> op_error op = Has None ->
  op_response op = Has (Some r) ->
  generated_videos r = Has (Some (gv :: rest)) ->
  video gv = Has (Some v) -> mime_type v = Has m ->
  video_bytes v = Has None \/ video_bytes v = Has (Some []) ->
  finalizer_calls (trace (stream self w prompt session_id fuel fs)) = []
  /\ ends_with (stream self w prompt session_id fuel fs)
       (failed msg_no_bytes msg_no_bytes_final).
Proof.
  intros Hop Hn He Hr Hg Hv Hm Hb. unfold completed_operation in Hop.
  pose proof (await_operation_quiet self w prompt session_id fuel (entry fs)) as Q.
  destruct (await_operation self w prompt session_id fuel (entry fs))
    as [[t1 s2] [op'| | |]] eqn:A; try discriminate. injection Hop as ->.
  destruct Q as [_ (d & Hd & _)].
  destruct (op_name op) as [|n0] eqn:Hn0; [discriminate|].
  apply (stream_closes_with fuel fs op t1 s2 _ s2 Ret A); try discriminate.
  unfold finish, deliver. rewrite Hn0, Hd, He, Hr. gen_unfold.
  cbv beta iota zeta. rewrite Hg. cbv beta iota zeta.
  rewrite Hv. cbv beta iota zeta. rewrite Hm. cbv beta iota zeta.
  destruct Hb as [-> | ->]; reflexivity.
Qed.

(** *** The temporary file *)

Lemma startswith_slash_no_slash (name : Py.str) :
  Py.has_slash name = false -> Py.startswith [Py.slash] name = false.
Proof.
  destruct name as [|c name]; [reflexivity|].
  unfold Py.has_slash. cbn [existsb].
  intros H. apply orb_false_iff in H as [Hc _]. unfold Py.is_slash in Hc.
  change (Py.startswith [Py.slash] (c :: name))
    with (Ascii.eqb Py.slash c && true).
  rewrite Ascii.eqb_sym, Hc. reflexivity.
Qed.

Lemma blob_last_segment sid u mime :
  Py.has_slash u = false ->
  Py.last_segment (gcs_blob_name sid u mime)
  = (if Py.has_slash sid then Py.last_segment sid
     else Py.lit "veo_video_" ++ sid)
    ++ tail_name u (extension mime).
Proof.
  intros Hu.
  assert (Ht : Py.has_slash (tail_name u (extension mime)) = false).
  { unfold tail_name. rewrite !has_slash_app, Hu, extension_no_slash. reflexivity. }
  rewrite gcs_blob_name_unfold.
  change (Py.lit "/veo_video_" ++ ?x) with (Py.slash :: Py.lit "veo_video_" ++ x).
  destruct (Py.has_slash sid) eqn:Hs.
  - destruct (last_segment_suffix sid Hs) as [pre Hpre].
    rewrite Hpre at 2.
    replace (sid ++ Py.slash :: Py.lit "veo_video_"
               ++ (pre ++ Py.slash :: Py.last_segment sid)
               ++ tail_name u (extension mime))
      with ((sid ++ Py.slash :: Py.lit "veo_video_" ++ pre)
              ++ Py.slash :: Py.last_segment sid ++ tail_name u (extension mime))
      by (rewrite <- !app_assoc; cbn [app]; rewrite <- !app_assoc; reflexivity).
    apply last_segment_after_slash.
    now rewrite has_slash_app, last_segment_no_slash, Ht.
  - rewrite app_assoc. rewrite <- app_assoc.
    replace (sid ++ (Py.slash :: Py.lit "veo_video_" ++ sid)
               ++ tail_name u (extension mime))
      with (sid ++ Py.slash :: (Py.lit "veo_video_" ++ sid)
              ++ tail_name u (extension mime)) by reflexivity.
    apply last_segment_after_slash.
    rewrite !has_slash_app, Hs, Ht. reflexivity.
Qed.

(** X13. Whatever the task id, the temporary file of an upload lies directly
    in the temporary directory: its name holds no separator and ends with
    the fresh uuid and the extension. *)
Theorem temp_file_lies_in_the_temp_directory sid u mime :
  Py.has_slash u = false ->
  exists name pre,
    name = pre ++ tail_name u (extension mime)
    /\ Py.has_slash name = false
    /\ (path_safe sid = true -> name = video_filename sid u mime)
    /\ (temp_file_path w (gcs_blob_name sid u mime) = w_tmpdir w ++ name
        \/ temp_file_path w (gcs_blob_name sid u mime)
           = w_tmpdir w ++ Py.slash :: name).
Proof.
  intros Hu.
  exists (Py.last_segment (gcs_blob_name sid u mime)),
    (if Py.has_slash sid then Py.last_segment sid else Py.lit "veo_video_" ++ sid).
  split; [now apply blob_last_segment|].
  split; [apply last_segment_no_slash|]. split.
  - intros Hs. unfold path_safe in Hs. apply negb_true_iff in Hs.
    rewrite blob_last_segment, Hs by assumption.
    unfold video_filename, video_filename_base, tail_name.
    rewrite <- !app_assoc. reflexivity.
  - unfold temp_file_path, Py.path_join.
    rewrite (startswith_slash_no_slash _ (last_segment_no_slash _)).
    destruct (w_tmpdir w) as [|c d]; [now left|].
    destruct (Py.endswith_slash (c :: d)); [now left|now right].
Qed.

End GeneratorRuns.

(** ** Numerals and stripping *)

Section Numerals.

Lemma digit_value d :
  0 <= d < 10 -> Z.of_nat (nat_of_ascii (Py.digit d)) - 48 = d.
Proof.
  intros Hd. unfold Py.digit. rewrite nat_ascii_embedding by lia. lia.
Qed.

Lemma pow10_pos f : 0 < 10 ^ Z.of_nat f.
Proof. apply Z.pow_pos_nonneg; lia. Qed.

(** Reading what [decimal_go] prints gives the number back. *)
Lemma decimal_go_value fuel : forall n acc,
  0 <= n < 10 ^ Z.of_nat fuel ->
  PyText.numeral_value 0 (Py.decimal_go fuel n acc) = PyText.numeral_value n acc.
Proof.
  induction fuel as [|f IH]; intros n acc Hn.
  - cbn in Hn. assert (n = 0) by lia. subst n. reflexivity.
  - cbn [Py.decimal_go]. cbv zeta.
    assert (Hd : 0 <= n mod 10 < 10) by (apply Z.mod_pos_bound; lia).
    destruct (Z.ltb_spec n 10) as [Hlt|Hge].
    + unfold PyText.numeral_value. cbn [fold_left].
      rewrite digit_value by exact Hd. rewrite Z.mod_small by lia.
      f_equal.
    + rewrite IH.
      * unfold PyText.numeral_value. cbn [fold_left].
        rewrite digit_value by exact Hd. f_equal.
        pose proof (Z.div_mod n 10 ltac:(lia)). lia.
      * rewrite Nat2Z.inj_succ, Z.pow_succ_r in Hn by lia.
        split; [apply Z.div_pos; lia|].
        apply Z.div_lt_upper_bound; lia.
Qed.

Lemma log2_fuel n : 0 <= n -> n < 10 ^ Z.of_nat (S (Z.to_nat (Z.log2 n))).
Proof.
  intros Hn. rewrite Nat2Z.inj_succ, Z2Nat.id by apply Z.log2_nonneg.
  destruct (Z.eq_dec n 0) as [->|Hz]; [cbn; lia|].
  pose proof (Z.log2_spec n ltac:(lia)) as [_ H].
  eapply Z.lt_le_trans; [exact H|].
  apply Z.pow_le_mono_l. pose proof (Z.log2_nonneg n). lia.
Qed.

Lemma decimal_go_head f n acc :
  0 <= n -> exists d r, 0 <= d < 10 /\ Py.decimal_go (S f) n acc = Py.digit d :: r.
Proof.
  revert n acc. induction f as [|f IH]; intros n acc Hn.
  - cbn [Py.decimal_go]. cbv zeta.
    exists (n mod 10). destruct (n <? 10); eexists;
      (split; [apply Z.mod_pos_bound; lia|reflexivity]).
  - remember (S f) as g. cbn [Py.decimal_go]. cbv zeta.
    destruct (n <? 10).
    + exists (n mod 10). eexists.
      split; [apply Z.mod_pos_bound; lia|reflexivity].
    + subst g. apply IH. apply Z.div_pos; lia.
Qed.

Lemma digit_not_minus d : 0 <= d < 10 -> Ascii.eqb (Py.digit d) "-" = false.
Proof.
  intros Hd.
  assert (H : d = 0 \/ d = 1 \/ d = 2 \/ d = 3 \/ d = 4 \/ d = 5 \/ d = 6
              \/ d = 7 \/ d = 8 \/ d = 9) by lia.
  repeat (destruct H as [->|H]; [reflexivity|]). subst d. reflexivity.
Qed.

(** [int(str(n)) == n] *)
Lemma int_of_numeral_str_of_Z n : PyText.int_of_numeral (Py.str_of_Z n) = n.
Proof.
  unfold Py.str_of_Z. destruct (Z.ltb_spec n 0) as [Hneg|Hpos].
  - cbn [PyText.int_of_numeral]. rewrite Ascii.eqb_refl.
    rewrite decimal_go_value by (split; [lia|apply log2_fuel; lia]).
    cbn. lia.
  - destruct (decimal_go_head (Z.to_nat (Z.log2 n)) n [] Hpos)
      as (d & r & Hd & E).
    pose proof (decimal_go_value (S (Z.to_nat (Z.log2 n))) n []
                  (conj Hpos (log2_fuel n Hpos))) as V.
    rewrite E in *. cbn [PyText.int_of_numeral].
    rewrite (digit_not_minus d Hd). exact V.
Qed.

Lemma str_of_Z_inj n m : Py.str_of_Z n = Py.str_of_Z m -> n = m.
Proof.
  intros E. apply (f_equal PyText.int_of_numeral) in E.
  now rewrite !int_of_numeral_str_of_Z in E.
Qed.

End Numerals.

Section Stripping.

Implicit Types chars s : Py.str.

Lemma lstrip_split chars s :
  exists l, s = l ++ PyText.lstrip chars s /\ Forall (among chars) l.
Proof.
  induction s as [|c s (l & E & Hl)]; [exists []; split; [reflexivity|constructor]|].
  cbn [PyText.lstrip]. destruct (existsb (Ascii.eqb c) chars) eqn:Hc.
  - exists (c :: l). split; [cbn; now rewrite <- E|]. constructor; assumption.
  - exists []. split; [reflexivity|constructor].
Qed.

Lemma lstrip_head chars s c r :
  PyText.lstrip chars s = c :: r -> existsb (Ascii.eqb c) chars = false.
Proof.
  induction s as [|a s IH]; cbn [PyText.lstrip]; [discriminate|].
  destruct (existsb (Ascii.eqb a) chars) eqn:Ha; [exact IH|].
  intros E. injection E as <- _. exact Ha.
Qed.

Lemma rstrip_split chars s :
  exists r, s = PyText.rstrip chars s ++ r /\ Forall (among chars) r.
Proof.
  unfold PyText.rstrip. destruct (lstrip_split chars (rev s)) as (l & E & Hl).
  exists (rev l). split.
  - rewrite <- rev_app_distr, <- E. symmetry. apply rev_involutive.
  - apply Forall_rev. exact Hl.
Qed.

Lemma rstrip_last chars s t c :
  PyText.rstrip chars s = t ++ [c] -> existsb (Ascii.eqb c) chars = false.
Proof.
  unfold PyText.rstrip. intros E. apply (f_equal (@rev ascii)) in E.
  rewrite rev_involutive, rev_app_distr in E. cbn in E.
  eapply lstrip_head. exact E.
Qed.

(** What [strip] removes and what it leaves. *)
Lemma strip_spec chars s :
  exists l r,
    s = l ++ PyText.strip chars s ++ r
    /\ Forall (among chars) l /\ Forall (among chars) r
    /\ (forall c t, PyText.strip chars s = c :: t ->
          existsb (Ascii.eqb c) chars = false)
    /\ (forall c t, PyText.strip chars s = t ++ [c] ->
          existsb (Ascii.eqb c) chars = false).
Proof.
  unfold PyText.strip.
  destruct (lstrip_split chars s) as (l & El & Hl).
  destruct (rstrip_split chars (PyText.lstrip chars s)) as (r & Er & Hr).
  exists l, r. split; [now rewrite <- Er|]. split; [exact Hl|].
  split; [exact Hr|]. split.
  - intros c t E. rewrite E in Er.
    destruct (PyText.lstrip chars s) as [|a u] eqn:L; [discriminate|].
    injection Er as <- _. eapply lstrip_head. exact L.
  - intros c t. apply rstrip_last.
Qed.

(** A string that neither begins nor ends with one of [chars] is kept. *)
Lemma lstrip_id chars s :
  match s with c :: _ => existsb (Ascii.eqb c) chars = false | [] => True end ->
  PyText.lstrip chars s = s.
Proof. destruct s as [|c s]; [reflexivity|]. cbn. now intros ->. Qed.

Lemma lstrip_app_among chars l s :
  Forall (among chars) l -> PyText.lstrip chars (l ++ s) = PyText.lstrip chars s.
Proof.
  induction 1 as [|c l Hc _ IH]; [reflexivity|].
  cbn. unfold among in Hc. now rewrite Hc.
Qed.

Lemma lstrip_all chars l : Forall (among chars) l -> PyText.lstrip chars l = [].
Proof.
  intros H. rewrite <- (app_nil_r l). now rewrite lstrip_app_among.
Qed.

(** Stripping gives back what the characters were wrapped around. *)
Lemma strip_wrapped chars l core r :
  Forall (among chars) l -> Forall (among chars) r -> bare chars core ->
  PyText.strip chars (l ++ core ++ r) = core.
Proof.
  intros Hl Hr [Hh Ht]. unfold PyText.strip. rewrite lstrip_app_among by exact Hl.
  destruct core as [|c t].
  - cbn [app]. rewrite lstrip_all by exact Hr. reflexivity.
  - rewrite (lstrip_id chars ((c :: t) ++ r)) by (cbn; eapply Hh; reflexivity).
    unfold PyText.rstrip. rewrite rev_app_distr.
    rewrite lstrip_app_among by (apply Forall_rev; exact Hr).
    destruct (exists_last (l := c :: t) ltac:(discriminate)) as (t' & z & E).
    rewrite E, rev_app_distr. cbn [rev app].
    rewrite lstrip_id by (cbn; eapply Ht; exact E).
    cbn [rev]. now rewrite rev_involutive.
Qed.

End Stripping.

(** ** The constructor *)

Section Constructor.

Import VideoGenerationAgent.

(** X14. A constructed agent is fully configured: the constructor returns only
    when the GenAI client, the bucket variable, the storage client and the
    ADK objects are all there, and raises otherwise (with an unset or empty
    bucket variable, the error of a bare [raise]); the agent then holds the
    bucket of the environment, whatever its text, and a storage client.  Its
    upload raises what [bucket()] raises for the bucket name, before any file
    is written, and otherwise only what [open], [write] or the upload call
    raise; its signing request raises exactly what [bucket()] raises, and
    otherwise returns the signed URL or, when signing fails, the storage
    locator. *)
Theorem constructed_agent_is_fully_configured interval total st :
  ((exists a, __init__ interval total st = inr a)
   <-> genai_Client st = None
       /\ PyText.truthy (environ st !! GCS_BUCKET_NAME_ENV_VAR) = true
       /\ storage_module st = true /\ storage_Client st = None
       /\ adk st = None)
  /\ (genai_Client st = None ->
      PyText.truthy (environ st !! GCS_BUCKET_NAME_ENV_VAR) = false ->
      __init__ interval total st = inl nothing_to_reraise)
  /\ (forall a,
        __init__ interval total st = inr a ->
        environ st !! GCS_BUCKET_NAME_ENV_VAR = Some (gcs_bucket_name a)
        /\ gcs_bucket_name a <> []
        /\ SIGNED_URL_EXPIRATION_SECONDS a = 172800
        /\ (forall w video_bytes bucket blob mime (fs : FS),
              match w_bucket w bucket with
              | Some e =>
                  _upload_bytes_to_gcs a w video_bytes bucket blob mime fs
                  = (fs, inl e)
              | None =>
                  forall e,
                    snd (_upload_bytes_to_gcs a w video_bytes bucket blob mime fs)
                    = inl e ->
                    open_fails (w_faults w) = Some e
                    \/ (exists n, write_fails (w_faults w) = Some (n, e))
                    \/ upload_fails (w_faults w) = Some e
              end)
        /\ (forall w blob bucket expiration,
              _generate_signed_url a w blob bucket expiration
              = match w_bucket w bucket with
                | Some e => inl e
                | None =>
                    match w_sign w blob bucket with
                    | inr url => inr url
                    | inl _ =>
                        inr (Py.lit "gs://" ++ bucket ++ Py.lit "/" ++ blob)
                    end
                end)).
Proof.
  unfold __init__.
  destruct (genai_Client st) as [e1|];
    [split; [split; [intros [a H]; discriminate H|intros (H & _); discriminate H]|];
     split; [discriminate|intros a H; discriminate H]|].
  destruct (environ st !! GCS_BUCKET_NAME_ENV_VAR) as [[|c b]|] eqn:Hb; cbn;
    try (split; [split; [intros [a H]; discriminate H|intros (_ & H & _); discriminate H]|];
         split; [reflexivity|intros a H; discriminate H]).
  destruct (storage_module st); cbn;
    [|split; [split; [intros [a H]; discriminate H|intros (_ & _ & H & _); discriminate H]|];
      split; [discriminate|intros a H; discriminate H]].
  destruct (storage_Client st) as [e2|];
    [split; [split; [intros [a H]; discriminate H|intros (_ & _ & _ & H & _); discriminate H]|];
     split; [discriminate|intros a H; discriminate H]|].
  destruct (adk st) as [e3|];
    [split; [split; [intros [a H]; discriminate H|intros (_ & _ & _ & _ & H); discriminate H]|];
     split; [discriminate|intros a H; discriminate H]|].
  split; [split; [auto|eauto]|]. split; [discriminate|].
  intros a H. injection H as <-. cbn.
  split; [reflexivity|]. split; [discriminate|]. split; [reflexivity|]. split.
  - intros w vb bucket blob mime fs.
    unfold _upload_bytes_to_gcs, write_and_upload. cbn [storage_client].
    destruct (w_bucket w bucket) as [y|]; [reflexivity|]. intros e.
    destruct (open_fails (w_faults w)) as [x|]; cbn [snd].
    { intros E. injection E as ->. now left. }
    destruct (write_fails (w_faults w)) as [[n x]|]; cbn [snd].
    { intros E. injection E as ->. right. left. eauto. }
    destruct (upload_fails (w_faults w)) as [x|]; cbn [snd].
    { intros E. injection E as ->. now right; right. }
    discriminate.
  - intros w blob bucket expiration. unfold _generate_signed_url.
    cbn [storage_client]. destruct (w_bucket w bucket); [reflexivity|].
    destruct (w_sign w blob bucket); reflexivity.
Qed.

(** X15. The address used for signing is the environment value without the
    quotes around it: an address written between apostrophes or double
    quotes is stored bare, an unset or empty variable gives [None], and a
    value that holds nothing but quotes gives the empty string. *)
Theorem signer_email_drops_surrounding_quotes interval total st a :
  __init__ interval total st = inr a ->
  let value := environ st !! SIGNER_SERVICE_ACCOUNT_EMAIL_ENV_VAR in
  (PyText.truthy value = false -> signer_service_account_email a = None)
  /\ (forall l core r,
        value = Some (l ++ core ++ r) -> l ++ core ++ r <> [] ->
        Forall (among PyText.quotes) l -> Forall (among PyText.quotes) r ->
        bare PyText.quotes core ->
        signer_service_account_email a = Some core)
  /\ (forall v,
        value = Some v -> v <> [] ->
        exists l core r,
          v = l ++ core ++ r
          /\ Forall (among PyText.quotes) l /\ Forall (among PyText.quotes) r
          /\ bare PyText.quotes core
          /\ signer_service_account_email a = Some core).
Proof.
  intros H. cbv zeta.
  assert (E : signer_service_account_email a
              = signer_email (environ st !! SIGNER_SERVICE_ACCOUNT_EMAIL_ENV_VAR)).
  { unfold __init__ in H.
    destruct (genai_Client st); [discriminate|].
    destruct (negb (PyText.truthy _)); [discriminate|].
    destruct (negb (storage_module st)); [discriminate|].
    destruct (storage_Client st); [discriminate|].
    destruct (adk st); [discriminate|]. now injection H as <-. }
  rewrite E. unfold signer_email. split; [|split].
  - now intros ->.
  - intros l core r -> Hne Hl Hr Hc.
    destruct (l ++ core ++ r) as [|x y] eqn:V; [contradiction|].
    cbn [PyText.truthy option_map]. rewrite <- V. f_equal.
    now apply strip_wrapped.
  - intros v -> Hne. destruct v as [|x y]; [contradiction|].
    cbn [PyText.truthy option_map].
    destruct (strip_spec PyText.quotes (x :: y)) as (l & r & Ev & Hl & Hr & Hh & Ht).
    exists l, (PyText.strip PyText.quotes (x :: y)), r.
    split; [exact Ev|]. split; [exact Hl|]. split; [exact Hr|].
    split; [|reflexivity]. split; intros c t Ec; [eapply Hh|eapply Ht]; exact Ec.
Qed.

End Constructor.

(** ** The entry points *)

Section EntryPoints.

(** X16. [main] of the VEO agent never reaches [uvicorn.run]: every run ends in
    [exit(1)].  With a configuration that passes the checks, the agent card
    cannot be built, since [VideoGenerationAgent] has no attribute
    [SUPPORTED_CONTENT_TYPES]. *)
Theorem veo_main_always_exits environ lib host port :
  (exists logged, VeoMain.main environ lib host port = VeoMain.Exit 1 logged)
  /\ (forall e,
        VeoMain.config_error environ = Some e ->
        VeoMain.main environ lib host port
        = VeoMain.Exit 1 (Py.lit "Configuration Error: " ++ exn_text e))
  /\ (VeoMain.config_error environ = None ->
      VeoMain.build_skill lib = None ->
      VeoMain.main environ lib host port
      = VeoMain.Exit 1
          (Py.lit "An error occurred during server startup: type object 'VideoGenerationAgent' has no attribute 'SUPPORTED_CONTENT_TYPES'")).
Proof.
  unfold VeoMain.main, VeoMain.try_body.
  assert (Hc : forall e, VeoMain.config_error environ = Some e ->
                 exn_class e = Py.lit "ConfigError").
  { unfold VeoMain.config_error. intros e.
    destruct (_ && _); [intros H; now injection H as <-|].
    destruct (_ && _); [intros H; now injection H as <-|discriminate]. }
  destruct (VeoMain.config_error environ) as [e|].
  - rewrite (Hc e eq_refl). rewrite bool_decide_eq_true_2 by reflexivity.
    split; [eauto|]. split; [|discriminate].
    intros x H. now injection H as <-.
  - split; [|split; [discriminate|]].
    + destruct (VeoMain.build_skill lib) as [x|]; cbn [VeoMain.raise_if].
      * destruct (bool_decide _); eauto.
      * vm_compute. eauto.
    + intros _ ->. vm_compute. reflexivity.
Qed.

(** X17. [main] of the Cloud Run agent never reaches [uvicorn.run]: without a
    non-empty [GOOGLE_API_KEY] it raises [MissingAPIKeyError], whatever
    [GOOGLE_GENAI_USE_VERTEXAI] holds; with one, building the agent card
    raises [NameError], since [HOST] is bound nowhere. *)
Theorem cloud_run_main_never_serves environ lib host port :
  (exists e, CloudRunMain.main environ lib host port = CloudRunMain.Raised e)
  /\ (PyText.truthy (environ !! Py.lit "GOOGLE_API_KEY") = false ->
      CloudRunMain.main environ lib host port
      = CloudRunMain.Raised CloudRunMain.missing_api_key)
  /\ (PyText.truthy (environ !! Py.lit "GOOGLE_API_KEY") = true ->
      CloudRunMain.build_agent lib = None ->
      CloudRunMain.main environ lib host port
      = CloudRunMain.Raised
          (mkExn (Py.lit "NameError") (Py.lit "name 'HOST' is not defined"))).
Proof.
  unfold CloudRunMain.main.
  destruct (PyText.truthy (environ !! Py.lit "GOOGLE_API_KEY")); cbn [negb].
  - split; [|split; [discriminate|]].
    + destruct (CloudRunMain.build_agent lib); [eauto|]. vm_compute. eauto.
    + intros _ ->. vm_compute. reflexivity.
  - split; [eauto|]. split; [reflexivity|discriminate].
Qed.

End EntryPoints.

(** ** The DEV.to client *)

Section DevTo.

Import DevToService.

Lemma lower_char_letter a :
  is_lower_letter (PyText.lower_char a) = true ->
  a = PyText.lower_char a \/ a = PyText.upper_char (PyText.lower_char a).
Proof.
  destruct a as [[] [] [] [] [] [] [] []]; vm_compute; intros H;
    first [discriminate H | left; reflexivity | right; reflexivity].
Qed.

Lemma letter_lower c :
  is_lower_letter c = true ->
  PyText.lower_char c = c /\ PyText.lower_char (PyText.upper_char c) = c.
Proof.
  destruct c as [[] [] [] [] [] [] [] []]; vm_compute; intros H;
    first [discriminate H | split; reflexivity].
Qed.

Lemma lower_char_iff a c :
  is_lower_letter c = true ->
  PyText.lower_char a = c <-> a = c \/ a = PyText.upper_char c.
Proof.
  intros Hc. destruct (letter_lower c Hc) as [L1 L2]. split.
  - intros <-. apply lower_char_letter. exact Hc.
  - intros [->| ->]; assumption.
Qed.

(** [m.lower() == word] exactly for the spellings of [word]. *)
Lemma lower_spellings word : forall m,
  forallb is_lower_letter word = true ->
  PyText.lower m = word <-> In m (spellings word).
Proof.
  induction word as [|c word IH]; intros m Hw.
  - cbn. destruct m; split; intros H; try discriminate H; auto.
    destruct H as [H|[]]. discriminate H.
  - cbn [forallb] in Hw. apply andb_true_iff in Hw as [Hc Hw].
    cbn [spellings]. rewrite in_flat_map.
    destruct (letter_lower c Hc) as [L1 _]. rewrite L1. split.
    + destruct m as [|a m]; [discriminate|]. cbn [PyText.lower map].
      intros E. injection E as Ea Em.
      exists m. split; [apply IH; assumption|].
      apply (lower_char_iff a c Hc) in Ea as [->| ->]; [now left|right; now left].
    + intros (s & Hs & [<-|[<-|[]]]); cbn [PyText.lower map];
        apply IH in Hs; try assumption; fold (PyText.lower s); rewrite Hs;
        f_equal; apply (lower_char_iff _ c Hc); auto.
Qed.

Example spellings_get :
  spellings (Py.lit "get")
  = map Py.lit ["get"; "Get"; "gEt"; "GEt"; "geT"; "GeT"; "gET"; "GET"]%string.
Proof. vm_compute. reflexivity. Qed.

(** X18. [send_request] takes the method in any mix of upper and lower case:
    a spelling of get sends one GET with the query parameters, a spelling of
    post one POST with the JSON body, both to [base_url/endpoint]; any other
    method raises [ValueError] before anything is sent. *)
Theorem send_request_takes_the_method_in_any_case
    self http method endpoint params data :
  let url := PyText.str_of_optional (base_url self) ++ Py.lit "/" ++ endpoint in
  let answer rq :=
    match http rq with
    | inl e => inl e
    | inr response => read_response response
    end in
  (In method (spellings (Py.lit "get")) ->
   send_request self http method endpoint params data
   = ([Get url (headers self) params], answer (Get url (headers self) params)))
  /\ (In method (spellings (Py.lit "post")) ->
      send_request self http method endpoint params data
      = ([Post url (headers self) data], answer (Post url (headers self) data)))
  /\ (~ In method (spellings (Py.lit "get")) ->
      ~ In method (spellings (Py.lit "post")) ->
      send_request self http method endpoint params data
      = ([], inl unsupported_method)).
Proof.
  cbv zeta. unfold send_request. split; [|split].
  - intros H. apply lower_spellings in H; [|reflexivity].
    rewrite bool_decide_eq_true_2 by exact H.
    destruct (http _); reflexivity.
  - intros H. apply lower_spellings in H; [|reflexivity].
    rewrite bool_decide_eq_false_2 by (rewrite H; discriminate).
    rewrite bool_decide_eq_true_2 by exact H.
    destruct (http _); reflexivity.
  - intros Hg Hp.
    rewrite bool_decide_eq_false_2
      by (intros H; apply Hg, lower_spellings; [reflexivity|exact H]).
    rewrite bool_decide_eq_false_2
      by (intros H; apply Hp, lower_spellings; [reflexivity|exact H]).
    reflexivity.
Qed.

(** X19. [send_request] sends at most one request and returns a parsed body
    only for status 200; for any other status that [raise_for_status] lets
    pass (201 Created, say) it returns [None]; what the call, the parser or
    [raise_for_status] raises propagates. *)
Theorem send_request_returns_the_body_only_for_status_200
    self http method endpoint params data :
  match send_request self http method endpoint params data with
  | (sent, result) =>
      (length sent <= 1)%nat
      /\ (forall v, result = inr v -> v <> VNone ->
            exists rq response,
              sent = [rq] /\ http rq = inr response
              /\ status_code response = 200 /\ json response = inr v)
      /\ (forall rq response,
            sent = [rq] -> http rq = inr response ->
            (status_code response = 200 -> result = json response)
            /\ (status_code response <> 200 ->
                result = match raise_for_status response with
                         | Some e => inl e
                         | None => inr VNone
                         end))
      /\ (forall rq e, sent = [rq] -> http rq = inl e -> result = inl e)
  end.
Proof.
  assert (H : forall rq,
            match (match http rq with
                   | inl e => ([rq], inl e)
                   | inr response => ([rq], read_response response)
                   end) with
            | (sent, result) =>
                (length sent <= 1)%nat
                /\ (forall v, result = inr v -> v <> VNone ->
                      exists rq response,
                        sent = [rq] /\ http rq = inr response
                        /\ status_code response = 200 /\ json response = inr v)
                /\ (forall rq response,
                      sent = [rq] -> http rq = inr response ->
                      (status_code response = 200 -> result = json response)
                      /\ (status_code response <> 200 ->
                          result = match raise_for_status response with
                                   | Some e => inl e
                                   | None => inr VNone
                                   end))
                /\ (forall rq e, sent = [rq] -> http rq = inl e -> result = inl e)
            end).
  { intros rq. destruct (http rq) as [e|response] eqn:E.
    - split; [cbn; lia|]. split; [intros v Hv; discriminate Hv|]. split.
      + intros rq' r' Hrq. injection Hrq as <-. congruence.
      + intros rq' e' Hrq. injection Hrq as <-. congruence.
    - split; [cbn; lia|]. unfold read_response. split; [|split].
      + intros v Hv Hn. exists rq, response.
        destruct (Z.eqb_spec (status_code response) 200) as [Hs|Hs]; [auto|].
        destruct (raise_for_status response); [discriminate|].
        injection Hv as <-. contradiction.
      + intros rq' r' Hrq. injection Hrq as <-. intros Hr.
        assert (r' = response) by congruence. subst r'.
        destruct (Z.eqb_spec (status_code response) 200); split; intros;
          try reflexivity; contradiction.
      + intros rq' e' Hrq. injection Hrq as <-. congruence. }
  unfold send_request. destruct (bool_decide _); [apply H|].
  destruct (bool_decide _); [apply H|].
  split; [cbn; lia|]. split; [intros v Hv; discriminate Hv|].
  split; intros; discriminate.
Qed.

(** X20. [get_article_content] asks for [base_url/articles/<id>] with one GET,
    and different ids give different URLs. *)
Theorem article_requests_differ_by_id self http :
  (forall article_id,
     fst (get_article_content self http article_id)
     = [Get (PyText.str_of_optional (base_url self) ++ Py.lit "/articles/"
             ++ Py.str_of_Z article_id) (headers self) VNone])
  /\ (forall id1 id2,
        fst (get_article_content self http id1)
        = fst (get_article_content self http id2) ->
        id1 = id2).
Proof.
  assert (H : forall article_id,
            fst (get_article_content self http article_id)
            = [Get (PyText.str_of_optional (base_url self) ++ Py.lit "/articles/"
                    ++ Py.str_of_Z article_id) (headers self) VNone]).
  { intros article_id. unfold get_article_content, send_request.
    rewrite bool_decide_eq_true_2 by reflexivity.
    destruct (http _); reflexivity. }
  split; [exact H|]. intros id1 id2 E. rewrite !H in E.
  injection E as E. apply app_inv_head in E. injection E as E.
  now apply str_of_Z_inj.
Qed.

End DevTo.

(** ** Further runs *)

Section MoreRuns.

Import Scenario Cases.

Example happy_run_calls :
  calls (trace (stream agent happy prompt task 5 ∅))
  = [CStart prompt; CSleep 5; CPoll pending; CSleep 5; CPoll pending;
     CUpload fake_mp4 (Py.lit "videos")
       (gcs_blob_name task uuid1 (Py.lit "video/mp4")) (Py.lit "video/mp4");
     CSign (gcs_blob_name task uuid1 (Py.lit "video/mp4")) (Py.lit "videos")
       172800].
Proof. vm_compute. reflexivity. Qed.

Lemma stream_yields_four_shapes_witness :
  yielded_shape (working (msg_received prompt) 0).
Proof.
  apply (stream_yields_four_shapes agent happy prompt task 5 ∅).
  vm_compute. left. reflexivity.
Defined.

Lemma no_uri_branch_is_never_taken_witness :
  content (failed (msg_veo_failed quota_error) (msg_veo_failed quota_error))
  <> Some msg_no_uri.
Proof.
  apply (no_uri_branch_is_never_taken agent failing prompt task 5 ∅).
  vm_compute. right. right. left. reflexivity.
Defined.

Lemma upload_failure_fails_the_task_witness :
  finished (stream agent upload_refused prompt task 5 ∅) = true
  /\ finalizer_calls (trace (stream agent upload_refused prompt task 5 ∅))
     = [CUpload fake_mp4 (Py.lit "videos")
          (gcs_blob_name task uuid1 (Py.lit "video/mp4")) (Py.lit "video/mp4")]
  /\ exists evs e,
       events (trace (stream agent upload_refused prompt task 5 ∅)) = evs ++ [e]
       /\ Forall (fun a => is_task_complete a = false) evs
       /\ is_task_complete e = true /\ is_error e = Some true
       /\ file_part_data e = None
       /\ final_message_text e
          = Some (Py.lit "An unexpected error occurred: " ++ exn_text forbidden).
Proof.
  apply (upload_failure_fails_the_task agent upload_refused prompt task 5 ∅).
  - vm_compute. do 6 right. left. reflexivity.
  - reflexivity.
Defined.

Lemma signed_url_is_delivered_witness :
  finalizer_calls (trace (stream agent happy prompt task 5 ∅))
  = [CUpload fake_mp4 (Py.lit "videos")
       (gcs_blob_name task uuid1 (Py.lit "video/mp4")) (Py.lit "video/mp4");
     CSign (gcs_blob_name task uuid1 (Py.lit "video/mp4")) (Py.lit "videos")
       (SIGNED_URL_EXPIRATION_SECONDS agent)]
  /\ ends_with (stream agent happy prompt task 5 ∅)
       (completed signed_url (Py.lit "video/mp4")
          (video_filename task (w_uuid happy) (Py.lit "video/mp4"))
          (msg_artifact prompt
             (gs_uri (Py.lit "videos")
                (gcs_blob_name task uuid1 (Py.lit "video/mp4"))))
          (msg_success signed_url
             (gs_uri (Py.lit "videos")
                (gcs_blob_name task uuid1 (Py.lit "video/mp4"))))).
Proof.
  apply (signed_url_is_delivered agent happy prompt task 5 ∅).
  - vm_compute. do 9 right. left. reflexivity.
  - reflexivity.
  - vm_compute. reflexivity.
  - vm_compute. reflexivity.
  - vm_compute. reflexivity.
Defined.

Lemma progress_messages_name_the_latest_operation_witness :
  name_after (on_clock every_29 nameless_start) 1 <> []
  /\ exists p,
       current_progress
         (PyFloat.sub (PyFloat.round (every_29 1)) (PyFloat.round (every_29 0)))
         100 = inr p
       /\ 5 <= p <= 99
       /\ working
            (Py.lit "Video generation in progress (Operation: operations/veo-1). Simulated progress: 28%")
            28
          = working
              (Py.lit "Video generation in progress (Operation: "
               ++ name_after (on_clock every_29 nameless_start) 1
               ++ Py.lit "). Simulated progress: " ++ Py.str_of_Z p
               ++ Py.lit "%") p.
Proof.
  apply (progress_messages_name_the_latest_operation centenary
           (on_clock every_29 nameless_start) prompt task 5 ∅ 1%nat
           (working
              (Py.lit "Video generation in progress (Operation: operations/veo-1). Simulated progress: 28%")
              28)).
  - vm_compute. reflexivity.
  - reflexivity.
Defined.

(** Before the first answer the operation of [nameless_start] has no name. *)
Example start_notice_without_a_name :
  nth_error (events (trace (stream centenary (on_clock every_29 nameless_start)
                              prompt task 5 ∅))) 1
  = Some (working
            (Py.lit "VEO operation 'N/A' started. Polling for completion...") 5).
Proof. vm_compute. reflexivity. Qed.

Lemma zero_total_time_never_completes_witness :
  finalizer_calls (trace (stream hasty happy prompt task 5 ∅)) = []
  /\ (forall e, In e (events (trace (stream hasty happy prompt task 5 ∅))) ->
                file_part_data e = None)
  /\ (length (polls (trace (stream hasty happy prompt task 5 ∅))) <= 1)%nat
  /\ (forall polled n,
        (0 < 5)%nat -> w_poll happy O = inr polled -> accepted polled = Some n ->
        ends_with (stream hasty happy prompt task 5 ∅)
          (unexpected task (adopt_name n (started_frame pending (entry ∅)))
             zero_division)).
Proof.
  apply (zero_total_time_never_completes hasty happy prompt task 5 ∅ pending None);
    reflexivity.
Defined.

Lemma handler_context_tells_whether_started_witness :
  (calls (trace (stream agent start_fails prompt task 5 ∅)) = [CStart prompt]
   /\ ends_with (stream agent start_fails prompt task 5 ∅)
        (failed
           (Py.lit "An error occurred during video generation stream for session_id t1: 403 caller lacks permission. Context: VEO operation not started.")
           (Py.lit "An unexpected error occurred: 403 caller lacks permission")))
  /\ length (polls (trace (stream agent renamed_then_fails prompt task 5 ∅)))
     = 2%nat
  /\ name_after renamed_then_fails 2 = Py.lit "operations/veo-2"
  /\ ends_with (stream agent renamed_then_fails prompt task 5 ∅)
       (failed
          (Py.lit "An error occurred during video generation stream for session_id t1: 403 caller lacks permission. Context: VEO operation name: operations/veo-2")
          (Py.lit "An unexpected error occurred: 403 caller lacks permission")).
Proof.
  split.
  - apply (proj1 (handler_context_tells_whether_started agent start_fails
                    prompt task 5 ∅) forbidden).
    reflexivity.
  - split; [vm_compute; reflexivity|]. split; [vm_compute; reflexivity|].
    assert (T : exists t s,
               try_block agent renamed_then_fails prompt task 5 (entry ∅)
               = (t, s, Exc forbidden))
      by (eexists _, _; vm_compute; reflexivity).
    destruct T as (t & s & T).
    exact (proj1 (proj2 (handler_context_tells_whether_started agent
                           renamed_then_fails prompt task 5 ∅)
                    pending t s forbidden eq_refl T)).
Defined.

Lemma result_without_video_is_explained_witness :
  finalizer_calls (trace (stream agent rejected prompt task 5 ∅)) = []
  /\ ends_with (stream agent rejected prompt task 5 ∅)
       (failed (msg_blocked [Py.lit "violence"; Py.lit "celebrity"])
          (msg_blocked [Py.lit "violence"; Py.lit "celebrity"])).
Proof.
  pose proof (result_without_video_is_explained agent rejected prompt task 5 ∅
                filtered
                (Some (response None (Has (Some 2))
                         (Has (Some [Py.lit "violence"; Py.lit "celebrity"])))))
    as H.
  destruct H as (_ & _ & _ & H & _).
  - vm_compute. reflexivity.
  - reflexivity.
  - reflexivity.
  - reflexivity.
  - left. reflexivity.
  - apply (H (response None (Has (Some 2))
                  (Has (Some [Py.lit "violence"; Py.lit "celebrity"])))
             2 [Py.lit "violence"; Py.lit "celebrity"]);
      [reflexivity | reflexivity | lia | reflexivity].
Defined.

(** One video filtered out and no reasons: line 337 raises, and the handler
    reports it. *)
Example filtered_without_reasons :
  finalizer_calls (trace (stream agent unexplained prompt task 5 ∅)) = []
  /\ ends_with (stream agent unexplained prompt task 5 ∅)
       (failed
          (Py.lit "An error occurred during video generation stream for session_id t1: 'NoneType' object is not iterable. Context: VEO operation name: operations/veo-1")
          (Py.lit "An unexpected error occurred: 'NoneType' object is not iterable")).
Proof.
  split; [vm_compute; reflexivity|]. split; [vm_compute; reflexivity|].
  eexists [_; _; _]. split; [vm_compute; reflexivity|]. repeat constructor.
Qed.

Lemma video_without_bytes_fails_witness :
  finalizer_calls (trace (stream agent hollow prompt task 5 ∅)) = []
  /\ ends_with (stream agent hollow prompt task 5 ∅)
       (failed msg_no_bytes msg_no_bytes_final).
Proof.
  apply (video_without_bytes_fails agent hollow prompt task 5 ∅ hollow_result
           hollow_response {| video := Has (Some hollow_video) |} []
           hollow_video (Some (Py.lit "video/mp4")));
    first [vm_compute; reflexivity | left; reflexivity].
Defined.

Lemma temp_file_lies_in_the_temp_directory_witness :
  exists name pre,
    name = pre ++ tail_name uuid1 (extension (Py.lit "video/mp4"))
    /\ Py.has_slash name = false
    /\ (path_safe (Py.lit "../etc/t1") = true ->
        name = video_filename (Py.lit "../etc/t1") uuid1 (Py.lit "video/mp4"))
    /\ (temp_file_path happy
          (gcs_blob_name (Py.lit "../etc/t1") uuid1 (Py.lit "video/mp4"))
        = w_tmpdir happy ++ name
        \/ temp_file_path happy
             (gcs_blob_name (Py.lit "../etc/t1") uuid1 (Py.lit "video/mp4"))
           = w_tmpdir happy ++ Py.slash :: name).
Proof.
  apply (temp_file_lies_in_the_temp_directory happy (Py.lit "../etc/t1") uuid1
           (Py.lit "video/mp4")).
  vm_compute. reflexivity.
Defined.

Example temp_file_of_a_hostile_task_id :
  temp_file_path happy
    (gcs_blob_name (Py.lit "../etc/t1") uuid1 (Py.lit "video/mp4"))
  = Py.lit "/tmp/t1_123e4567-e89b-42d3-a456-426614174000.mp4".
Proof. vm_compute. reflexivity. Qed.

Lemma signer_email_drops_surrounding_quotes_witness :
  VideoGenerationAgent.__init__ 5 120 startup = inr constructed
  /\ signer_service_account_email constructed
     = Some (Py.lit "veo@example.iam.gserviceaccount.com").
Proof.
  split; [vm_compute; reflexivity|].
  pose proof (signer_email_drops_surrounding_quotes 5 120 startup constructed)
    as H.
  destruct H as (_ & H & _); [vm_compute; reflexivity|].
  apply (H (Py.lit "'") (Py.lit "veo@example.iam.gserviceaccount.com") (Py.lit "'")).
  - vm_compute. reflexivity.
  - discriminate.
  - repeat constructor.
  - repeat constructor.
  - split; intros c t E.
    + injection E as <- _. reflexivity.
    + change (Py.lit "veo@example.iam.gserviceaccount.com")
        with (Py.lit "veo@example.iam.gserviceaccount.co" ++ ["m"%char]) in E.
      apply app_inj_tail in E as [_ <-]. reflexivity.
Defined.

Lemma constructed_agent_is_fully_configured_witness :
  VideoGenerationAgent.__init__ 5 120 startup = inr constructed
  /\ VideoGenerationAgent.environ startup
       !! VideoGenerationAgent.GCS_BUCKET_NAME_ENV_VAR
     = Some (gcs_bucket_name constructed)
  /\ (forall w blob bucket expiration,
        _generate_signed_url constructed w blob bucket expiration
        = match w_bucket w bucket with
          | Some e => inl e
          | None =>
              match w_sign w blob bucket with
              | inr url => inr url
              | inl _ => inr (Py.lit "gs://" ++ bucket ++ Py.lit "/" ++ blob)
              end
          end).
Proof.
  assert (H : VideoGenerationAgent.__init__ 5 120 startup = inr constructed)
    by (vm_compute; reflexivity).
  split; [exact H|].
  destruct (proj2 (proj2 (constructed_agent_is_fully_configured 5 120 startup))
              constructed H) as (Hb & _ & _ & _ & Hs).
  split; [exact Hb|exact Hs].
Defined.

(** A bucket name that the storage library rejects: the constructed agent
    reaches the upload, [bucket()] raises, no file is written and the run
    ends with the Failed event of the handler. *)
Example rejected_bucket_fails_the_task :
  _upload_bytes_to_gcs constructed (no_bucket happy) fake_mp4 (Py.lit "videos")
    (gcs_blob_name task uuid1 (Py.lit "video/mp4")) (Py.lit "video/mp4") ∅
  = (∅, inl invalid_bucket)
  /\ _generate_signed_url constructed (no_bucket happy)
       (gcs_blob_name task uuid1 (Py.lit "video/mp4")) (Py.lit "videos") 172800
     = inl invalid_bucket
  /\ List.last
       (map final_message_text
          (events (trace (stream constructed (no_bucket happy) prompt task 5 ∅))))
       None
     = Some (Py.lit "An unexpected error occurred: Bucket names must start and end with a number or letter.").
Proof. vm_compute. repeat split. Qed.

Lemma veo_main_always_exits_witness :
  VeoMain.main environment veo_library (Py.lit "localhost") 8001
  = VeoMain.Exit 1
      (Py.lit "An error occurred during server startup: type object 'VideoGenerationAgent' has no attribute 'SUPPORTED_CONTENT_TYPES'").
Proof.
  apply (proj2 (proj2 (veo_main_always_exits environment veo_library
                         (Py.lit "localhost") 8001))).
  - vm_compute. reflexivity.
  - reflexivity.
Defined.

(** Without any key the configuration check stops [main]. *)
Example veo_main_without_a_key :
  VeoMain.main ∅ veo_library (Py.lit "localhost") 8001
  = VeoMain.Exit 1
      (Py.lit "Configuration Error: GOOGLE_API_KEY must be set if GOOGLE_GENAI_USE_VERTEXAI is FALSE.").
Proof. vm_compute. reflexivity. Qed.

Lemma cloud_run_main_never_serves_witness :
  CloudRunMain.main environment cloud_run_library (Py.lit "localhost") 10002
  = CloudRunMain.Raised
      (mkExn (Py.lit "NameError") (Py.lit "name 'HOST' is not defined")).
Proof.
  apply (proj2 (proj2 (cloud_run_main_never_serves environment
                         cloud_run_library (Py.lit "localhost") 10002))).
  - vm_compute. reflexivity.
  - reflexivity.
Defined.

Import DevToService.

Lemma send_request_takes_the_method_in_any_case_witness :
  send_request devto found (Py.lit "GET") (Py.lit "articles")
    (VDict [(Py.lit "page", VInt 1)]) VNone
  = ([Get (Py.lit "https://dev.to/api/articles") (headers devto)
        (VDict [(Py.lit "page", VInt 1)])],
     inr (VDict [(Py.lit "id", VInt 42)])).
Proof.
  apply (proj1 (send_request_takes_the_method_in_any_case devto found
                  (Py.lit "GET") (Py.lit "articles")
                  (VDict [(Py.lit "page", VInt 1)]) VNone)).
  vm_compute. do 7 right. left. reflexivity.
Defined.

(** An article is created (201), and [post_article] returns [None]. *)
Example post_article_returns_none_on_created :
  snd (post_article devto created (Py.lit "Title") (Py.lit "Body") [Py.lit "a2a"])
  = inr VNone.
Proof. vm_compute. reflexivity. Qed.

Lemma send_request_returns_the_body_only_for_status_200_witness :
  snd (send_request devto created (Py.lit "post") (Py.lit "articles") VNone
         (VDict [(Py.lit "article", VDict [(Py.lit "title", VStr (Py.lit "Title"))])]))
  = inr VNone.
Proof.
  pose proof (send_request_returns_the_body_only_for_status_200 devto created
                (Py.lit "post") (Py.lit "articles") VNone
                (VDict [(Py.lit "article",
                         VDict [(Py.lit "title", VStr (Py.lit "Title"))])]))
    as H.
  destruct (send_request devto created (Py.lit "post") (Py.lit "articles") VNone
              (VDict [(Py.lit "article",
                       VDict [(Py.lit "title", VStr (Py.lit "Title"))])]))
    as [sent result] eqn:E.
  destruct H as (_ & _ & H & _). cbn [snd].
  vm_compute in E. injection E as <- <-.
  destruct (H _ _ eq_refl eq_refl) as [_ H2].
  apply H2. discriminate.
Defined.

Lemma article_requests_differ_by_id_witness :
  fst (get_article_content devto found 7)
  = [Get (Py.lit "https://dev.to/api/articles/7") (headers devto) VNone]
  /\ fst (get_article_content devto found 7)
     <> fst (get_article_content devto found 8).
Proof.
  split.
  - apply (proj1 (article_requests_differ_by_id devto found) 7).
  - intros E. apply (proj2 (article_requests_differ_by_id devto found) 7 8) in E.
    discriminate E.
Defined.

End MoreRuns.
